(** * Verified Provenance reference verifier: a shallow embedding of
      [scripts/vp_verify.py] and the properties its specification states.

    Conventions of the embedding.

    - A Python [str] is a Rocq [string] holding its UTF-8 encoding, so that
      [.encode("utf-8")] is the identity and the code-point order of Python
      coincides with the byte order used here.  Only well-formed text is
      represented (no lone surrogates, on which [.encode("utf-8")] raises
      [UnicodeEncodeError]), so [canonical_json_bytes] and
      [compute_event_hash] are total here.
    - Where Python consults the Unicode tables the models keep to ASCII:
      [lower] leaves letters outside ASCII as they are, [py_repr] keeps all
      text outside ASCII, and [urlsplit] leaves out the NFKC and bracketed
      host checks of CPython, which raise [ValueError].
    - A decoded JSON document is a value of [json]; a Python [dict] is the
      list of its items in insertion order, looked up from the front.
    - A Python exception is a value of [exn]; a computation that may raise
      returns a [result].
    - The standard library function [datetime.fromisoformat] and the network
      are interfaces ([IsoParser], [Network]): the general theorems hold for
      all their implementations, the concrete cases are run with
      [strict_parser] and a network given in full. *)

From Stdlib Require Import ZArith String Ascii List Bool Lia.
From Stdlib Require Import DecimalString OrdersEx.
From Stdlib Require Import Sorting.Sorted Sorting.Permutation.
From Stdlib Require Import RelationClasses.
Import ListNotations.

Open Scope list_scope.
Open Scope string_scope.

(** ** Exceptions and results *)

Inductive exn : Type :=
| ValueError (msg : string)
| AttributeError (msg : string)
| OverflowError (msg : string).

Inductive result (A : Type) : Type :=
| Ok (a : A)
| Raise (e : exn).

Arguments Ok {A} a.
Arguments Raise {A} e.

Definition bind {A B : Type} (m : result A) (k : A -> result B) : result B :=
  match m with
  | Ok a => k a
  | Raise e => Raise e
  end.

Notation "x <- m ;; k" := (bind m (fun x => k))
  (at level 61, m at next level, right associativity).

(** ** Strings *)

Definition chars (s : string) : list ascii := list_ascii_of_string s.
Definition of_chars (l : list ascii) : string := string_of_list_ascii l.

Definition str_ltb (a b : string) : bool :=
  match String_as_OT.compare a b with
  | Lt => true
  | _ => false
  end.

Definition is_empty (s : string) : bool :=
  match s with
  | EmptyString => true
  | String _ _ => false
  end.

Definition startswith (s p : string) : bool := String.prefix p s.

Definition str_rev (s : string) : string := of_chars (rev (chars s)).

Definition endswith (s suffix : string) : bool :=
  String.prefix (str_rev suffix) (str_rev s).

(** [s[:-1]] *)
Definition drop_last (s : string) : string := of_chars (removelast (chars s)).

(** [sub in s] *)
Fixpoint contains (s sub : string) : bool :=
  String.prefix sub s ||
  match s with
  | EmptyString => false
  | String _ s' => contains s' sub
  end.

Definition has_char (c : ascii) (s : string) : bool :=
  existsb (Ascii.eqb c) (chars s).

(** [s.partition(c)] for a one-character separator: the part before the
    first [c], whether [c] occurs, and the part after it. *)
Fixpoint partition (c : ascii) (s : string) : string * bool * string :=
  match s with
  | EmptyString => (EmptyString, false, EmptyString)
  | String a s' =>
      if Ascii.eqb a c then (EmptyString, true, s')
      else let '(h, found, t) := partition c s' in (String a h, found, t)
  end.

(** [s.rpartition(c)]: split at the last [c]; without [c] the whole string is
    the third component. *)
Definition rpartition (c : ascii) (s : string) : string * bool * string :=
  let '(h, found, t) := partition c (str_rev s) in
  if found then (str_rev t, true, str_rev h) else (EmptyString, false, s).

(** [s.split(c)] for a one-character separator. *)
Fixpoint split (c : ascii) (s : string) : list string :=
  match s with
  | EmptyString => [EmptyString]
  | String a s' =>
      if Ascii.eqb a c then EmptyString :: split c s'
      else match split c s' with
           | [] => [String a EmptyString]
           | h :: t => String a h :: t
           end
  end.

Fixpoint join (sep : string) (l : list string) : string :=
  match l with
  | [] => EmptyString
  | [x] => x
  | x :: rest => x ++ sep ++ join sep rest
  end.

(** [s.replace(old, new)] for a non-empty [old]: [skip] counts the characters
    of a match still to be dropped. *)
Fixpoint replace_from (old new : string) (skip : nat) (s : string) : string :=
  match s with
  | EmptyString => EmptyString
  | String a s' =>
      match skip with
      | S k => replace_from old new k s'
      | O =>
          if String.prefix old s
          then new ++ replace_from old new (String.length old - 1) s'
          else String a (replace_from old new O s')
      end
  end.

Definition replace (old new s : string) : string := replace_from old new O s.

Definition remove_chars (cs : list ascii) (s : string) : string :=
  of_chars (filter (fun a => negb (existsb (Ascii.eqb a) cs)) (chars s)).

Definition code (a : ascii) : N := N_of_ascii a.

(** The double quote. *)
Definition dquote : ascii := "034"%char.

Definition in_range (lo hi : N) (a : ascii) : bool :=
  (N.leb lo (code a) && N.leb (code a) hi)%bool.

Definition is_digit (a : ascii) : bool := in_range 48 57 a.
Definition is_upper (a : ascii) : bool := in_range 65 90 a.
Definition is_lower (a : ascii) : bool := in_range 97 122 a.
Definition is_alpha (a : ascii) : bool := (is_upper a || is_lower a)%bool.
Definition is_hex_digit (a : ascii) : bool :=
  (is_digit a || in_range 65 70 a || in_range 97 102 a)%bool.
Definition is_lower_hex_digit (a : ascii) : bool :=
  (is_digit a || in_range 97 102 a)%bool.

Definition lower_char (a : ascii) : ascii :=
  if is_upper a then ascii_of_N (code a + 32) else a.
Definition upper_char (a : ascii) : ascii :=
  if is_lower a then ascii_of_N (code a - 32) else a.

(** [s.lower()]; letters outside ASCII are left as they are. *)
Definition lower (s : string) : string := of_chars (map lower_char (chars s)).

Definition hex_digit (upper : bool) (n : N) : ascii :=
  if N.ltb n 10 then ascii_of_N (48 + n)
  else ascii_of_N ((if upper then 55 else 87) + n).

Definition hex_byte (upper : bool) (n : N) : string :=
  String (hex_digit upper (N.div n 16))
    (String (hex_digit upper (N.modulo n 16)) EmptyString).

(** The characters for which [str.isspace] holds, UTF-8 encoded: U+0009 to
    U+000D, U+001C to U+0020, U+0085, U+00A0, U+1680, U+2000 to U+200A,
    U+2028, U+2029, U+202F, U+205F and U+3000. *)
Definition whitespace : list (list ascii) :=
  map (map ascii_of_N)
    [ [9]; [10]; [11]; [12]; [13]; [28]; [29]; [30]; [31]; [32];
      [194; 133]; [194; 160]; [225; 154; 128];
      [226; 128; 128]; [226; 128; 129]; [226; 128; 130]; [226; 128; 131];
      [226; 128; 132]; [226; 128; 133]; [226; 128; 134]; [226; 128; 135];
      [226; 128; 136]; [226; 128; 137]; [226; 128; 138];
      [226; 128; 168]; [226; 128; 169]; [226; 128; 175];
      [226; 129; 159]; [227; 128; 128] ]%N.

Fixpoint list_prefix (p l : list ascii) : bool :=
  match p, l with
  | [], _ => true
  | _ :: _, [] => false
  | a :: p', b :: l' => (Ascii.eqb a b && list_prefix p' l')%bool
  end.

(** Drop one leading element of [table], if there is one. *)
Fixpoint drop_one (table : list (list ascii)) (l : list ascii)
  : option (list ascii) :=
  match table with
  | [] => None
  | w :: rest =>
      if list_prefix w l then Some (skipn (List.length w) l)
      else drop_one rest l
  end.

Fixpoint drop_leading (table : list (list ascii)) (fuel : nat)
  (l : list ascii) : list ascii :=
  match fuel with
  | O => l
  | S fuel' =>
      match drop_one table l with
      | Some l' => drop_leading table fuel' l'
      | None => l
      end
  end.

Definition lstrip_chars (l : list ascii) : list ascii :=
  drop_leading whitespace (List.length l) l.

Definition rstrip_chars (l : list ascii) : list ascii :=
  rev (drop_leading (map (@rev ascii) whitespace) (List.length l) (rev l)).

(** [s.strip()] *)
Definition strip (s : string) : string :=
  of_chars (rstrip_chars (lstrip_chars (chars s))).

(** [str(n)] for an [int]. *)
Definition str_of_Z (n : Z) : string := NilZero.string_of_int (Z.to_int n).
Definition str_of_nat (n : nat) : string := str_of_Z (Z.of_nat n).

(** ** Decoded JSON documents *)

(** The values [json.load] produces.  A [float] is carried by its [repr]
    (["1.5"], ["1e+16"], ["inf"], ["nan"]), which is all the verifier ever
    observes of it. *)
#[warnings="-register-all"]
Inductive json : Type :=
| JNull
| JBool (b : bool)
| JInt (n : Z)
| JFloat (repr : string)
| JStr (s : string)
| JArr (items : list json)
| JObj (fields : list (string * json)).

Definition dict : Type := list (string * json).

Fixpoint lookup (d : dict) (k : string) : option json :=
  match d with
  | [] => None
  | (k', v) :: rest => if String.eqb k' k then Some v else lookup rest k
  end.

(** [k in d] *)
Definition has_key (d : dict) (k : string) : bool :=
  match lookup d k with
  | Some _ => true
  | None => false
  end.

(** [d.get(k, default)] on a [dict]. *)
Definition dict_get (d : dict) (k : string) (default : json) : json :=
  match lookup d k with
  | Some v => v
  | None => default
  end.

(** [d.pop(k, None)], for its effect on [d]. *)
Definition dict_pop (d : dict) (k : string) : dict :=
  filter (fun kv => negb (String.eqb (fst kv) k)) d.

(** [d[k] = v]: an existing key keeps its place, a new one goes last. *)
Fixpoint dict_set (d : dict) (k : string) (v : json) : dict :=
  match d with
  | [] => [(k, v)]
  | (k', v') :: rest =>
      if String.eqb k' k then (k, v) :: rest else (k', v') :: dict_set rest k v
  end.

Definition type_name (v : json) : string :=
  match v with
  | JNull => "NoneType"
  | JBool _ => "bool"
  | JInt _ => "int"
  | JFloat _ => "float"
  | JStr _ => "str"
  | JArr _ => "list"
  | JObj _ => "dict"
  end.

(** [v.get(k, default)] on an arbitrary value: only a [dict] has [get]. *)
Definition py_get (v : json) (k : string) (default : json) : result json :=
  match v with
  | JObj d => Ok (dict_get d k default)
  | _ => Raise (AttributeError
                  ("'" ++ type_name v ++ "' object has no attribute 'get'"))
  end.

(** [bool(v)] *)
Definition truthy (v : json) : bool :=
  match v with
  | JNull => false
  | JBool b => b
  | JInt n => negb (Z.eqb n 0)
  | JFloat r => negb (String.eqb r "0.0" || String.eqb r "-0.0")
  | JStr s => negb (is_empty s)
  | JArr items => match items with [] => false | _ => true end
  | JObj fields => match fields with [] => false | _ => true end
  end.

(** [v if isinstance(v, dict) else {}] *)
Definition dict_or_empty (v : json) : dict :=
  match v with
  | JObj d => d
  | _ => []
  end.

(** [repr(s)] for a [str]: single quotes unless the text has a single and no
    double quote; the quote and the backslash escaped, tab, newline and
    carriage return by letter, the other control characters as [\xNN].  Text
    outside ASCII is assumed printable and kept. *)
Definition repr_char (quote : ascii) (a : ascii) : string :=
  if (Ascii.eqb a quote || Ascii.eqb a "\")%bool then String "\" (String a "")
  else if Ascii.eqb a "009" then "\t"
  else if Ascii.eqb a "010" then "\n"
  else if Ascii.eqb a "013" then "\r"
  else if (N.ltb (code a) 32 || N.eqb (code a) 127)%bool
       then "\x" ++ hex_byte false (code a)
  else String a "".

Definition repr_str (s : string) : string :=
  let quote :=
    if (has_char "'" s && negb (has_char dquote s))%bool then dquote
    else "'"%char in
  String quote (String.concat "" (map (fun a => repr_char quote a) (chars s)))
  ++ String quote "".

(** [repr(v)] *)
Fixpoint py_repr (v : json) : string :=
  match v with
  | JNull => "None"
  | JBool b => if b then "True" else "False"
  | JInt n => str_of_Z n
  | JFloat r => r
  | JStr s => repr_str s
  | JArr items =>
      "[" ++ join ", "
               ((fix each (l : list json) : list string :=
                   match l with
                   | [] => []
                   | x :: rest => py_repr x :: each rest
                   end) items) ++ "]"
  | JObj fields =>
      "{" ++ join ", "
               ((fix each (l : list (string * json)) : list string :=
                   match l with
                   | [] => []
                   | (k, x) :: rest =>
                       (repr_str k ++ ": " ++ py_repr x) :: each rest
                   end) fields) ++ "}"
  end.

(** [str(v)] *)
Definition py_str (v : json) : string :=
  match v with
  | JStr s => s
  | _ => py_repr v
  end.

(** [v == s] for a [str] [s]: only an equal [str] is equal to it. *)
Definition eq_str (v : json) (s : string) : bool :=
  match v with
  | JStr s' => String.eqb s' s
  | _ => false
  end.

(** [v == p] where [p] is [None] or a [str]. *)
Definition eq_opt_str (v : json) (p : option string) : bool :=
  match p with
  | None => match v with JNull => true | _ => false end
  | Some s => eq_str v s
  end.

(** ** Stable sorting by key, as [sorted(xs, key=f)] *)

Section StableSort.
Context {A K : Type}.
Variable ltb : K -> K -> bool.

(** [x] comes from the left of everything in [l]: it goes before the first
    element whose key is not smaller, hence before its equals. *)
Fixpoint insert_by (x : K * A) (l : list (K * A)) : list (K * A) :=
  match l with
  | [] => [x]
  | y :: rest =>
      if ltb (fst y) (fst x) then y :: insert_by x rest else x :: y :: rest
  end.

Definition sort_keyed (l : list (K * A)) : list (K * A) :=
  fold_right insert_by [] l.

(** The keys are computed first, left to right; the first exception of the
    key function is the exception of [sorted]. *)
Fixpoint decorate (key : A -> result K) (l : list A) : result (list (K * A)) :=
  match l with
  | [] => Ok []
  | x :: rest =>
      k <- key x ;;
      ks <- decorate key rest ;;
      Ok ((k, x) :: ks)
  end.

Definition sorted_by (key : A -> result K) (l : list A) : result (list A) :=
  ks <- decorate key l ;;
  Ok (map snd (sort_keyed ks)).

End StableSort.

(** Orders on keyed elements: strictly before, and not after. *)
Definition key_before {A K : Type} (ltb : K -> K -> bool) (x y : K * A)
  : Prop :=
  ltb (fst x) (fst y) = true.
Definition key_not_after {A K : Type} (ltb : K -> K -> bool) (x y : K * A)
  : Prop :=
  ltb (fst y) (fst x) = false.

(** Python's order on [(str, str)] tuples. *)
Definition pair_ltb (a b : string * string) : bool :=
  (str_ltb (fst a) (fst b)
   || (String.eqb (fst a) (fst b) && str_ltb (snd a) (snd b)))%bool.

(** ** CanonicalCodec: canonical JSON *)

(** The string escapes of [json.dumps(..., ensure_ascii=False)]. *)
Definition json_escape_char (a : ascii) : string :=
  if Ascii.eqb a dquote then String "\" (String dquote "")
  else if Ascii.eqb a "\" then "\\"
  else if Ascii.eqb a "010" then "\n"
  else if Ascii.eqb a "013" then "\r"
  else if Ascii.eqb a "009" then "\t"
  else if Ascii.eqb a "008" then "\b"
  else if Ascii.eqb a "012" then "\f"
  else if N.ltb (code a) 32 then "\u00" ++ hex_byte false (code a)
  else String a "".

Definition json_string (s : string) : string :=
  String dquote (String.concat "" (map json_escape_char (chars s)))
  ++ String dquote "".

Definition json_float (r : string) : string :=
  if String.eqb r "nan" then "NaN"
  else if String.eqb r "inf" then "Infinity"
  else if String.eqb r "-inf" then "-Infinity"
  else r.

Definition json_member (kv : string * string) : string :=
  json_string (fst kv) ++ ":" ++ snd kv.

(** [json.dumps(value, ensure_ascii=False, separators=(",", ":"),
    sort_keys=True).encode("utf-8")] *)
Fixpoint canonical_json_bytes (value : json) : string :=
  match value with
  | JNull => "null"
  | JBool b => if b then "true" else "false"
  | JInt n => str_of_Z n
  | JFloat r => json_float r
  | JStr s => json_string s
  | JArr items =>
      "[" ++ join ","
               ((fix each (l : list json) : list string :=
                   match l with
                   | [] => []
                   | x :: rest => canonical_json_bytes x :: each rest
                   end) items) ++ "]"
  | JObj fields =>
      "{" ++ join ","
               (map json_member
                  (sort_keyed str_ltb
                     ((fix each (l : list (string * json))
                         : list (string * string) :=
                         match l with
                         | [] => []
                         | (k, x) :: rest =>
                             (k, canonical_json_bytes x) :: each rest
                         end) fields))) ++ "}"
  end.

(** ** CanonicalCodec: SHA-256 (FIPS 180-4), on 32-bit words held in [Z] *)

Definition mask32 : Z := 0xffffffff%Z.
Definition add32 (x y : Z) : Z := Z.land (x + y) mask32.
Definition rotr (n x : Z) : Z :=
  Z.land (Z.lor (Z.shiftr x n) (Z.shiftl x (32 - n))) mask32.
Definition not32 (x : Z) : Z := Z.lxor x mask32.
Definition xor3 (x y z : Z) : Z := Z.lxor (Z.lxor x y) z.

Definition Ch (x y z : Z) : Z := Z.lxor (Z.land x y) (Z.land (not32 x) z).
Definition Maj (x y z : Z) : Z :=
  xor3 (Z.land x y) (Z.land x z) (Z.land y z).
Definition big_sigma0 (x : Z) : Z := xor3 (rotr 2 x) (rotr 13 x) (rotr 22 x).
Definition big_sigma1 (x : Z) : Z := xor3 (rotr 6 x) (rotr 11 x) (rotr 25 x).
Definition small_sigma0 (x : Z) : Z :=
  xor3 (rotr 7 x) (rotr 18 x) (Z.shiftr x 3).
Definition small_sigma1 (x : Z) : Z :=
  xor3 (rotr 17 x) (rotr 19 x) (Z.shiftr x 10).

(** The constants are defined as the standard defines them: the first 32
    bits of the fractional parts of the cube roots (for the round constants)
    and of the square roots (for the initial hash value) of the first
    primes. *)
Definition is_prime (n : nat) : bool :=
  forallb (fun d => negb (Nat.eqb (Nat.modulo n d) 0)) (seq 2 (n - 2)).

Definition first_primes (count : nat) : list Z :=
  map Z.of_nat (firstn count (filter is_prime (seq 2 400))).

Fixpoint cube_root_bits (bits : nat) (r n : Z) : Z :=
  match bits with
  | O => r
  | S b =>
      let c := (r + 2 ^ Z.of_nat b)%Z in
      cube_root_bits b (if Z.leb (c * c * c) n then c else r) n
  end.

Definition cube_root_fraction (p : Z) : Z :=
  Z.land (cube_root_bits 40 0%Z (p * 2 ^ 96)%Z) mask32.

Definition square_root_fraction (p : Z) : Z :=
  Z.land (Z.sqrt (p * 2 ^ 64)%Z) mask32.

Definition sha256_K : list Z :=
  Eval vm_compute in map cube_root_fraction (first_primes 64).

Definition sha256_H0 : list Z :=
  Eval vm_compute in map square_root_fraction (first_primes 8).

(** The message, then the byte 0x80, zeros up to 56 modulo 64, and the bit
    length as 8 big-endian bytes. *)
Definition sha256_pad (msg : list Z) : list Z :=
  let len := Z.of_nat (List.length msg) in
  let zeros := Z.to_nat ((55 - len) mod 64) in
  (msg ++ 128%Z :: repeat 0%Z zeros
     ++ map (fun i => Z.land (Z.shiftr (8 * len) (8 * (7 - Z.of_nat i))) 255)
          (seq 0 8))%list.

Fixpoint be_words (bytes : list Z) : list Z :=
  match bytes with
  | a :: b :: c :: d :: rest =>
      (Z.shiftl a 24 + Z.shiftl b 16 + Z.shiftl c 8 + d)%Z :: be_words rest
  | _ => []
  end.

(** [w] holds the schedule so far, latest word first. *)
Fixpoint sha256_schedule (n : nat) (w : list Z) : list Z :=
  match n with
  | O => w
  | S n' =>
      let x := add32 (add32 (small_sigma1 (nth 1 w 0%Z)) (nth 6 w 0%Z))
                 (add32 (small_sigma0 (nth 14 w 0%Z)) (nth 15 w 0%Z)) in
      sha256_schedule n' (x :: w)
  end.

Record sha256_regs : Type := mk_regs
  { ra : Z; rb : Z; rc : Z; rd : Z; re : Z; rf : Z; rg : Z; rh : Z }.

Definition sha256_round (r : sha256_regs) (kw : Z * Z) : sha256_regs :=
  let t1 := add32 (add32 (add32 (rh r) (big_sigma1 (re r)))
                     (add32 (Ch (re r) (rf r) (rg r)) (fst kw))) (snd kw) in
  let t2 := add32 (big_sigma0 (ra r)) (Maj (ra r) (rb r) (rc r)) in
  mk_regs (add32 t1 t2) (ra r) (rb r) (rc r) (add32 (rd r) t1)
    (re r) (rf r) (rg r).

Definition regs_of (h : list Z) : sha256_regs :=
  mk_regs (nth 0 h 0%Z) (nth 1 h 0%Z) (nth 2 h 0%Z) (nth 3 h 0%Z)
    (nth 4 h 0%Z) (nth 5 h 0%Z) (nth 6 h 0%Z) (nth 7 h 0%Z).

Definition regs_list (r : sha256_regs) : list Z :=
  [ra r; rb r; rc r; rd r; re r; rf r; rg r; rh r].

Definition sha256_block (h : list Z) (block : list Z) : list Z :=
  let w := rev (sha256_schedule 48 (rev block)) in
  let r := fold_left sha256_round (combine sha256_K w) (regs_of h) in
  map (fun p => add32 (fst p) (snd p)) (combine h (regs_list r)).

Fixpoint sha256_blocks (n : nat) (h : list Z) (words : list Z) : list Z :=
  match n with
  | O => h
  | S n' => sha256_blocks n' (sha256_block h (firstn 16 words)) (skipn 16 words)
  end.

Definition sha256 (msg : list Z) : list Z :=
  let words := be_words (sha256_pad msg) in
  sha256_blocks (Nat.div (List.length words) 16) sha256_H0 words.

Definition hex_word (w : Z) : string :=
  String.concat ""
    (map (fun i => hex_byte false
                     (Z.to_N (Z.land (Z.shiftr w (8 * (3 - Z.of_nat i))) 255)))
       (seq 0 4)).

(** [hashlib.sha256(raw).hexdigest()] *)
Definition sha256_hex (raw : string) : string :=
  String.concat ""
    (map hex_word (sha256 (map (fun a => Z.of_N (code a)) (chars raw)))).

(** ** CanonicalCodec: URL canonicalization *)

(** [re.sub(r"%[0-9a-fA-F]{2}", lambda m: m.group(0).upper(), path)] *)
Fixpoint normalize_percent_hex (path : string) : string :=
  match path with
  | EmptyString => EmptyString
  | String a rest =>
      match rest with
      | String h1 (String h2 rest') =>
          if (Ascii.eqb a "%" && is_hex_digit h1 && is_hex_digit h2)%bool
          then String a (String (upper_char h1)
                           (String (upper_char h2) (normalize_percent_hex rest')))
          else String a (normalize_percent_hex rest)
      | _ => String a (normalize_percent_hex rest)
      end
  end.

(** The five components of [urllib.parse.SplitResult]. *)
Record SplitResult : Type := mk_split
  { scheme : string; netloc : string; path : string;
    query : string; fragment : string }.

Definition scheme_char (a : ascii) : bool :=
  (is_alpha a || is_digit a
   || Ascii.eqb a "+" || Ascii.eqb a "-" || Ascii.eqb a ".")%bool.

Fixpoint drop_c0_or_space (l : list ascii) : list ascii :=
  match l with
  | a :: rest => if N.leb (code a) 32 then drop_c0_or_space rest else l
  | [] => []
  end.

(** The end of the network location: the first of [/], [?] and [#]. *)
Fixpoint splitnetloc (s : string) : string * string :=
  match s with
  | EmptyString => (EmptyString, EmptyString)
  | String a s' =>
      if (Ascii.eqb a "/" || Ascii.eqb a "?" || Ascii.eqb a "#")%bool
      then (EmptyString, s)
      else let '(n, rest) := splitnetloc s' in (String a n, rest)
  end.

(** [urllib.parse.urlsplit(url)] on a [str], as in CPython 3.11: leading C0
    controls and spaces are stripped, tabs and line breaks removed, the
    scheme is lowercased.  The checks CPython makes on a network location
    outside ASCII (NFKC) and on the address inside brackets are left out. *)
Definition urlsplit (url : string) : result SplitResult :=
  let url := of_chars (drop_c0_or_space (chars url)) in
  let url := remove_chars ["009"; "013"; "010"]%char url in
  let '(head, found, tail) := partition ":" url in
  let '(scheme, url) :=
    if (found
        && match head with
           | EmptyString => false
           | String a _ => is_alpha a
           end
        && forallb scheme_char (chars head))%bool
    then (lower head, tail)
    else (EmptyString, url) in
  let '(netloc, url) :=
    if String.prefix "//" url
    then splitnetloc (String.substring 2 (String.length url - 2) url)
    else (EmptyString, url) in
  if (xorb (has_char "[" netloc) (has_char "]" netloc))
  then Raise (ValueError "Invalid IPv6 URL")
  else
    let '(url, _, fragment) := partition "#" url in
    let '(url, _, query) := partition "?" url in
    Ok (mk_split scheme netloc url query fragment).

(** [_userinfo]: the user name and the password, each [None] when absent. *)
Definition userinfo_of (p : SplitResult) : option string * option string :=
  let '(userinfo, have_info, _) := rpartition "@" (netloc p) in
  if have_info
  then let '(username, have_password, password) := partition ":" userinfo in
       (Some username, if have_password then Some password else None)
  else (None, None).

(** [_hostinfo]: the host text and the port text. *)
Definition hostinfo_of (p : SplitResult) : string * option string :=
  let '(_, _, hostinfo) := rpartition "@" (netloc p) in
  let '(_, have_open_br, bracketed) := partition "[" hostinfo in
  let '(hostname, port) :=
    if have_open_br
    then let '(hostname, _, port) := partition "]" bracketed in
         let '(_, _, port) := partition ":" port in
         (hostname, port)
    else let '(hostname, _, port) := partition ":" hostinfo in
         (hostname, port) in
  (hostname, if is_empty port then None else Some port).

(** [parsed.hostname] *)
Definition hostname_of (p : SplitResult) : option string :=
  let hostname := fst (hostinfo_of p) in
  if is_empty hostname then None
  else let '(hostname, percent, zone) := partition "%" hostname in
       Some (lower hostname ++ (if percent then "%" else "") ++ zone).

Definition int_of_digits (s : string) : Z :=
  fold_left (fun acc a => (10 * acc + Z.of_N (code a - 48))%Z) (chars s) 0%Z.

(** [parsed.port] *)
Definition port_of (p : SplitResult) : result (option Z) :=
  match snd (hostinfo_of p) with
  | None => Ok None
  | Some port =>
      if forallb is_digit (chars port)
      then let n := int_of_digits port in
           if (Z.leb 0 n && Z.leb n 65535)%bool then Ok (Some n)
           else Raise (ValueError "Port out of range 0-65535")
      else Raise (ValueError
                    ("Port could not be cast to integer value as "
                     ++ repr_str port))
  end.

(** [posixpath.normpath]'s loop; [new_comps] is kept last component first. *)
Fixpoint normpath_comps (initial_slashes : nat) (comps new_comps : list string)
  : list string :=
  match comps with
  | [] => rev new_comps
  | comp :: rest =>
      if (String.eqb comp "" || String.eqb comp ".")%bool
      then normpath_comps initial_slashes rest new_comps
      else if (negb (String.eqb comp "..")
               || (Nat.eqb initial_slashes 0
                   && match new_comps with [] => true | _ => false end)
               || match new_comps with
                  | last :: _ => String.eqb last ".."
                  | [] => false
                  end)%bool
      then normpath_comps initial_slashes rest (comp :: new_comps)
      else normpath_comps initial_slashes rest (tl new_comps)
  end.

(** [posixpath.normpath(path)] *)
Definition normpath (path : string) : string :=
  if is_empty path then "."
  else
    let initial_slashes :=
      if String.prefix "/" path
      then if (String.prefix "//" path && negb (String.prefix "///" path))%bool
           then 2%nat else 1%nat
      else 0%nat in
    let body := join "/" (normpath_comps initial_slashes (split "/" path) []) in
    let path := of_chars (repeat "/"%char initial_slashes) ++ body in
    if is_empty path then "." else path.

Definition uses_netloc : list string :=
  [""; "ftp"; "http"; "gopher"; "nntp"; "telnet"; "imap"; "wais"; "file";
   "mms"; "https"; "shttp"; "snews"; "prospero"; "rtsp"; "rtspu"; "rsync";
   "svn"; "svn+ssh"; "sftp"; "nfs"; "git"; "git+ssh"; "ws"; "wss"].

(** [urllib.parse.urlunsplit((scheme, netloc, url, query, fragment))] *)
Definition urlunsplit (p : SplitResult) : string :=
  let url := path p in
  let url :=
    if (negb (is_empty (netloc p))
        || (negb (is_empty (scheme p))
            && existsb (String.eqb (scheme p)) uses_netloc
            && negb (String.prefix "//" url)))%bool
    then "//" ++ netloc p
         ++ (if (negb (is_empty url) && negb (String.prefix "/" url))%bool
             then "/" ++ url else url)
    else url in
  let url := if is_empty (scheme p) then url else scheme p ++ ":" ++ url in
  let url := if is_empty (query p) then url else url ++ "?" ++ query p in
  if is_empty (fragment p) then url else url ++ "#" ++ fragment p.

Definition canonicalize_artifact_url (url : string) : result string :=
  parsed <- urlsplit url ;;
  if (is_empty (scheme parsed) || is_empty (netloc parsed))%bool
  then Raise (ValueError "URL must include scheme and host")
  else
    let scheme := lower (scheme parsed) in
    let host := lower (match hostname_of parsed with
                       | Some h => h
                       | None => ""
                       end) in
    if is_empty host then Raise (ValueError "URL host is missing")
    else
      let userinfo :=
        match userinfo_of parsed with
        | (Some username, Some password) => username ++ ":" ++ password ++ "@"
        | (Some username, None) => username ++ "@"
        | (None, _) => ""
        end in
      port <- port_of parsed ;;
      let include_port :=
        match port with
        | Some n =>
            negb ((String.eqb scheme "http" && Z.eqb n 80)
                  || (String.eqb scheme "https" && Z.eqb n 443))
        | None => false
        end in
      let netloc :=
        userinfo ++ host
        ++ (if include_port
            then ":" ++ str_of_Z (match port with Some n => n | None => 0%Z end)
            else "") in
      let original_path := if is_empty (path parsed) then "/" else path parsed in
      let trailing_slash := endswith original_path "/" in
      let norm_path := normpath original_path in
      let norm_path :=
        if startswith norm_path "/" then norm_path else "/" ++ norm_path in
      let norm_path :=
        if (trailing_slash && negb (endswith norm_path "/"))%bool
        then norm_path ++ "/" else norm_path in
      let path := normalize_percent_hex norm_path in
      let query := normalize_percent_hex (query parsed) in
      Ok (urlunsplit (mk_split scheme netloc path query "")).

(** ** Timestamps *)

(** What [datetime.fromisoformat] returns: the wall-clock reading in
    microseconds since 0001-01-01T00:00:00 and the UTC offset in
    microseconds, [None] for a naive value. *)
Record iso_datetime : Type := mk_iso
  { wall_clock : Z; utcoffset : option Z }.

(** [datetime.fromisoformat]; [None] stands for its [ValueError]. *)
Class IsoParser : Type :=
  { fromisoformat : string -> option iso_datetime }.

(** [datetime.max], 9999-12-31T23:59:59.999999, on the same scale. *)
Definition datetime_max : Z := (3652059 * 86400 * 1000000 - 1)%Z.

(** An aware UTC [datetime] is its microsecond count.  [astimezone] leaves
    the representable range with an [OverflowError]. *)
Definition parse_utc_or_die `{IsoParser} (text : string) : result Z :=
  let text := if endswith text "Z" then drop_last text ++ "+00:00" else text in
  match fromisoformat text with
  | None => Raise (ValueError ("invalid RFC3339 timestamp: " ++ text))
  | Some dt =>
      match utcoffset dt with
      | None => Raise (ValueError "timestamp must include timezone")
      | Some offset =>
          let utc := (wall_clock dt - offset)%Z in
          if (Z.leb 0 utc && Z.leb utc datetime_max)%bool then Ok utc
          else Raise (OverflowError "date value out of range")
      end
  end.

(** ** ChainVerifier *)

Definition VERDICT_VERIFIED : string := "VERIFIED".
Definition VERDICT_UNDECLARED : string := "UNDECLARED".
Definition VERDICT_UNVERIFIABLE : string := "UNVERIFIABLE".
Definition VERDICT_INVALID_INPUT : string := "INVALID_INPUT".
Definition VERDICT_INVALID_CHAIN : string := "INVALID_CHAIN".
Definition VERDICT_POLICY_VIOLATION : string := "POLICY_VIOLATION".

Definition ATTESTATION_EVENTS : list string :=
  ["ATTESTATION_ISSUED"; "ATTESTATION_SUPERSEDED"].

Record VerificationResult : Type := mk_result
  { verdict : string;
    errors : list string;
    checked_events : nat;
    active_event_id : option string }.

(** [VerificationResult(verdict, errors)] and
    [VerificationResult(verdict, errors, checked_events)] *)
Definition result2 (v : string) (errs : list string) : VerificationResult :=
  mk_result v errs 0 None.
Definition result3 (v : string) (errs : list string) (n : nat)
  : VerificationResult :=
  mk_result v errs n None.

Definition compute_event_hash (event : dict) : string :=
  let evt := dict_pop event "event_hash" in
  sha256_hex (canonical_json_bytes (JObj evt)).

Definition event_key (evt : json) : result (string * string) :=
  recorded_at <- py_get evt "recorded_at" (JStr "") ;;
  event_id <- py_get evt "event_id" (JStr "") ;;
  Ok (py_str recorded_at, py_str event_id).

(** [sorted(events, key=event_key)] *)
Definition canonical_order (events : list json) : result (list json) :=
  sorted_by pair_ltb event_key events.

Record policy_flags : Type := mk_flags
  { signature_required : bool;
    timestamp_required : bool;
    transparency_required : bool }.

Definition policy_of (policy : dict) : policy_flags :=
  mk_flags (truthy (dict_get policy "signature_required" JNull))
    (truthy (dict_get policy "timestamp_required" JNull))
    (truthy (dict_get policy "transparency_anchoring_required" JNull)).

(** The variables the loop of [verify_chain] carries from event to event. *)
Record walk_state : Type := mk_state
  { prev_hash : option string;
    active : option string;
    diagnostics : list string }.

Definition initial_state : walk_state := mk_state None None [].

(** One turn of the loop: go on, return a result, or let an exception out. *)
Inductive flow : Type :=
| Next (st : walk_state)
| Return (r : VerificationResult)
| Throw (e : exn).

(** [prev_event_hash in (None, "", "null")] *)
Definition null_hash (v : json) : bool :=
  match v with
  | JNull => true
  | JStr s => (String.eqb s "" || String.eqb s "null")%bool
  | _ => false
  end.

(** Lines 170-183: the genesis rule and the hash linkage. *)
Definition check_link (index : nat) (prev : option string)
  (event_id : string) (prev_event_hash : json) : option VerificationResult :=
  if Nat.eqb index 0
  then if negb (null_hash prev_event_hash)
       then Some (result3 VERDICT_INVALID_CHAIN
                    ["genesis event " ++ event_id
                     ++ " has non-null prev_event_hash"] (index + 1))
       else None
  else if negb (eq_opt_str prev_event_hash prev)
       then Some (result3 VERDICT_INVALID_CHAIN
                    ["prev_event_hash mismatch at " ++ event_id] (index + 1))
       else None.

Definition full_payload (evt : dict) : bool :=
  (has_key evt "issuer" && has_key evt "canonicalization"
   && has_key evt "artifact")%bool.

Definition attestation_type (evt : dict) : bool :=
  existsb (String.eqb (py_str (dict_get evt "event_type" (JStr ""))))
    ATTESTATION_EVENTS.

(** [sub.get(field)] where [sub] is [evt.get(name)] if that is a dict and
    [{}] otherwise. *)
Definition evidence (evt : dict) (name field : string) : json :=
  dict_get (dict_or_empty (dict_get evt name JNull)) field JNull.

(** Lines 185-221: hash recomputation and policy binding.  Either a result
    to return, or the diagnostics accumulated so far. *)
Definition check_payload (flags : policy_flags) (index : nat) (evt : dict)
  (event_id event_hash : string) (errs : list string)
  : VerificationResult + list string :=
  if full_payload evt
  then
    let recomputed := compute_event_hash evt in
    if negb (String.eqb recomputed event_hash)
    then inl (result3 VERDICT_INVALID_CHAIN
                ["event_hash mismatch at " ++ event_id] (index + 1))
    else if attestation_type evt
    then
      if (signature_required flags
          && negb (truthy (evidence evt "signature" "value")))%bool
      then inl (result3 VERDICT_POLICY_VIOLATION
                  ["signature missing for required event " ++ event_id]
                  (index + 1))
      else if (timestamp_required flags
               && negb (truthy (evidence evt "timestamp" "value")))%bool
      then inl (result3 VERDICT_POLICY_VIOLATION
                  ["timestamp missing for required event " ++ event_id]
                  (index + 1))
      else if (transparency_required flags
               && negb (truthy (evidence evt "transparency" "entry_id")))%bool
      then inl (result3 VERDICT_POLICY_VIOLATION
                  ["transparency proof missing for required event "
                   ++ event_id] (index + 1))
      else if (signature_required flags
               && truthy (evidence evt "signature" "value"))%bool
      then inr (app errs
                  ["cryptographic signature verification not implemented for "
                   ++ event_id])
      else inr errs
    else inr errs
  else inr errs.

(** Lines 223-230: the active-event pointer.  A [ValueError] of the parser
    becomes [INVALID_INPUT]; any other exception is not caught. *)
Definition resolve_active `{IsoParser} (evaluated_at : Z) (index : nat)
  (evt : dict) (event_id : string) (current : option string)
  : flow + option string :=
  if (truthy (dict_get evt "effective_at" JNull)
      && truthy (dict_get evt "recorded_at" JNull))%bool
  then
    match parse_utc_or_die (py_str (dict_get evt "effective_at" JNull)) with
    | Raise (ValueError msg) =>
        inl (Return (result3 VERDICT_INVALID_INPUT [msg] (index + 1)))
    | Raise e => inl (Throw e)
    | Ok effective =>
        if Z.leb effective evaluated_at
        then
          match parse_utc_or_die (py_str (dict_get evt "recorded_at" JNull)) with
          | Raise (ValueError msg) =>
              inl (Return (result3 VERDICT_INVALID_INPUT [msg] (index + 1)))
          | Raise e => inl (Throw e)
          | Ok recorded =>
              if Z.leb recorded evaluated_at then inr (Some event_id)
              else inr current
          end
        else inr current
    end
  else inr current.

(** [str(evt.get("event_id", "")).strip()] and the same for the hash. *)
Definition event_id_of (evt : dict) : string :=
  strip (py_str (dict_get evt "event_id" (JStr ""))).
Definition event_hash_of (evt : dict) : string :=
  strip (py_str (dict_get evt "event_hash" (JStr ""))).

(** The body of the loop, lines 161-232. *)
Definition check_event `{IsoParser} (flags : policy_flags) (evaluated_at : Z)
  (index : nat) (st : walk_state) (evt : json) : flow :=
  match evt with
  | JObj e =>
      let event_id := event_id_of e in
      let event_hash := event_hash_of e in
      let prev_event_hash := dict_get e "prev_event_hash" JNull in
      if (is_empty event_id || is_empty event_hash)%bool
      then Return (result3 VERDICT_INVALID_CHAIN
                     ["event_id or event_hash missing"] index)
      else
        match check_link index (prev_hash st) event_id prev_event_hash with
        | Some r => Return r
        | None =>
            match check_payload flags index e event_id event_hash
                    (diagnostics st) with
            | inl r => Return r
            | inr errs =>
                match resolve_active evaluated_at index e event_id
                        (active st) with
                | inl stop => stop
                | inr active_event_id =>
                    Next (mk_state (Some event_hash) active_event_id errs)
                end
            end
        end
  | _ => Return (result3 VERDICT_INVALID_CHAIN ["event is not an object"] index)
  end.

(** [for index, evt in enumerate(ordered)], entered at [index]. *)
Fixpoint walk `{IsoParser} (flags : policy_flags) (evaluated_at : Z)
  (index : nat) (st : walk_state) (ordered : list json) : flow :=
  match ordered with
  | [] => Next st
  | evt :: rest =>
      match check_event flags evaluated_at index st evt with
      | Next st' => walk flags evaluated_at (S index) st' rest
      | stop => stop
      end
  end.

(** Lines 234-236 after a completed loop; otherwise what the loop did. *)
Definition conclude (count : nat) (f : flow) : result VerificationResult :=
  match f with
  | Throw e => Raise e
  | Return r => Ok r
  | Next st =>
      match diagnostics st with
      | _ :: _ =>
          Ok (mk_result VERDICT_UNVERIFIABLE (diagnostics st) count (active st))
      | [] => Ok (mk_result VERDICT_VERIFIED [] count (active st))
      end
  end.

Definition verify_chain `{IsoParser} (domain_doc chain_doc : json)
  (evaluated_at : Z) : result VerificationResult :=
  events <- py_get chain_doc "events" JNull ;;
  match events with
  | JArr ((_ :: _) as items) =>
      ordered <- canonical_order items ;;
      policy <- py_get domain_doc "policy" JNull ;;
      let flags := policy_of (dict_or_empty policy) in
      conclude (List.length ordered)
        (walk flags evaluated_at 0 initial_state ordered)
  | _ => Ok (result2 VERDICT_INVALID_CHAIN ["events array missing or empty"])
  end.

(** ** DiscoveryClient *)

(** What a call of [fetch_json] does: return the decoded body, raise
    [urllib.error.HTTPError] with a status code and reason, or raise another
    [Exception] (transport, timeout, decoding) whose text is [msg]. *)
Inductive fetched : Type :=
| Body (doc : json)
| HTTPError (code : Z) (reason : string)
| OtherError (msg : string).

(** The network as seen through [fetch_json(url, timeout)]. *)
Class Network : Type :=
  { fetch_json : string -> Z -> fetched }.

(** [str(exc)] for the exception of a failed fetch. *)
Definition fetch_error_text (code : Z) (reason : string) : string :=
  "HTTP Error " ++ str_of_Z code ++ ": " ++ reason.

Definition always_safe (a : ascii) : bool :=
  (is_alpha a || is_digit a || Ascii.eqb a "_" || Ascii.eqb a "."
   || Ascii.eqb a "-" || Ascii.eqb a "~")%bool.

(** [urllib.parse.quote(s, safe="")] *)
Definition quote (s : string) : string :=
  String.concat ""
    (map (fun a => if always_safe a then String a ""
                   else "%" ++ hex_byte true (code a)) (chars s)).

(** [re.fullmatch(r"[0-9a-f]{64}", s)] *)
Definition is_sha256_hex (s : string) : bool :=
  (Nat.eqb (String.length s) 64 && forallb is_lower_hex_digit (chars s))%bool.

(** Lines 254-266: the event-chain path of a 1.1 policy document. *)
Definition verify_events_path `{IsoParser} `{Network} (domain_doc : json)
  (evidence_api : dict) (canonical_url : string) (timeout evaluated_at : Z)
  : result VerificationResult :=
  match dict_get evidence_api "events_by_artifact" JNull with
  | JStr template =>
      if negb (contains template "{artifact_url}")
      then Ok (result2 VERDICT_UNVERIFIABLE
                 ["events_by_artifact URL template missing"])
      else
        let events_url :=
          replace "{artifact_url}" (quote canonical_url) template in
        match fetch_json events_url timeout with
        | HTTPError code reason =>
            Ok (result2 VERDICT_UNVERIFIABLE
                  ["events fetch failed: " ++ fetch_error_text code reason])
        | OtherError msg =>
            Ok (result2 VERDICT_UNVERIFIABLE ["events fetch failed: " ++ msg])
        | Body chain_doc =>
            let chain_doc :=
              match chain_doc with
              | JArr _ => JObj [("events", chain_doc)]
              | _ => chain_doc
              end in
            verify_chain domain_doc chain_doc evaluated_at
        end
  | _ => Ok (result2 VERDICT_UNVERIFIABLE
               ["events_by_artifact URL template missing"])
  end.

(** The suffix of the manifest URL, lines 269-272. *)
Definition manifest_suffix (domain_doc : dict) : string :=
  match dict_get domain_doc "artifact_discovery" JNull with
  | JObj artifact_discovery =>
      match dict_get artifact_discovery "suffix" JNull with
      | JStr s => s
      | _ => ".provenance.json"
      end
  | _ => ".provenance.json"
  end.

(** Lines 273-296: the projection manifest of a 1.0 policy document. *)
Definition verify_manifest_path `{Network} (domain_doc : dict)
  (canonical_url : string) (timeout : Z) : result VerificationResult :=
  let manifest_url := canonical_url ++ manifest_suffix domain_doc in
  match fetch_json manifest_url timeout with
  | HTTPError code reason =>
      Ok (result2 VERDICT_UNVERIFIABLE
            ["manifest fetch failed: " ++ fetch_error_text code reason])
  | OtherError msg =>
      Ok (result2 VERDICT_UNVERIFIABLE ["manifest fetch failed: " ++ msg])
  | Body manifest =>
      artifact_url <- py_get manifest "artifact_url" (JStr "") ;;
      manifest_canonical <- canonicalize_artifact_url (py_str artifact_url) ;;
      if negb (String.eqb manifest_canonical canonical_url)
      then Ok (result2 VERDICT_INVALID_INPUT ["manifest artifact_url mismatch"])
      else
        content_sha256 <- py_get manifest "content_sha256" (JStr "") ;;
        let content_hash := strip (py_str content_sha256) in
        if negb (is_sha256_hex content_hash)
        then Ok (result2 VERDICT_INVALID_INPUT
                   ["manifest content_sha256 is not valid hex sha256"])
        else
          let policy := dict_or_empty (dict_get domain_doc "policy" JNull) in
          let signature_required :=
            truthy (dict_get policy "signature_required" JNull) in
          signature <- py_get manifest "signature" JNull ;;
          let signature := dict_or_empty signature in
          if (signature_required
              && negb (truthy (dict_get signature "value" JNull)))%bool
          then Ok (result2 VERDICT_POLICY_VIOLATION
                     ["signature required but missing"])
          else if signature_required
          then Ok (result2 VERDICT_UNVERIFIABLE
                     ["cryptographic signature verification is not "
                      ++ "implemented for v1.0 projection manifests"])
          else Ok (result2 VERDICT_VERIFIED [])
  end.

Definition verify_remote_artifact `{IsoParser} `{Network} (url : string)
  (timeout evaluated_at : Z) : result VerificationResult :=
  canonical_url <- canonicalize_artifact_url url ;;
  parsed <- urlsplit canonical_url ;;
  let domain := netloc parsed in
  let well_known_url := "https://" ++ domain ++ "/.well-known/provenance" in
  match fetch_json well_known_url timeout with
  | HTTPError code _ =>
      if Z.eqb code 404
      then Ok (result2 VERDICT_UNDECLARED ["missing " ++ well_known_url])
      else Ok (result2 VERDICT_UNVERIFIABLE
                 ["domain policy fetch failed: HTTP " ++ str_of_Z code])
  | OtherError msg =>
      Ok (result2 VERDICT_UNVERIFIABLE ["domain policy fetch failed: " ++ msg])
  | Body domain_doc =>
      version <- py_get domain_doc "spec_version" (JStr "1.0") ;;
      let spec_version := py_str version in
      match domain_doc with
      | JObj doc =>
          match dict_get doc "evidence_api" JNull with
          | JObj evidence_api =>
              if startswith spec_version "1.1"
              then verify_events_path domain_doc evidence_api canonical_url
                     timeout evaluated_at
              else verify_manifest_path doc canonical_url timeout
          | _ => verify_manifest_path doc canonical_url timeout
          end
      | _ => Raise (AttributeError
                      ("'" ++ type_name domain_doc
                       ++ "' object has no attribute 'get'"))
      end
  end.

(** ** Vocabulary of the specification *)

(** The verdict a caller receives; [None] when an exception reaches it. *)
Definition verdict_of (r : result VerificationResult) : option string :=
  match r with
  | Ok v => Some (verdict v)
  | Raise _ => None
  end.

(** Two calls end the same way: the same result, or an exception each. *)
Definition same_outcome (a b : result VerificationResult) : Prop :=
  match a, b with
  | Ok x, Ok y => x = y
  | Raise _, Raise _ => True
  | _, _ => False
  end.

(** The sort keys of an events array are pairwise distinct. *)
Definition distinct_keys (events : list json) : Prop :=
  forall ks, decorate event_key events = Ok ks -> NoDup (map fst ks).

(** The event is not an object, or has no [event_id] or no [event_hash]. *)
Definition lacks_identity (evt : json) : bool :=
  match evt with
  | JObj e => (is_empty (event_id_of e) || is_empty (event_hash_of e))%bool
  | _ => true
  end.

(** The field is a timestamp not later than [evaluated_at]. *)
Definition not_after `{IsoParser} (evaluated_at : Z) (v : json) : bool :=
  match parse_utc_or_die (py_str v) with
  | Ok utc => Z.leb utc evaluated_at
  | Raise _ => false
  end.

(** [effective_at] and [recorded_at] are both present and both not later
    than [evaluated_at]. *)
Definition qualifies `{IsoParser} (evaluated_at : Z) (evt : json) : bool :=
  match evt with
  | JObj e =>
      (truthy (dict_get e "effective_at" JNull)
       && truthy (dict_get e "recorded_at" JNull)
       && not_after evaluated_at (dict_get e "effective_at" JNull)
       && not_after evaluated_at (dict_get e "recorded_at" JNull))%bool
  | _ => false
  end.

(** The identifier of the last qualifying event of [ordered]. *)
Definition last_active `{IsoParser} (evaluated_at : Z) (ordered : list json)
  : option string :=
  match find (qualifies evaluated_at) (rev ordered) with
  | Some (JObj e) => Some (event_id_of e)
  | _ => None
  end.

(** The condition of line 254. *)
Definition uses_event_chain (domain_doc : dict) : bool :=
  (startswith (py_str (dict_get domain_doc "spec_version" (JStr "1.0"))) "1.1"
   && match dict_get domain_doc "evidence_api" JNull with
      | JObj _ => true
      | _ => false
      end)%bool.

(** Lines 155-158 for a policy document that is an object. *)
Definition flags_of (domain_doc : dict) : policy_flags :=
  policy_of (dict_or_empty (dict_get domain_doc "policy" JNull)).

(** The event has an [event_id] and an [event_hash]. *)
Definition identified (evt : dict) : bool :=
  negb (is_empty (event_id_of evt) || is_empty (event_hash_of evt)).

(** The event passes the genesis rule or the linkage rule at [index]. *)
Definition linked (index : nat) (st : walk_state) (evt : dict) : bool :=
  match check_link index (prev_hash st) (event_id_of evt)
          (dict_get evt "prev_event_hash" JNull) with
  | None => true
  | Some _ => false
  end.

(** The declared hash is the recomputed one. *)
Definition hash_consistent (evt : dict) : bool :=
  String.eqb (compute_event_hash evt) (event_hash_of evt).

(** The event passes hash recomputation and policy binding. *)
Definition payload_accepted (flags : policy_flags) (index : nat)
  (st : walk_state) (evt : dict) : bool :=
  match check_payload flags index evt (event_id_of evt) (event_hash_of evt)
          (diagnostics st) with
  | inr _ => true
  | inl _ => false
  end.

(** ** A timestamp parser and fixtures for the concrete cases *)

Definition number (s : string) : option Z :=
  if (negb (is_empty s) && forallb is_digit (chars s))%bool
  then Some (int_of_digits s) else None.

Definition is_leap (y : Z) : bool :=
  (Z.eqb (y mod 4) 0 && (negb (Z.eqb (y mod 100) 0) || Z.eqb (y mod 400) 0))%bool.

Definition days_in_month (y m : Z) : Z :=
  if Z.eqb m 2 then (if is_leap y then 29 else 28)%Z
  else if (Z.eqb m 4 || Z.eqb m 6 || Z.eqb m 9 || Z.eqb m 11)%bool then 30%Z
  else 31%Z.

Definition days_before_year (y : Z) : Z :=
  let p := (y - 1)%Z in (p * 365 + p / 4 - p / 100 + p / 400)%Z.

Definition days_before_month (y m : Z) : Z :=
  (nth (Z.to_nat (m - 1))
     [0; 31; 59; 90; 120; 151; 181; 212; 243; 273; 304; 334] 0
   + (if (Z.ltb 2 m && is_leap y)%bool then 1 else 0))%Z.

Definition char_at (n : nat) (s : string) (c : ascii) : bool :=
  match String.get n s with
  | Some a => Ascii.eqb a c
  | None => false
  end.

(** The timestamps of the form [YYYY-MM-DDTHH:MM:SS+HH:MM] (or [-HH:MM]),
    the part of RFC 3339 that every version of [datetime.fromisoformat]
    reads, and reads alike. *)
Definition rfc3339_strict (s : string) : option iso_datetime :=
  if (Nat.eqb (String.length s) 25
      && char_at 4 s "-" && char_at 7 s "-" && char_at 10 s "T"
      && char_at 13 s ":" && char_at 16 s ":" && char_at 22 s ":"
      && (char_at 19 s "+" || char_at 19 s "-"))%bool
  then
    match number (substring 0 4 s), number (substring 5 2 s),
          number (substring 8 2 s), number (substring 11 2 s),
          number (substring 14 2 s), number (substring 17 2 s),
          number (substring 20 2 s), number (substring 23 2 s) with
    | Some y, Some m, Some d, Some hh, Some mi, Some ss, Some oh, Some om =>
        if (Z.leb 1 y && Z.leb 1 m && Z.leb m 12 && Z.leb 1 d
            && Z.leb d (days_in_month y m) && Z.ltb hh 24 && Z.ltb mi 60
            && Z.ltb ss 60 && Z.ltb oh 24 && Z.ltb om 60)%bool
        then
          let days := (days_before_year y + days_before_month y m + d - 1)%Z in
          let secs := (((days * 24 + hh) * 60 + mi) * 60 + ss)%Z in
          let off := ((oh * 60 + om) * 60)%Z in
          Some (mk_iso (secs * 1000000)%Z
                  (Some ((if char_at 19 s "-" then - off else off)
                         * 1000000)%Z))
        else None
    | _, _, _, _, _, _, _, _ => None
    end
  else None.

Definition strict_parser : IsoParser := {| fromisoformat := rfc3339_strict |}.

Definition str_field (k v : string) : string * json := (k, JStr v).

Definition chain_of (events : list json) : json := JObj [("events", JArr events)].

Definition no_policy : json := JObj [].

Definition signature_policy : json :=
  JObj [("policy", JObj [("signature_required", JBool true)])].

(** 2024-06-01T00:00:00Z *)
Definition june_2024 : Z :=
  match @parse_utc_or_die strict_parser "2024-06-01T00:00:00Z" with
  | Ok utc => utc
  | Raise _ => 0%Z
  end.

(** Two events with one sort key, the second linked to the first. *)
Definition twin_first : json :=
  JObj [str_field "event_id" "a"; str_field "event_hash" "h1";
        str_field "recorded_at" "2024-01-01T00:00:00Z"].
Definition twin_second : json :=
  JObj [str_field "event_id" "a"; str_field "event_hash" "h2";
        str_field "prev_event_hash" "h1";
        str_field "recorded_at" "2024-01-01T00:00:00Z"].

(** A two-event chain of pointer events, well linked. *)
Definition link_first : json :=
  JObj [str_field "event_id" "a"; str_field "event_hash" "h1";
        str_field "recorded_at" "2024-01-01T00:00:00Z"].
Definition link_second : json :=
  JObj [str_field "event_id" "b"; str_field "event_hash" "h2";
        str_field "prev_event_hash" "h1";
        str_field "recorded_at" "2024-01-02T00:00:00Z"].

(** A full-payload attestation without a signature, with its true hash. *)
Definition attestation_body : dict :=
  [str_field "event_id" "att-1";
   str_field "event_type" "ATTESTATION_ISSUED";
   str_field "issuer" "did:example:alice";
   str_field "canonicalization" "vp-json-1";
   ("artifact", JObj [str_field "url" "https://example.com/a";
                      str_field "content_sha256" "00"]);
   str_field "recorded_at" "2024-01-01T00:00:00Z";
   str_field "effective_at" "2024-01-01T00:00:00Z"].

Definition unsigned_attestation : dict :=
  app attestation_body
    [str_field "event_hash"
       "104c13ca3293643b5cab80d85e0edbdad322bfbb82ca168a62b355849de7e593"].

(** An attestation-type event without the full payload or a signature. *)
Definition pointer_attestation : dict :=
  [str_field "event_id" "a"; str_field "event_hash" "h1";
   str_field "event_type" "ATTESTATION_ISSUED"].

(** Genesis events whose [prev_event_hash] is a string. *)
Definition genesis_with (prev_event_hash : string) : json :=
  JObj [str_field "event_id" "a"; str_field "event_hash" "h1";
        str_field "prev_event_hash" prev_event_hash].

(** Events with timestamps. *)
Definition stamped_first : json :=
  JObj [str_field "event_id" "a"; str_field "event_hash" "h1";
        str_field "recorded_at" "2024-01-01T00:00:00Z";
        str_field "effective_at" "2024-01-01T00:00:00Z"].
Definition stamped_second : json :=
  JObj [str_field "event_id" "b"; str_field "event_hash" "h2";
        str_field "prev_event_hash" "h1";
        str_field "recorded_at" "2024-01-02T00:00:00Z";
        str_field "effective_at" "2024-01-02T00:00:00Z"].
Definition garbled_second : dict :=
  [str_field "event_id" "b"; str_field "event_hash" "h2";
   str_field "prev_event_hash" "h1";
   str_field "recorded_at" "2024-01-02T00:00:00Z";
   str_field "effective_at" "garbage"].
Definition undated : json :=
  JObj [str_field "event_id" "a"; str_field "event_hash" "h1";
        str_field "recorded_at" "garbage"].

(** An event without an [event_id]. *)
Definition anonymous_second : json :=
  JObj [str_field "event_hash" "h2"; str_field "prev_event_hash" "h1";
        str_field "recorded_at" "2024-01-02T00:00:00Z"].

(** A domain on the legacy protocol that requires signatures, and its
    manifest for one article. *)
Definition legacy_policy : dict :=
  [str_field "spec_version" "1.0";
   ("policy", JObj [("signature_required", JBool true)])].

Definition signed_manifest : dict :=
  [str_field "artifact_url" "https://example.com/article";
   str_field "content_sha256"
     "ba7816bf8f01cfea414140de5dae2223b00361a396177a9cb410ff61f20015ad";
   ("signature", JObj [str_field "value" "c2ln"])].

Definition example_network : Network :=
  {| fetch_json := fun url _ =>
       if String.eqb url "https://example.com/.well-known/provenance"
       then Body (JObj legacy_policy)
       else if String.eqb url "https://example.com/article.provenance.json"
       then Body (JObj signed_manifest)
       else HTTPError 404 "Not Found" |}.

(** The unsigned attestation with another declared hash, fields reordered. *)
Definition relabelled_attestation : dict :=
  str_field "event_hash" "0000" :: rev attestation_body.

(** A network on which every document is the empty object. *)
Definition empty_documents : Network :=
  {| fetch_json := fun _ _ => Body (JObj []) |}.

(** An event whose timestamps lie before year 1 once converted to UTC. *)
Definition ancient : json :=
  JObj [str_field "event_id" "a"; str_field "event_hash" "h1";
        str_field "recorded_at" "0001-01-01T00:00:00+01:00";
        str_field "effective_at" "0001-01-01T00:00:00+01:00"].

(** ** Vocabulary for the further properties *)

(** What an accepted chain looks like, read from [index] on with [prev] the
    hash of the event before: every event is an object with an [event_id]
    and an [event_hash]; the first has no [prev_event_hash] (null, empty or
    the string [null]) and every later one names the hash of its
    predecessor; an event with the full payload declares the hash that is
    recomputed from it. *)
Fixpoint chain_sound (index : nat) (prev : option string) (l : list json)
  : Prop :=
  match l with
  | [] => True
  | evt :: rest =>
      exists e,
        evt = JObj e
        /\ identified e = true
        /\ (if Nat.eqb index 0
            then null_hash (dict_get e "prev_event_hash" JNull) = true
            else eq_opt_str (dict_get e "prev_event_hash" JNull) prev = true)
        /\ (full_payload e = true -> hash_consistent e = true)
        /\ chain_sound (S index) (Some (event_hash_of e)) rest
  end.

(** The event is a full-payload event of an attestation type. *)
Definition binding_attestation (evt : json) : bool :=
  match evt with
  | JObj e => (full_payload e && attestation_type e)%bool
  | _ => false
  end.

(** The verdict is one of those of a completed walk. *)
Definition accepted (r : VerificationResult) : Prop :=
  verdict r = VERDICT_VERIFIED \/ verdict r = VERDICT_UNVERIFIABLE.

(** The well-known URL of line 242. *)
Definition well_known_of (parsed : SplitResult) : string :=
  "https://" ++ netloc parsed ++ "/.well-known/provenance".

(** A genesis event whose hash no other fixture points at. *)
Definition other_genesis : dict :=
  [str_field "event_id" "a"; str_field "event_hash" "h0"].

(** Policies that require a timestamp proof or a transparency entry. *)
Definition timestamp_policy : dict :=
  [("policy", JObj [("timestamp_required", JBool true)])].
Definition transparency_policy : dict :=
  [("policy", JObj [("transparency_anchoring_required", JBool true)])].

(** The attestation with a signature, and with its true hash. *)
Definition signed_attestation : dict :=
  app attestation_body
    [("signature", JObj [str_field "value" "c2ln"]);
     str_field "event_hash"
       "168fb2ac144f1277845b0768c06ae0c73c5e8305d63a98b79d86e5b43a7613c1"].

(** What [verify_remote_artifact] hands to [verify_chain]: a bare array is
    wrapped as the [events] member of an object (lines 264-265). *)
Definition as_chain_doc (body : json) : json :=
  match body with
  | JArr _ => JObj [("events", body)]
  | _ => body
  end.

(** How a failed fetch of the policy document is reported (lines 246-251);
    a body is no failure. *)
Definition policy_failure_text (outcome : fetched) : string :=
  match outcome with
  | Body _ => ""
  | HTTPError code _ => "domain policy fetch failed: HTTP " ++ str_of_Z code
  | OtherError msg => "domain policy fetch failed: " ++ msg
  end.

(** A network given by the documents it serves; any other URL is answered
    with HTTP 404. *)
Fixpoint serve (table : list (string * fetched)) (url : string) : fetched :=
  match table with
  | [] => HTTPError 404 "Not Found"
  | (u, outcome) :: rest => if String.eqb u url then outcome else serve rest url
  end.

Definition network_of (table : list (string * fetched)) : Network :=
  {| fetch_json := fun url _ => serve table url |}.

Definition article_url : string := "https://example.com/article".
Definition policy_url : string := "https://example.com/.well-known/provenance".
Definition manifest_url_of_article : string :=
  "https://example.com/article.provenance.json".
Definition events_url_of_article : string :=
  "https://example.com/events?artifact=https%3A%2F%2Fexample.com%2Farticle".

Definition example_split : SplitResult :=
  mk_split "https" "example.com" "/article" "" "".

(** A legacy policy document without requirements and a plain manifest. *)
Definition open_policy : dict := [str_field "spec_version" "1.0"].

Definition plain_manifest : dict :=
  [str_field "artifact_url" "HTTPS://EXAMPLE.com/article";
   str_field "content_sha256"
     "ba7816bf8f01cfea414140de5dae2223b00361a396177a9cb410ff61f20015ad"].

(** A 1.1 policy document with an event feed. *)
Definition feed_policy : dict :=
  [str_field "spec_version" "1.1";
   ("evidence_api",
    JObj [str_field "events_by_artifact"
            "https://example.com/events?artifact={artifact_url}"])].

(** A result that is either [VERIFIED] with no diagnostic, or carries a
    diagnostic under one of the four failure verdicts of the verifier. *)
Definition settled (r : VerificationResult) : Prop :=
  (verdict r = VERDICT_VERIFIED /\ errors r = [])
  \/ (errors r <> []
      /\ (verdict r = VERDICT_UNVERIFIABLE
          \/ verdict r = VERDICT_INVALID_INPUT
          \/ verdict r = VERDICT_INVALID_CHAIN
          \/ verdict r = VERDICT_POLICY_VIOLATION)).

(** [b] does not sort before [a]: whenever both have a sort key, the key
    of [b] is not smaller than that of [a]. *)
Definition in_key_order (a b : json) : Prop :=
  forall ka kb, event_key a = Ok ka -> event_key b = Ok kb ->
                pair_ltb kb ka = false.

(** The characters other than the fragment delimiter. *)
Definition not_hash (a : ascii) : bool := negb (Ascii.eqb a "#").

(** An event whose [effective_at] is present and empty, beside a
    [recorded_at] that is not a timestamp. *)
Definition blank_effective : json :=
  JObj [str_field "event_id" "a"; str_field "event_hash" "h1";
        str_field "recorded_at" "garbage"; str_field "effective_at" ""].

(** A manifest whose [signature.value] is present and empty, served on a
    legacy domain that requires signatures. *)
Definition blank_signature_manifest : dict :=
  [str_field "artifact_url" "https://example.com/article";
   str_field "content_sha256"
     "ba7816bf8f01cfea414140de5dae2223b00361a396177a9cb410ff61f20015ad";
   ("signature", JObj [str_field "value" ""])].

Definition blank_signature_network : Network :=
  network_of [(policy_url, Body (JObj legacy_policy));
              (manifest_url_of_article, Body (JObj blank_signature_manifest))].

(** * Properties *)

(** ** Conformance checks of the embedding *)

Example sha256_round_constants :
  nth 0 sha256_K 0%Z = 0x428a2f98%Z /\ nth 63 sha256_K 0%Z = 0xc67178f2%Z
  /\ List.length sha256_K = 64.
Proof. repeat split. Qed.

Example sha256_abc :
  sha256_hex "abc"
  = "ba7816bf8f01cfea414140de5dae2223b00361a396177a9cb410ff61f20015ad".
Proof. vm_compute. reflexivity. Qed.

Example sha256_two_blocks :
  sha256_hex "abcdbcdecdefdefgefghfghighijhijkijkljklmklmnlmnomnopnopq"
  = "248d6a61d20638b8e5c026930c3e6039a33ce45964ff2167f6ecedd419db06c1".
Proof. vm_compute. reflexivity. Qed.

Example canonical_json_sorts_keys :
  canonical_json_bytes
    (JObj [("b", JArr [JInt 1; JFloat "2.5"; JNull; JBool true]);
           ("a", JObj [])])
  = String.concat (String dquote "")
      ["{"; "a"; ":{},"; "b"; ":[1,2.5,null,true]}"].
Proof. vm_compute. reflexivity. Qed.

Example attestation_hash :
  compute_event_hash unsigned_attestation
  = "104c13ca3293643b5cab80d85e0edbdad322bfbb82ca168a62b355849de7e593".
Proof. vm_compute. reflexivity. Qed.

Example canonical_url_of_the_specification :
  canonicalize_artifact_url "HTTP://Example.COM:80/a/../b/"
  = Ok "http://example.com/b/".
Proof. vm_compute. reflexivity. Qed.

Example canonical_url_keeps_port_and_userinfo :
  canonicalize_artifact_url "https://User:Pw@Ex.com:8443/a%2fb/./c?x=%3d#frag"
  = Ok "https://User:Pw@ex.com:8443/a%2Fb/c?x=%3D".
Proof. vm_compute. reflexivity. Qed.

Example two_linked_events_verify :
  @verify_chain strict_parser no_policy (chain_of [link_first; link_second])
    june_2024
  = Ok (mk_result VERDICT_VERIFIED [] 2 None).
Proof. vm_compute. reflexivity. Qed.

Example missing_policy_is_undeclared :
  @verify_remote_artifact strict_parser example_network
    "https://example.org/article" 10 june_2024
  = Ok (result2 VERDICT_UNDECLARED
          ["missing https://example.org/.well-known/provenance"]).
Proof. vm_compute. reflexivity. Qed.

Example timestamp_with_offset :
  @parse_utc_or_die strict_parser "1970-01-01T00:00:00-05:30"
  = Ok 62135616600000000%Z.
Proof. vm_compute. reflexivity. Qed.

Example timestamp_out_of_range :
  @parse_utc_or_die strict_parser "0001-01-01T00:00:00+01:00"
  = Raise (OverflowError "date value out of range").
Proof. vm_compute. reflexivity. Qed.

(** ** Stable sorting: a sorted list is determined by its elements when the
       keys are distinct *)

Section SortFacts.
Context {A K : Type}.
Variable ltb : K -> K -> bool.
Hypothesis ltb_irrefl : forall a, ltb a a = false.
Hypothesis ltb_trans :
  forall a b c, ltb a b = true -> ltb b c = true -> ltb a c = true.
Hypothesis ltb_total : forall a b, a <> b -> ltb a b = true \/ ltb b a = true.

Lemma ltb_asym : forall a b, ltb a b = true -> ltb b a = false.
Proof.
  intros a b Hab. destruct (ltb b a) eqn:Hba; [|reflexivity].
  pose proof (ltb_trans _ _ _ Hab Hba) as Haa.
  rewrite ltb_irrefl in Haa. discriminate.
Qed.

Lemma insert_by_perm (x : K * A) (l : list (K * A)) :
  Permutation (insert_by ltb x l) (x :: l).
Proof.
  induction l as [|y l IH]; simpl.
  - apply Permutation_refl.
  - destruct (ltb (fst y) (fst x)).
    + eapply perm_trans; [apply perm_skip, IH | apply perm_swap].
    + apply Permutation_refl.
Qed.

Lemma sort_keyed_perm (l : list (K * A)) : Permutation (sort_keyed ltb l) l.
Proof.
  induction l as [|x l IH]; simpl.
  - constructor.
  - eapply perm_trans; [apply insert_by_perm | now apply perm_skip].
Qed.

Lemma insert_by_sorted (x : K * A) (l : list (K * A)) :
  Sorted (key_not_after ltb) l -> Sorted (key_not_after ltb) (insert_by ltb x l).
Proof.
  induction l as [|y l IH]; simpl; intros Hs.
  - repeat constructor.
  - destruct (ltb (fst y) (fst x)) eqn:Hyx.
    + inversion Hs as [|? ? Hl Hhd]; subst. constructor; [now apply IH|].
      destruct l as [|z l]; simpl.
      * constructor. unfold key_not_after. now apply ltb_asym.
      * destruct (ltb (fst z) (fst x)).
        -- inversion Hhd; subst. now constructor.
        -- constructor. unfold key_not_after. now apply ltb_asym.
    + constructor; [assumption|]. now constructor.
Qed.

Lemma sort_keyed_sorted (l : list (K * A)) :
  Sorted (key_not_after ltb) (sort_keyed ltb l).
Proof.
  induction l as [|x l IH]; simpl.
  - constructor.
  - now apply insert_by_sorted.
Qed.

Lemma not_after_key_trans (x y z : K * A) :
  key_not_after ltb x y -> key_not_after ltb y z -> key_not_after ltb x z.
Proof.
  unfold key_not_after. intros Hxy Hyz.
  destruct (ltb (fst z) (fst x)) eqn:Hzx; [|reflexivity].
  assert (Hne : fst y <> fst x).
  { intros E. rewrite E in Hyz. congruence. }
  destruct (ltb_total _ _ Hne) as [Hlt|Hlt]; [congruence|].
  rewrite (ltb_trans _ _ _ Hzx Hlt) in Hyz. discriminate.
Qed.

(** With distinct keys a sorted list is strictly increasing. *)
Lemma sorted_strict (l : list (K * A)) :
  NoDup (map fst l) -> Sorted (key_not_after ltb) l -> StronglySorted (key_before ltb) l.
Proof.
  intros Hnd Hs.
  apply Sorted_StronglySorted in Hs; [|exact not_after_key_trans].
  induction Hs as [|x l Hs IH Hall]; [constructor|].
  simpl in Hnd. inversion Hnd as [|? ? Hnotin Hnd']; subst.
  constructor; [now apply IH|].
  rewrite Forall_forall in *. intros y Hy.
  assert (Hne : fst x <> fst y).
  { intros E. apply Hnotin. rewrite E. now apply in_map. }
  destruct (ltb_total _ _ Hne) as [Hlt|Hlt]; [exact Hlt|].
  specialize (Hall y Hy). unfold key_not_after in Hall. congruence.
Qed.

(** Two strictly increasing lists with the same elements are equal. *)
Lemma strict_perm_eq (l l' : list (K * A)) :
  StronglySorted (key_before ltb) l -> StronglySorted (key_before ltb) l' ->
  Permutation l l' -> l = l'.
Proof.
  intros Hl. revert l'.
  induction Hl as [|x l Hl IH Hx]; intros l' Hl' Hp.
  - apply Permutation_nil in Hp. now subst.
  - destruct Hl' as [|y l' Hl' Hy].
    + apply Permutation_sym, Permutation_nil in Hp. discriminate.
    + assert (Exy : x = y).
      { assert (Hin1 : In x (y :: l'))
          by (eapply Permutation_in; [exact Hp | now left]).
        assert (Hin2 : In y (x :: l))
          by (eapply Permutation_in;
              [apply Permutation_sym; exact Hp | now left]).
        destruct Hin1 as [E|Hin1]; [now symmetry|].
        destruct Hin2 as [E|Hin2]; [assumption|].
        rewrite Forall_forall in Hx, Hy.
        specialize (Hx _ Hin2). specialize (Hy _ Hin1).
        unfold key_before in Hx, Hy.
        apply ltb_asym in Hx. congruence. }
      subst y. f_equal. apply IH; [assumption|].
      now apply Permutation_cons_inv with (a := x).
Qed.

Lemma sort_keyed_perm_eq (l l' : list (K * A)) :
  NoDup (map fst l) -> Permutation l l' ->
  sort_keyed ltb l = sort_keyed ltb l'.
Proof.
  intros Hnd Hp.
  assert (Hnd' : NoDup (map fst l')).
  { eapply Permutation_NoDup; [apply Permutation_map; exact Hp | exact Hnd]. }
  apply strict_perm_eq.
  - apply sorted_strict; [|apply sort_keyed_sorted].
    eapply Permutation_NoDup;
      [apply Permutation_map, Permutation_sym, sort_keyed_perm | exact Hnd].
  - apply sorted_strict; [|apply sort_keyed_sorted].
    eapply Permutation_NoDup;
      [apply Permutation_map, Permutation_sym, sort_keyed_perm | exact Hnd'].
  - eapply perm_trans; [apply sort_keyed_perm|].
    eapply perm_trans; [exact Hp | apply Permutation_sym, sort_keyed_perm].
Qed.

End SortFacts.

(** ** The order on sort keys *)

Lemma str_ltb_irrefl (a : string) : str_ltb a a = false.
Proof.
  unfold str_ltb. destruct (String_as_OT.compare a a) eqn:E; try reflexivity.
  exfalso. exact (StrictOrder_Irreflexive (R := String_as_OT.lt) a E).
Qed.

Lemma str_ltb_lt (a b : string) : str_ltb a b = true <-> String_as_OT.lt a b.
Proof.
  unfold str_ltb, String_as_OT.lt.
  destruct (String_as_OT.compare a b); split; congruence.
Qed.

Lemma str_ltb_trans (a b c : string) :
  str_ltb a b = true -> str_ltb b c = true -> str_ltb a c = true.
Proof.
  rewrite !str_ltb_lt. apply (StrictOrder_Transitive (R := String_as_OT.lt)).
Qed.

Lemma str_ltb_total (a b : string) :
  a <> b -> str_ltb a b = true \/ str_ltb b a = true.
Proof.
  intros Hne. rewrite !str_ltb_lt.
  destruct (String_as_OT.compare_spec a b) as [E|L|G]; auto.
  now elim Hne.
Qed.

Lemma pair_ltb_irrefl (a : string * string) : pair_ltb a a = false.
Proof.
  unfold pair_ltb. now rewrite !str_ltb_irrefl, andb_false_r.
Qed.

Lemma pair_ltb_cases (a b : string * string) :
  pair_ltb a b = true <->
  str_ltb (fst a) (fst b) = true
  \/ (fst a = fst b /\ str_ltb (snd a) (snd b) = true).
Proof.
  unfold pair_ltb.
  rewrite orb_true_iff, andb_true_iff, String.eqb_eq. tauto.
Qed.

Lemma pair_ltb_trans (a b c : string * string) :
  pair_ltb a b = true -> pair_ltb b c = true -> pair_ltb a c = true.
Proof.
  rewrite !pair_ltb_cases.
  intros [Hab|[Eab Hab]] [Hbc|[Ebc Hbc]].
  - left. eapply str_ltb_trans; eassumption.
  - left. now rewrite <- Ebc.
  - left. now rewrite Eab.
  - right. split; [congruence|]. eapply str_ltb_trans; eassumption.
Qed.

Lemma pair_ltb_total (a b : string * string) :
  a <> b -> pair_ltb a b = true \/ pair_ltb b a = true.
Proof.
  destruct a as [a1 a2], b as [b1 b2]. intros Hne.
  rewrite !pair_ltb_cases. simpl.
  destruct (String.eqb_spec a1 b1) as [E1|N1].
  - subst b1. assert (N2 : a2 <> b2) by congruence.
    destruct (str_ltb_total _ _ N2); auto.
  - destruct (str_ltb_total _ _ N1); auto.
Qed.

(** ** [sorted] and permutations of its input *)

Lemma decorate_perm {A K : Type} (key : A -> result K) (l l' : list A) :
  Permutation l l' ->
  match decorate key l, decorate key l' with
  | Ok ks, Ok ks' => Permutation ks ks'
  | Raise _, Raise _ => True
  | _, _ => False
  end.
Proof.
  induction 1 as [|x l l' Hp IH|x y l|l l' l'' Hp1 IH1 Hp2 IH2]; simpl.
  - constructor.
  - destruct (key x); simpl; [|exact I].
    destruct (decorate key l), (decorate key l'); simpl; try assumption.
    now constructor.
  - destruct (key x), (key y), (decorate key l); simpl; try exact I.
    apply perm_swap.
  - destruct (decorate key l), (decorate key l'), (decorate key l'');
      try assumption; try contradiction.
    eapply perm_trans; eassumption.
Qed.

Lemma decorate_length {A K : Type} (key : A -> result K) (l : list A) ks :
  decorate key l = Ok ks -> List.length ks = List.length l.
Proof.
  revert ks. induction l as [|x l IH]; simpl; intros ks Hd.
  - now inversion Hd.
  - destruct (key x); [|discriminate]. simpl in Hd.
    destruct (decorate key l); [|discriminate]. simpl in Hd.
    inversion Hd; subst. simpl. f_equal. now apply IH.
Qed.

Lemma canonical_order_length (events ordered : list json) :
  canonical_order events = Ok ordered ->
  List.length ordered = List.length events.
Proof.
  unfold canonical_order, sorted_by. intros Hs.
  destruct (decorate event_key events) as [ks|] eqn:Hd; [|discriminate].
  simpl in Hs. inversion Hs; subst.
  rewrite length_map, (Permutation_length (sort_keyed_perm pair_ltb ks)).
  eapply decorate_length; eassumption.
Qed.

Lemma same_outcome_refl (r : result VerificationResult) : same_outcome r r.
Proof. destruct r; simpl; auto. Qed.

(** ** Unfolding [verify_chain] *)

Section ChainFacts.
Context `{IsoParser}.

Lemma verify_chain_events (domain_doc : json) (chain : dict)
  (events : list json) (evaluated_at : Z) :
  lookup chain "events" = Some (JArr events) ->
  events <> [] ->
  verify_chain domain_doc (JObj chain) evaluated_at =
    (ordered <- canonical_order events ;;
     policy <- py_get domain_doc "policy" JNull ;;
     conclude (List.length ordered)
       (walk (policy_of (dict_or_empty policy)) evaluated_at 0
          initial_state ordered)).
Proof.
  intros Hl Hne. unfold verify_chain. simpl. unfold dict_get. rewrite Hl.
  destruct events; [contradiction|reflexivity].
Qed.

Lemma verify_chain_empty (domain_doc : json) (chain : dict)
  (evaluated_at : Z) :
  lookup chain "events" = Some (JArr []) ->
  verify_chain domain_doc (JObj chain) evaluated_at =
    Ok (result2 VERDICT_INVALID_CHAIN ["events array missing or empty"]).
Proof.
  intros Hl. unfold verify_chain. simpl. unfold dict_get. now rewrite Hl.
Qed.

End ChainFacts.

(** ** C2: permuting the events array *)

(** C2, counterexample.  Two events sharing [(recorded_at, event_id)] keep
    their input order under the stable sort: in one order the chain is
    [VERIFIED], in the other the linked event comes first and the chain is
    [INVALID_CHAIN]. *)
Lemma permuted_twins_change_the_verdict :
  Permutation [twin_first; twin_second] [twin_second; twin_first]
  /\ verdict_of (@verify_chain strict_parser no_policy
                   (chain_of [twin_first; twin_second]) june_2024)
     = Some VERDICT_VERIFIED
  /\ verdict_of (@verify_chain strict_parser no_policy
                   (chain_of [twin_second; twin_first]) june_2024)
     = Some VERDICT_INVALID_CHAIN.
Proof.
  split; [apply perm_swap|]. split; vm_compute; reflexivity.
Qed.

(** C2, amended.  For every policy document, evaluation time and events
    array whose sort keys [(str(recorded_at), str(event_id))] are pairwise
    distinct, [verify_chain] ends the same way on every permutation of the
    array: with the same result, or with an exception on both. *)
Theorem verify_chain_permutation_invariant `{IsoParser}
  (domain_doc : json) (chain chain' : dict) (events events' : list json)
  (evaluated_at : Z) :
  lookup chain "events" = Some (JArr events) ->
  lookup chain' "events" = Some (JArr events') ->
  Permutation events events' ->
  distinct_keys events ->
  same_outcome (verify_chain domain_doc (JObj chain) evaluated_at)
    (verify_chain domain_doc (JObj chain') evaluated_at).
Proof.
  intros Hl Hl' Hp Hd.
  destruct events as [|e events].
  { apply Permutation_nil in Hp. subst events'.
    rewrite (verify_chain_empty _ _ _ Hl), (verify_chain_empty _ _ _ Hl').
    reflexivity. }
  assert (Hne' : events' <> []).
  { intros E. subst events'. apply Permutation_sym, Permutation_nil in Hp.
    discriminate. }
  rewrite (verify_chain_events _ _ _ _ Hl) by discriminate.
  rewrite (verify_chain_events _ _ _ _ Hl' Hne').
  unfold canonical_order, sorted_by.
  pose proof (decorate_perm event_key _ _ Hp) as Hdec.
  destruct (decorate event_key (e :: events)) as [ks|] eqn:Hks;
    destruct (decorate event_key events') as [ks'|] eqn:Hks';
    try contradiction; simpl; [|exact I].
  rewrite (sort_keyed_perm_eq pair_ltb pair_ltb_irrefl pair_ltb_trans
             pair_ltb_total ks ks' (Hd ks Hks) Hdec).
  apply same_outcome_refl.
Qed.

(** C2, witness: the two-event chain in both orders. *)
Lemma verify_chain_permutation_invariant_witness :
  same_outcome
    (@verify_chain strict_parser no_policy
       (chain_of [link_second; link_first]) june_2024)
    (@verify_chain strict_parser no_policy
       (chain_of [link_first; link_second]) june_2024).
Proof.
  apply (@verify_chain_permutation_invariant strict_parser no_policy
           [("events", JArr [link_second; link_first])]
           [("events", JArr [link_first; link_second])]
           [link_second; link_first] [link_first; link_second] june_2024).
  - reflexivity.
  - reflexivity.
  - apply perm_swap.
  - intros ks Hks. vm_compute in Hks. injection Hks as <-.
    simpl. constructor.
    + simpl. intros [E|[]]. discriminate E.
    + constructor; [intros []|constructor].
Defined.

(** ** The walk over the canonical order *)

Section WalkFacts.
Context `{IsoParser}.
Variable flags : policy_flags.
Variable evaluated_at : Z.

Lemma walk_cons (evt : json) (rest : list json) (index : nat)
  (st : walk_state) :
  walk flags evaluated_at index st (evt :: rest) =
    match check_event flags evaluated_at index st evt with
    | Next st' => walk flags evaluated_at (S index) st' rest
    | stop => stop
    end.
Proof. reflexivity. Qed.

Lemma walk_app (pre rest : list json) (index : nat) (st : walk_state) :
  walk flags evaluated_at index st (pre ++ rest)%list =
    match walk flags evaluated_at index st pre with
    | Next st' => walk flags evaluated_at (index + List.length pre) st' rest
    | stop => stop
    end.
Proof.
  revert index st. induction pre as [|evt pre IH]; intros index st; simpl.
  - now rewrite Nat.add_0_r.
  - destruct (check_event flags evaluated_at index st evt); try reflexivity.
    rewrite IH. now rewrite Nat.add_succ_r.
Qed.

(** The walk reaches [evt] in state [st] and the body returns there. *)
Lemma walk_returns_at (pre post : list json) (evt : json) (st : walk_state)
  (r : VerificationResult) :
  walk flags evaluated_at 0 initial_state pre = Next st ->
  check_event flags evaluated_at (List.length pre) st evt = Return r ->
  walk flags evaluated_at 0 initial_state (pre ++ evt :: post)%list = Return r.
Proof.
  intros Hpre Hevt. rewrite walk_app, Hpre. simpl. now rewrite Hevt.
Qed.

(** What each stage of the body returns, and the count it reports. *)
Lemma check_link_returns (index : nat) (prev : option string)
  (event_id : string) (prev_event_hash : json) (r : VerificationResult) :
  check_link index prev event_id prev_event_hash = Some r ->
  verdict r = VERDICT_INVALID_CHAIN /\ checked_events r = index + 1.
Proof.
  unfold check_link. intros Hr.
  repeat match type of Hr with
         | context [if ?c then _ else _] => destruct c
         end;
    inversion Hr; subst; simpl; auto.
Qed.

Lemma check_payload_returns (index : nat) (evt : dict)
  (event_id event_hash : string) (errs : list string)
  (r : VerificationResult) :
  check_payload flags index evt event_id event_hash errs = inl r ->
  (verdict r = VERDICT_INVALID_CHAIN \/ verdict r = VERDICT_POLICY_VIOLATION)
  /\ checked_events r = index + 1.
Proof.
  unfold check_payload. intros Hr.
  repeat match type of Hr with
         | context [if ?c then _ else _] => destruct c
         end;
    inversion Hr; subst; simpl; auto.
Qed.

Lemma resolve_active_returns (index : nat) (evt : dict) (event_id : string)
  (current : option string) (stop : flow) :
  resolve_active evaluated_at index evt event_id current = inl stop ->
  (exists e, stop = Throw e)
  \/ (exists r, stop = Return r /\ verdict r = VERDICT_INVALID_INPUT
                /\ checked_events r = index + 1).
Proof.
  unfold resolve_active. intros Hr.
  repeat match type of Hr with
         | context [if ?c then _ else _] => destruct c
         | context [match ?x with _ => _ end] => destruct x
         end;
    inversion Hr; subst; simpl; eauto.
Qed.

(** A failure of the body counts the failing event unless the event lacks
    its identity. *)
Lemma check_event_returns (index : nat) (st : walk_state) (evt : json)
  (r : VerificationResult) :
  check_event flags evaluated_at index st evt = Return r ->
  (verdict r = VERDICT_INVALID_CHAIN
   \/ verdict r = VERDICT_POLICY_VIOLATION
   \/ verdict r = VERDICT_INVALID_INPUT)
  /\ checked_events r
     = if lacks_identity evt then index else index + 1.
Proof.
  unfold check_event, lacks_identity. intros Hr.
  destruct evt as [| | | | | |e]; try (inversion Hr; subst; simpl; now auto).
  destruct (is_empty (event_id_of e) || is_empty (event_hash_of e))%bool.
  { inversion Hr; subst; simpl; auto. }
  destruct (check_link index (prev_hash st) (event_id_of e)
              (dict_get e "prev_event_hash" JNull)) as [r'|] eqn:Hlink.
  { inversion Hr; subst. apply check_link_returns in Hlink. tauto. }
  destruct (check_payload flags index e (event_id_of e) (event_hash_of e)
              (diagnostics st)) as [r'|errs] eqn:Hpay.
  { inversion Hr; subst. apply check_payload_returns in Hpay. tauto. }
  destruct (resolve_active evaluated_at index e (event_id_of e) (active st))
    as [stop|a] eqn:Hact; [|discriminate].
  subst stop. apply resolve_active_returns in Hact.
  destruct Hact as [[x Hx]|[r' [Hx [Hv Hc]]]]; [discriminate|].
  inversion Hx; subst. auto.
Qed.

Lemma walk_return_verdict (l : list json) (index : nat) (st : walk_state)
  (r : VerificationResult) :
  walk flags evaluated_at index st l = Return r ->
  verdict r = VERDICT_INVALID_CHAIN
  \/ verdict r = VERDICT_POLICY_VIOLATION
  \/ verdict r = VERDICT_INVALID_INPUT.
Proof.
  revert index st. induction l as [|evt l IH]; intros index st; simpl.
  - discriminate.
  - destruct (check_event flags evaluated_at index st evt) eqn:Hevt; intros Hr.
    + eapply IH; eassumption.
    + inversion Hr; subst. eapply check_event_returns; eassumption.
    + discriminate.
Qed.

End WalkFacts.

(** ** [verify_chain] at an event of the canonical order *)

Section ChainAt.
Context `{IsoParser}.
Variables domain_doc chain : dict.
Variable events : list json.
Variable evaluated_at : Z.
Hypothesis chain_events : lookup chain "events" = Some (JArr events).

Lemma verify_chain_walk (ordered : list json) :
  canonical_order events = Ok ordered ->
  ordered <> [] ->
  verify_chain (JObj domain_doc) (JObj chain) evaluated_at =
    conclude (List.length ordered)
      (walk (flags_of domain_doc) evaluated_at 0 initial_state ordered).
Proof.
  intros Hord Hne.
  assert (Hev : events <> []).
  { intros E. apply canonical_order_length in Hord. rewrite E in Hord.
    destruct ordered; [contradiction|discriminate]. }
  rewrite (verify_chain_events _ _ _ _ chain_events Hev), Hord.
  reflexivity.
Qed.

Lemma verify_chain_returns_at (pre post : list json) (evt : json)
  (st : walk_state) (r : VerificationResult) :
  canonical_order events = Ok (pre ++ evt :: post)%list ->
  walk (flags_of domain_doc) evaluated_at 0 initial_state pre = Next st ->
  check_event (flags_of domain_doc) evaluated_at (List.length pre) st evt
    = Return r ->
  verify_chain (JObj domain_doc) (JObj chain) evaluated_at = Ok r.
Proof.
  intros Hord Hpre Hevt.
  rewrite (verify_chain_walk _ Hord) by (now destruct pre).
  now rewrite (walk_returns_at _ _ pre post evt st r Hpre Hevt).
Qed.

End ChainAt.

(** ** C3: the policy binding of attestation events *)

(** C3, counterexample.  An event of type [ATTESTATION_ISSUED] that lacks
    the [issuer], [canonicalization] and [artifact] fields is not policy
    checked: without a signature, under a policy that requires one, the
    chain is [VERIFIED]. *)
Lemma pointer_attestation_escapes_policy :
  attestation_type pointer_attestation = true
  /\ evidence pointer_attestation "signature" "value" = JNull
  /\ @verify_chain strict_parser signature_policy
       (chain_of [JObj pointer_attestation]) june_2024
     = Ok (mk_result VERDICT_VERIFIED [] 1 None).
Proof. repeat split; vm_compute; reflexivity. Qed.

(** C3, amended.  Let the walk over the canonical order reach an event that
    carries the full payload ([issuer], [canonicalization], [artifact]),
    passes the structural checks (identity, linkage, recomputed hash) and is
    of type [ATTESTATION_ISSUED] or [ATTESTATION_SUPERSEDED].  If the policy
    requires a signature and the event has no [signature.value], then
    [verify_chain] returns [POLICY_VIOLATION], counting the event. *)
Theorem unsigned_attestation_violates_policy `{IsoParser}
  (domain_doc chain : dict) (events pre post : list json) (evt : dict)
  (st : walk_state) (evaluated_at : Z) :
  lookup chain "events" = Some (JArr events) ->
  canonical_order events = Ok (pre ++ JObj evt :: post)%list ->
  walk (flags_of domain_doc) evaluated_at 0 initial_state pre = Next st ->
  identified evt = true ->
  linked (List.length pre) st evt = true ->
  full_payload evt = true ->
  hash_consistent evt = true ->
  attestation_type evt = true ->
  signature_required (flags_of domain_doc) = true ->
  truthy (evidence evt "signature" "value") = false ->
  verify_chain (JObj domain_doc) (JObj chain) evaluated_at
  = Ok (result3 VERDICT_POLICY_VIOLATION
          ["signature missing for required event " ++ event_id_of evt]
          (List.length pre + 1)).
Proof.
  intros Hl Hord Hpre Hid Hlink Hfull Hhash Hatt Hreq Hsig.
  eapply verify_chain_returns_at; try eassumption.
  unfold check_event. unfold identified in Hid. apply negb_true_iff in Hid.
  rewrite Hid. unfold linked in Hlink.
  destruct (check_link (List.length pre) (prev_hash st) (event_id_of evt)
              (dict_get evt "prev_event_hash" JNull)); [discriminate|].
  unfold check_payload. unfold hash_consistent in Hhash.
  rewrite Hfull, Hhash, Hatt, Hreq, Hsig. reflexivity.
Qed.

(** C3, witness: the unsigned full-payload attestation as a one-event
    chain under the signature policy. *)
Lemma unsigned_attestation_violates_policy_witness :
  @verify_chain strict_parser signature_policy
    (chain_of [JObj unsigned_attestation]) june_2024
  = Ok (result3 VERDICT_POLICY_VIOLATION
          ["signature missing for required event att-1"] 1).
Proof.
  apply (@unsigned_attestation_violates_policy strict_parser
           [("policy", JObj [("signature_required", JBool true)])]
           [("events", JArr [JObj unsigned_attestation])]
           [JObj unsigned_attestation] [] [] unsigned_attestation
           initial_state june_2024);
    vm_compute; reflexivity.
Defined.

(** ** C5: the genesis event *)

(** C5, counterexample.  A genesis event whose [prev_event_hash] is the
    empty string, or the four-letter string [null], is accepted. *)
Lemma genesis_with_placeholder_is_verified :
  @verify_chain strict_parser no_policy (chain_of [genesis_with ""])
    june_2024
  = Ok (mk_result VERDICT_VERIFIED [] 1 None)
  /\ @verify_chain strict_parser no_policy (chain_of [genesis_with "null"])
       june_2024
     = Ok (mk_result VERDICT_VERIFIED [] 1 None).
Proof. split; vm_compute; reflexivity. Qed.

(** C5, amended.  For every chain of event objects, if the first event in
    canonical order has a [prev_event_hash] other than [null], the empty
    string and the string [null], then [verify_chain] returns
    [INVALID_CHAIN]. *)
Theorem genesis_with_prev_hash_is_invalid `{IsoParser}
  (domain_doc chain : dict) (events rest : list json) (genesis : dict)
  (evaluated_at : Z) :
  lookup chain "events" = Some (JArr events) ->
  canonical_order events = Ok (JObj genesis :: rest) ->
  null_hash (dict_get genesis "prev_event_hash" JNull) = false ->
  verdict_of (verify_chain (JObj domain_doc) (JObj chain) evaluated_at)
  = Some VERDICT_INVALID_CHAIN.
Proof.
  intros Hl Hord Hprev.
  assert (Hr : exists r,
             check_event (flags_of domain_doc) evaluated_at 0 initial_state
               (JObj genesis) = Return r
             /\ verdict r = VERDICT_INVALID_CHAIN).
  { unfold check_event.
    destruct (is_empty (event_id_of genesis)
              || is_empty (event_hash_of genesis))%bool.
    - eexists; split; reflexivity.
    - unfold check_link. simpl. rewrite Hprev. simpl.
      eexists; split; reflexivity. }
  destruct Hr as [r [Hr Hv]].
  rewrite (verify_chain_returns_at domain_doc chain events evaluated_at Hl
             [] rest (JObj genesis) initial_state r Hord eq_refl Hr).
  simpl. now rewrite Hv.
Qed.

(** C5, witness: a genesis event pointing at a hash. *)
Lemma genesis_with_prev_hash_is_invalid_witness :
  verdict_of (@verify_chain strict_parser no_policy
                (chain_of [genesis_with "h0"]) june_2024)
  = Some VERDICT_INVALID_CHAIN.
Proof.
  apply (@genesis_with_prev_hash_is_invalid strict_parser []
           [("events", JArr [genesis_with "h0"])] [genesis_with "h0"] []
           [str_field "event_id" "a"; str_field "event_hash" "h1";
            str_field "prev_event_hash" "h0"] june_2024);
    vm_compute; reflexivity.
Defined.

(** ** C6: malformed timestamps *)


(** A field that is present but falsy is skipped like an absent one: an
    empty [effective_at] is never handed to the parser. *)
Example empty_effective_at_is_not_parsed :
  @parse_utc_or_die strict_parser ""
  = Raise (ValueError "invalid RFC3339 timestamp: ")
  /\ @verify_chain strict_parser no_policy (chain_of [blank_effective])
       june_2024
     = Ok (mk_result VERDICT_VERIFIED [] 1 None).
Proof. split; vm_compute; reflexivity. Qed.



(** ** C10: the count of checked events at a failure *)



Example checked_events_counts_a_broken_link :
  @verify_chain strict_parser no_policy
    (chain_of [genesis_with "null"; stamped_second;
               JObj [str_field "event_id" "c"; str_field "event_hash" "h3";
                     str_field "prev_event_hash" "other";
                     str_field "recorded_at" "2024-01-03T00:00:00Z"]])
    june_2024
  = Ok (result3 VERDICT_INVALID_CHAIN ["prev_event_hash mismatch at c"] 3).
Proof. vm_compute. reflexivity. Qed.


(** ** C4: the active event *)

Lemma find_snoc {A : Type} (f : A -> bool) (l : list A) (x : A) :
  find f (l ++ [x])%list =
    match find f l with
    | Some y => Some y
    | None => if f x then Some x else None
    end.
Proof.
  induction l as [|y l IH]; simpl.
  - reflexivity.
  - destruct (f y); [reflexivity|exact IH].
Qed.

Section ActiveFacts.
Context `{IsoParser}.
Variable flags : policy_flags.
Variable evaluated_at : Z.

Lemma resolve_active_next (index : nat) (evt : dict) (event_id : string)
  (current a : option string) :
  resolve_active evaluated_at index evt event_id current = inr a ->
  a = if qualifies evaluated_at (JObj evt) then Some event_id else current.
Proof.
  unfold resolve_active, qualifies, not_after.
  destruct (truthy (dict_get evt "effective_at" JNull));
    destruct (truthy (dict_get evt "recorded_at" JNull)); simpl;
    try (intros Hr; now inversion Hr).
  destruct (parse_utc_or_die (py_str (dict_get evt "effective_at" JNull)))
    as [effective|[msg|msg|msg]]; try discriminate.
  destruct (Z.leb effective evaluated_at); simpl;
    [|intros Hr; now inversion Hr].
  destruct (parse_utc_or_die (py_str (dict_get evt "recorded_at" JNull)))
    as [recorded|[msg|msg|msg]]; try discriminate.
  destruct (Z.leb recorded evaluated_at); intros Hr; now inversion Hr.
Qed.

Lemma check_event_next (index : nat) (st st' : walk_state) (evt : json) :
  check_event flags evaluated_at index st evt = Next st' ->
  exists e, evt = JObj e
            /\ active st'
               = if qualifies evaluated_at evt then Some (event_id_of e)
                 else active st.
Proof.
  unfold check_event. intros Hn.
  destruct evt as [| | | | | |e]; try discriminate.
  exists e. split; [reflexivity|].
  destruct (is_empty (event_id_of e) || is_empty (event_hash_of e))%bool;
    [discriminate|].
  destruct (check_link index (prev_hash st) (event_id_of e)
              (dict_get e "prev_event_hash" JNull)); [discriminate|].
  destruct (check_payload flags index e (event_id_of e) (event_hash_of e)
              (diagnostics st)); [discriminate|].
  destruct (resolve_active evaluated_at index e (event_id_of e) (active st))
    as [stop|a] eqn:Hact.
  - subst stop. apply resolve_active_returns in Hact.
    destruct Hact as [[x Hx]|[r [Hx _]]]; discriminate.
  - inversion Hn; subst; simpl. now apply resolve_active_next in Hact.
Qed.

Lemma walk_active (l : list json) (index : nat) (st st' : walk_state) :
  walk flags evaluated_at index st l = Next st' ->
  active st' = match last_active evaluated_at l with
               | Some id => Some id
               | None => active st
               end.
Proof.
  revert index st. induction l as [|evt l IH]; intros index st; simpl.
  - intros Hn. now inversion Hn.
  - destruct (check_event flags evaluated_at index st evt) as [st1| |]
      eqn:Hevt; try discriminate.
    intros Hn. apply IH in Hn.
    apply check_event_next in Hevt. destruct Hevt as [e [-> Hact]].
    unfold last_active in *. simpl rev. rewrite find_snoc.
    destruct (find (qualifies evaluated_at) (rev l)) as [y|] eqn:Hfind.
    + apply find_some in Hfind. destruct Hfind as [_ Hq].
      destruct y; simpl in Hq; try discriminate. exact Hn.
    + rewrite Hn, Hact.
      now destruct (qualifies evaluated_at (JObj e)).
Qed.

End ActiveFacts.

(** C4, counterexample.  Both events pass the structural and policy checks
    and the first one qualifies, but the second has a malformed
    [effective_at]: the result is [INVALID_INPUT] and carries no active
    event. *)
Lemma active_event_dropped_on_invalid_input :
  canonical_order [JObj garbled_second; stamped_first]
  = Ok [stamped_first; JObj garbled_second]
  /\ @last_active strict_parser june_2024
       [stamped_first; JObj garbled_second] = Some "a"
  /\ (identified garbled_second
      && linked 1 (mk_state (Some "h1") (Some "a") []) garbled_second
      && payload_accepted (flags_of []) 1
           (mk_state (Some "h1") (Some "a") []) garbled_second)%bool = true
  /\ @verify_chain strict_parser no_policy
       (chain_of [JObj garbled_second; stamped_first]) june_2024
     = Ok (mk_result VERDICT_INVALID_INPUT
             ["invalid RFC3339 timestamp: garbage"] 2 None).
Proof. repeat split; vm_compute; reflexivity. Qed.

(** C4, amended.  For every chain on which [verify_chain] completes the
    walk (verdict [VERIFIED] or [UNVERIFIABLE]), the [active_event_id] of
    the result is the [event_id], as a string without surrounding
    whitespace, of the last event in canonical order whose [effective_at]
    and [recorded_at] are both present and both not later than the
    evaluation time, and it is [None] when no event qualifies. *)
Theorem active_event_is_last_qualifying `{IsoParser}
  (domain_doc : json) (chain : dict) (events ordered : list json)
  (evaluated_at : Z) (r : VerificationResult) :
  lookup chain "events" = Some (JArr events) ->
  canonical_order events = Ok ordered ->
  verify_chain domain_doc (JObj chain) evaluated_at = Ok r ->
  verdict r = VERDICT_VERIFIED \/ verdict r = VERDICT_UNVERIFIABLE ->
  active_event_id r = last_active evaluated_at ordered.
Proof.
  intros Hl Hord Hr Hv.
  destruct events as [|e events].
  { rewrite (verify_chain_empty _ _ _ Hl) in Hr. inversion Hr; subst.
    destruct Hv as [Hv|Hv]; discriminate Hv. }
  rewrite (verify_chain_events _ _ _ _ Hl) in Hr by discriminate.
  rewrite Hord in Hr. simpl in Hr.
  destruct (py_get domain_doc "policy" JNull) as [policy|]; [|discriminate].
  simpl in Hr.
  destruct (walk (policy_of (dict_or_empty policy)) evaluated_at 0
              initial_state ordered) as [st|r'|x] eqn:Hw; simpl in Hr.
  - apply walk_active in Hw. simpl in Hw.
    assert (Ha : active st = last_active evaluated_at ordered).
    { rewrite Hw. now destruct (last_active evaluated_at ordered). }
    destruct (diagnostics st); inversion Hr; subst; simpl; exact Ha.
  - inversion Hr; subst. apply walk_return_verdict in Hw.
    destruct Hv as [Hv|Hv]; rewrite Hv in Hw;
      destruct Hw as [Hw|[Hw|Hw]]; discriminate Hw.
  - discriminate.
Qed.

(** C4, witness: of two qualifying events the later one is active. *)
Lemma active_event_is_last_qualifying_witness :
  active_event_id (mk_result VERDICT_VERIFIED [] 2 (Some "b"))
  = @last_active strict_parser june_2024 [stamped_first; stamped_second].
Proof.
  apply (@active_event_is_last_qualifying strict_parser no_policy
           [("events", JArr [stamped_second; stamped_first])]
           [stamped_second; stamped_first] [stamped_first; stamped_second]
           june_2024 (mk_result VERDICT_VERIFIED [] 2 (Some "b")));
    [vm_compute; reflexivity .. | left; reflexivity].
Defined.

(** ** C7: the legacy manifest under a signature policy *)

(** C7, counterexample.  The test of line 289 is on the truth value of
    [signature.value], not on its presence: a structurally valid manifest
    whose [signature.value] is present and empty, under a policy that
    requires signatures, is a [POLICY_VIOLATION], not [UNVERIFIABLE]. *)
Lemma present_empty_signature_is_policy_violation :
  signature_required (flags_of legacy_policy) = true
  /\ lookup blank_signature_manifest "signature"
     = Some (JObj [("value", JStr "")])
  /\ @verify_remote_artifact strict_parser blank_signature_network
       article_url 10 june_2024
     = Ok (result2 VERDICT_POLICY_VIOLATION ["signature required but missing"])
  /\ verdict_of (@verify_remote_artifact strict_parser blank_signature_network
                   article_url 10 june_2024)
     <> Some VERDICT_UNVERIFIABLE.
Proof.
  repeat split; try (vm_compute; reflexivity).
  vm_compute. discriminate.
Qed.

(** C7, amended.  On the legacy path (the policy document is not a 1.1
    document with an evidence API), for a manifest that is an object, whose
    [artifact_url] canonicalizes to the canonical URL and whose
    [content_sha256] is 64 lowercase hex digits: if the policy requires a
    signature, [verify_remote_artifact] returns [POLICY_VIOLATION] when the
    manifest's [signature.value] is absent or falsy (null, false, zero or
    empty, by the test [not signature.get("value")] of the code) and
    [UNVERIFIABLE] when it is truthy, hence never [VERIFIED]. *)
Theorem legacy_signature_policy_never_verifies `{IsoParser} `{Network}
  (url canonical_url : string) (parsed : SplitResult)
  (timeout evaluated_at : Z) (domain_doc manifest : dict) :
  canonicalize_artifact_url url = Ok canonical_url ->
  urlsplit canonical_url = Ok parsed ->
  fetch_json ("https://" ++ netloc parsed ++ "/.well-known/provenance")
    timeout = Body (JObj domain_doc) ->
  uses_event_chain domain_doc = false ->
  fetch_json (canonical_url ++ manifest_suffix domain_doc) timeout
  = Body (JObj manifest) ->
  canonicalize_artifact_url
    (py_str (dict_get manifest "artifact_url" (JStr ""))) = Ok canonical_url ->
  is_sha256_hex (strip (py_str (dict_get manifest "content_sha256" (JStr ""))))
  = true ->
  signature_required (flags_of domain_doc) = true ->
  verify_remote_artifact url timeout evaluated_at
  = Ok (if truthy (evidence manifest "signature" "value")
        then result2 VERDICT_UNVERIFIABLE
               ["cryptographic signature verification is not "
                ++ "implemented for v1.0 projection manifests"]
        else result2 VERDICT_POLICY_VIOLATION
               ["signature required but missing"])
  /\ verdict_of (verify_remote_artifact url timeout evaluated_at)
     <> Some VERDICT_VERIFIED.
Proof.
  intros Hcanon Hsplit Hpolicy Hlegacy Hfetch Hurl Hhash Hreq.
  assert (Hm : verify_manifest_path domain_doc canonical_url timeout
               = Ok (if truthy (evidence manifest "signature" "value")
                     then result2 VERDICT_UNVERIFIABLE
                            ["cryptographic signature verification is not "
                             ++ "implemented for v1.0 projection manifests"]
                     else result2 VERDICT_POLICY_VIOLATION
                            ["signature required but missing"])).
  { unfold verify_manifest_path. rewrite Hfetch.
    unfold py_get, bind. rewrite Hurl, String.eqb_refl. cbn [negb].
    rewrite Hhash. cbn [negb].
    unfold flags_of, policy_of in Hreq. cbn [signature_required] in Hreq.
    rewrite Hreq. unfold evidence.
    destruct (truthy (dict_get (dict_or_empty (dict_get manifest "signature"
                                                 JNull)) "value" JNull));
      reflexivity. }
  assert (Hv : verify_remote_artifact url timeout evaluated_at
               = verify_manifest_path domain_doc canonical_url timeout).
  { unfold verify_remote_artifact. rewrite Hcanon. unfold bind at 1.
    rewrite Hsplit. unfold bind at 1. rewrite Hpolicy.
    unfold py_get, bind. unfold uses_event_chain in Hlegacy.
    destruct (dict_get domain_doc "evidence_api" JNull); try reflexivity.
    rewrite andb_true_r in Hlegacy. now rewrite Hlegacy. }
  rewrite Hv, Hm. split; [reflexivity|].
  destruct (truthy (evidence manifest "signature" "value")); simpl;
    intros E; inversion E.
Qed.

(** C7, witness: a signed manifest on a legacy domain that requires
    signatures is [UNVERIFIABLE]. *)
Lemma legacy_signature_policy_never_verifies_witness :
  @verify_remote_artifact strict_parser example_network
    "HTTPS://Example.com:443/article" 10 june_2024
  = Ok (result2 VERDICT_UNVERIFIABLE
          ["cryptographic signature verification is not "
           ++ "implemented for v1.0 projection manifests"])
  /\ verdict_of (@verify_remote_artifact strict_parser example_network
                   "HTTPS://Example.com:443/article" 10 june_2024)
     <> Some VERDICT_VERIFIED.
Proof.
  apply (@legacy_signature_policy_never_verifies strict_parser
           example_network "HTTPS://Example.com:443/article"
           "https://example.com/article"
           (mk_split "https" "example.com" "/article" "" "") 10%Z june_2024
           legacy_policy signed_manifest);
    vm_compute; reflexivity.
Defined.

(** ** C8: the event hash *)

Lemma lookup_in (d : dict) (k : string) (v : json) :
  NoDup (map fst d) -> (lookup d k = Some v <-> In (k, v) d).
Proof.
  induction d as [|[k' v'] d IH]; simpl; intros Hnd.
  - split; [discriminate|contradiction].
  - inversion Hnd as [|? ? Hnotin Hnd']; subst.
    destruct (String.eqb_spec k' k) as [->|Hne].
    + split.
      * intros E. inversion E; subst. now left.
      * intros [E|Hin]; [now inversion E|].
        exfalso. apply Hnotin. change k with (fst (k, v)). now apply in_map.
    + rewrite (IH Hnd'). split; [now right|].
      intros [E|Hin]; [inversion E; contradiction|assumption].
Qed.

Lemma dict_pop_keys (d : dict) (k : string) :
  NoDup (map fst d) -> NoDup (map fst (dict_pop d k)).
Proof.
  unfold dict_pop. induction d as [|[k' v'] d IH]; simpl; intros Hnd.
  - constructor.
  - inversion Hnd as [|? ? Hnotin Hnd']; subst.
    destruct (negb (String.eqb k' k)); simpl; [|now apply IH].
    constructor; [|now apply IH].
    intros Hin. apply Hnotin. apply in_map_iff in Hin.
    destruct Hin as [kv [E Hin]]. apply filter_In in Hin.
    rewrite <- E. apply in_map. tauto.
Qed.

Lemma dict_pop_perm (e1 e2 : dict) (k : string) :
  NoDup (map fst e1) -> NoDup (map fst e2) ->
  (forall k', k' <> k -> lookup e1 k' = lookup e2 k') ->
  Permutation (dict_pop e1 k) (dict_pop e2 k).
Proof.
  intros Hnd1 Hnd2 Hagree.
  apply NoDup_Permutation.
  - eapply NoDup_map_inv. now apply dict_pop_keys.
  - eapply NoDup_map_inv. now apply dict_pop_keys.
  - intros [k' v]. unfold dict_pop. rewrite !filter_In. simpl.
    rewrite negb_true_iff, String.eqb_neq.
    rewrite <- (lookup_in e1 k' v Hnd1), <- (lookup_in e2 k' v Hnd2).
    split; intros [Hl Hne]; split; try assumption;
      [rewrite <- Hagree | rewrite Hagree]; assumption.
Qed.

Lemma canonical_object (fields : dict) :
  canonical_json_bytes (JObj fields) =
    "{" ++ join ","
             (map json_member
                (sort_keyed str_ltb
                   (map (fun kv => (fst kv, canonical_json_bytes (snd kv)))
                      fields))) ++ "}".
Proof.
  simpl. do 4 f_equal.
  induction fields as [|[k v] fields IH]; [reflexivity|].
  simpl. now rewrite IH.
Qed.

(** The canonical encoding of an object does not depend on the order of
    its members. *)
Lemma canonical_object_perm (d1 d2 : dict) :
  NoDup (map fst d1) -> Permutation d1 d2 ->
  canonical_json_bytes (JObj d1) = canonical_json_bytes (JObj d2).
Proof.
  intros Hnd Hp. rewrite !canonical_object. do 4 f_equal.
  apply (sort_keyed_perm_eq str_ltb str_ltb_irrefl str_ltb_trans
           str_ltb_total).
  - rewrite map_map. simpl. exact Hnd.
  - now apply Permutation_map.
Qed.

(** Overwriting the declared hash does not change the computed one. *)
Lemma event_hash_ignores_declared_hash (event : dict) (v : json) :
  compute_event_hash (dict_set event "event_hash" v)
  = compute_event_hash event.
Proof.
  unfold compute_event_hash. do 3 f_equal. unfold dict_pop.
  induction event as [|[k x] event IH]; simpl.
  - reflexivity.
  - destruct (String.eqb_spec k "event_hash") as [->|Hne]; simpl.
    + reflexivity.
    + apply String.eqb_neq in Hne. rewrite Hne. simpl. now rewrite IH.
Qed.

(** C8.  [compute_event_hash] is the SHA-256 hex digest of the canonical
    JSON encoding of the event without its [event_hash] member; hence two
    events that agree on every member other than [event_hash] have the same
    hash, whatever their [event_hash] and the order of their members. *)
Theorem event_hash_excludes_own_field (e1 e2 : dict) :
  NoDup (map fst e1) ->
  NoDup (map fst e2) ->
  (forall k, k <> "event_hash" -> lookup e1 k = lookup e2 k) ->
  compute_event_hash e1
  = sha256_hex (canonical_json_bytes (JObj (dict_pop e1 "event_hash")))
  /\ compute_event_hash e1 = compute_event_hash e2.
Proof.
  intros Hnd1 Hnd2 Hagree. split; [reflexivity|].
  unfold compute_event_hash. f_equal.
  apply canonical_object_perm.
  - now apply dict_pop_keys.
  - now apply dict_pop_perm.
Qed.

Lemma distinct_members (keys : list string) :
  (fix distinct (l : list string) : bool :=
     match l with
     | [] => true
     | k :: rest => (negb (existsb (String.eqb k) rest) && distinct rest)%bool
     end) keys = true ->
  NoDup keys.
Proof.
  induction keys as [|k keys IH]; intros Hd; [constructor|].
  apply andb_true_iff in Hd. destruct Hd as [Hk Hd].
  constructor; [|now apply IH].
  intros Hin. apply negb_true_iff in Hk.
  assert (Hex : existsb (String.eqb k) keys = true).
  { apply existsb_exists. exists k. split; [assumption|].
    apply String.eqb_refl. }
  congruence.
Qed.

(** C8, witness: the unsigned attestation and a copy with another declared
    hash and its members in reverse order. *)
Lemma event_hash_excludes_own_field_witness :
  compute_event_hash unsigned_attestation
  = sha256_hex
      (canonical_json_bytes (JObj (dict_pop unsigned_attestation "event_hash")))
  /\ compute_event_hash unsigned_attestation
     = compute_event_hash relabelled_attestation.
Proof.
  apply (event_hash_excludes_own_field unsigned_attestation
           relabelled_attestation).
  - apply distinct_members. vm_compute. reflexivity.
  - apply distinct_members. vm_compute. reflexivity.
  - intros k Hk. unfold unsigned_attestation, relabelled_attestation,
      attestation_body, str_field. cbn -[String.eqb].
    repeat match goal with
           | |- context [String.eqb ?a k] =>
               destruct (String.eqb_spec a k) as [<-|?];
               [first [now elim Hk | vm_compute; reflexivity]|]
           end.
    reflexivity.
Defined.

(** ** C9: re-canonicalizing a canonical URL *)

(** C9, the failing input.  The host of [http://[::1]/] is an IPv6 literal;
    [canonicalize_artifact_url] rebuilds the network location from
    [parsed.hostname], which has lost the brackets, and returns
    [http://::1/].  On that URL it raises [ValueError]: the text before the
    first colon of the network location is empty. *)
Theorem canonical_ipv6_url_is_rejected :
  canonicalize_artifact_url "http://[::1]/" = Ok "http://::1/"
  /\ canonicalize_artifact_url "http://::1/"
     = Raise (ValueError "URL host is missing").
Proof. split; vm_compute; reflexivity. Qed.

(** ** C1: exceptions that reach the caller *)

(** An events array with an element that is not an object makes the key
    function of [sorted] raise, before the loop and its own test for such
    elements are reached. *)
Lemma non_object_event_raises (events : list json) :
  Exists (fun evt => forall d, evt <> JObj d) events ->
  exists msg, canonical_order events = Raise (AttributeError msg).
Proof.
  intros Hex.
  assert (Hd : exists msg,
             decorate event_key events = Raise (AttributeError msg)).
  { induction events as [|evt events IH]; [inversion Hex|].
    destruct evt as [| | | | | |d]; try (eexists; reflexivity).
    inversion Hex as [? ? Hhd|? ? Htl]; subst; [now elim (Hhd d)|].
    destruct (IH Htl) as [msg Hmsg]. exists msg.
    cbn [decorate event_key py_get bind]. now rewrite Hmsg. }
  destruct Hd as [msg Hmsg]. exists msg.
  unfold canonical_order, sorted_by. now rewrite Hmsg.
Qed.

Lemma canonical_order_objects (events ordered : list json) :
  canonical_order events = Ok ordered ->
  Forall (fun evt => exists d, evt = JObj d) ordered.
Proof.
  unfold canonical_order, sorted_by. intros Hs.
  destruct (decorate event_key events) as [ks|] eqn:Hd; [|discriminate].
  simpl in Hs. inversion Hs; subst. clear Hs.
  assert (Hks : Forall (fun evt => exists d, evt = JObj d) (map snd ks)).
  { revert ks Hd. induction events as [|evt events IH]; intros ks Hd.
    - inversion Hd. constructor.
    - simpl in Hd. destruct evt as [| | | | | |d]; try discriminate.
      cbn [event_key py_get bind] in Hd.
      destruct (decorate event_key events) as [ks'|]; [|discriminate].
      inversion Hd; subst. simpl. constructor; [now exists d|now apply IH]. }
  eapply Permutation_Forall; [|exact Hks].
  apply Permutation_map, Permutation_sym, sort_keyed_perm.
Qed.

Section GuardFacts.
Context `{IsoParser}.
Variable flags : policy_flags.
Variable evaluated_at : Z.

Lemma check_link_message (index : nat) (prev : option string)
  (event_id : string) (prev_event_hash : json) (r : VerificationResult) :
  check_link index prev event_id prev_event_hash = Some r ->
  errors r <> ["event is not an object"].
Proof.
  unfold check_link. intros Hr.
  repeat match type of Hr with
         | context [if ?c then _ else _] => destruct c
         end;
    inversion Hr; subst; simpl; discriminate.
Qed.

Lemma check_payload_message (index : nat) (evt : dict)
  (event_id event_hash : string) (errs : list string)
  (r : VerificationResult) :
  check_payload flags index evt event_id event_hash errs = inl r ->
  errors r <> ["event is not an object"].
Proof.
  unfold check_payload. intros Hr.
  repeat match type of Hr with
         | context [if ?c then _ else _] => destruct c
         end;
    inversion Hr; subst; simpl; discriminate.
Qed.

Lemma check_event_message (index : nat) (st : walk_state) (d : dict)
  (r : VerificationResult) :
  check_event flags evaluated_at index st (JObj d) = Return r ->
  verdict r = VERDICT_INVALID_CHAIN ->
  errors r <> ["event is not an object"].
Proof.
  unfold check_event. intros Hr Hv.
  destruct (is_empty (event_id_of d) || is_empty (event_hash_of d))%bool.
  { inversion Hr; subst; simpl. discriminate. }
  destruct (check_link index (prev_hash st) (event_id_of d)
              (dict_get d "prev_event_hash" JNull)) as [r'|] eqn:Hlink.
  { inversion Hr; subst. eapply check_link_message; eassumption. }
  destruct (check_payload flags index d (event_id_of d) (event_hash_of d)
              (diagnostics st)) as [r'|errs] eqn:Hpay.
  { inversion Hr; subst. eapply check_payload_message; eassumption. }
  destruct (resolve_active evaluated_at index d (event_id_of d) (active st))
    as [stop|a] eqn:Hact; [|discriminate].
  subst stop. apply resolve_active_returns in Hact.
  destruct Hact as [[x Hx]|[r' [Hx [Hv' _]]]]; [discriminate|].
  inversion Hx; subst. rewrite Hv in Hv'. discriminate.
Qed.

End GuardFacts.

(** The result [INVALID_CHAIN], "event is not an object" of line 162 is
    never returned by [verify_chain]. *)
Lemma non_object_result_is_unreachable `{IsoParser}
  (domain_doc chain_doc : json) (evaluated_at : Z) (n : nat)
  (a : option string) :
  verify_chain domain_doc chain_doc evaluated_at
  <> Ok (mk_result VERDICT_INVALID_CHAIN ["event is not an object"] n a).
Proof.
  unfold verify_chain. destruct (py_get chain_doc "events" JNull) as [events|];
    [|discriminate]. cbn [bind].
  destruct events as [| | | | |items|]; try discriminate.
  destruct items as [|e items]; [discriminate|].
  destruct (canonical_order (e :: items)) as [ordered|] eqn:Hord;
    [|discriminate]. cbn [bind].
  destruct (py_get domain_doc "policy" JNull) as [policy|]; [|discriminate].
  cbn [bind]. apply canonical_order_objects in Hord.
  generalize (policy_of (dict_or_empty policy)) as flags.
  generalize (List.length ordered) as count. intros count flags.
  assert (Hw : forall index st,
             walk flags evaluated_at index st ordered
             <> Return (mk_result VERDICT_INVALID_CHAIN
                          ["event is not an object"] n a)).
  { induction Hord as [|evt ordered [d ->] Hord IH]; intros index st;
      [discriminate|].
    rewrite walk_cons.
    destruct (check_event flags evaluated_at index st (JObj d)) as [st'|r|x]
      eqn:Hevt; [apply IH| |discriminate].
    intros E. inversion E; subst. clear E.
    now apply check_event_message in Hevt. }
  destruct (walk flags evaluated_at 0 initial_state ordered) as [st|r|x]
    eqn:Hwalk; simpl.
  - destruct (diagnostics st); discriminate.
  - intros E. inversion E; subst. now apply Hw in Hwalk.
  - discriminate.
Qed.

Example manifest_without_artifact_url_raises :
  @verify_remote_artifact strict_parser empty_documents
    "https://example.com/article" 10 june_2024
  = Raise (ValueError "URL must include scheme and host").
Proof. vm_compute. reflexivity. Qed.

Example timestamp_overflow_is_not_caught :
  @verify_chain strict_parser no_policy (chain_of [ancient]) june_2024
  = Raise (OverflowError "date value out of range").
Proof. vm_compute. reflexivity. Qed.

(** C1, the failing inputs.  For every policy document and evaluation time,
    [verify_chain] on the chain document [{"events": [1]}] raises
    [AttributeError]; for every network, [verify_remote_artifact] on a URL
    without a scheme raises [ValueError]. *)
Theorem exceptions_reach_the_caller (parser : IsoParser) (net : Network)
  (domain_doc : json) (timeout evaluated_at : Z) :
  @verify_chain parser domain_doc (chain_of [JInt 1]) evaluated_at
  = Raise (AttributeError "'int' object has no attribute 'get'")
  /\ @verify_remote_artifact parser net "example.com/article" timeout
       evaluated_at
     = Raise (ValueError "URL must include scheme and host").
Proof. split; reflexivity. Qed.

(** * Further properties of the verifier *)

(** ** The shape of the results of [verify_chain] *)

Section ResultShape.
Context `{IsoParser}.
Variable flags : policy_flags.
Variable evaluated_at : Z.

Lemma check_link_shape (index : nat) (prev : option string)
  (event_id : string) (prev_event_hash : json) (r : VerificationResult) :
  check_link index prev event_id prev_event_hash = Some r ->
  exists v msg n, r = result3 v [msg] n.
Proof.
  unfold check_link. intros Hr.
  repeat match type of Hr with
         | context [if ?c then _ else _] => destruct c
         end;
    inversion Hr; subst; eauto.
Qed.

Lemma check_payload_shape (index : nat) (evt : dict)
  (event_id event_hash : string) (errs : list string)
  (r : VerificationResult) :
  check_payload flags index evt event_id event_hash errs = inl r ->
  exists v msg n, r = result3 v [msg] n.
Proof.
  unfold check_payload. intros Hr.
  repeat match type of Hr with
         | context [if ?c then _ else _] => destruct c
         end;
    inversion Hr; subst; eauto.
Qed.

Lemma resolve_active_shape (index : nat) (evt : dict) (event_id : string)
  (current : option string) (r : VerificationResult) :
  resolve_active evaluated_at index evt event_id current = inl (Return r) ->
  exists v msg n, r = result3 v [msg] n.
Proof.
  unfold resolve_active. intros Hr.
  repeat match type of Hr with
         | context [if ?c then _ else _] => destruct c
         | context [match ?x with _ => _ end] => destruct x
         end;
    inversion Hr; subst; eauto.
Qed.

(** A result returned from inside the loop has exactly one diagnostic and
    no active event. *)
Lemma check_event_shape (index : nat) (st : walk_state) (evt : json)
  (r : VerificationResult) :
  check_event flags evaluated_at index st evt = Return r ->
  exists v msg n, r = result3 v [msg] n.
Proof.
  unfold check_event. intros Hr.
  destruct evt as [| | | | | |e]; try (inversion Hr; subst; now eauto).
  destruct (is_empty (event_id_of e) || is_empty (event_hash_of e))%bool.
  { inversion Hr; subst; eauto. }
  destruct (check_link index (prev_hash st) (event_id_of e)
              (dict_get e "prev_event_hash" JNull)) as [r'|] eqn:Hlink.
  { inversion Hr; subst. eapply check_link_shape; eassumption. }
  destruct (check_payload flags index e (event_id_of e) (event_hash_of e)
              (diagnostics st)) as [r'|errs] eqn:Hpay.
  { inversion Hr; subst. eapply check_payload_shape; eassumption. }
  destruct (resolve_active evaluated_at index e (event_id_of e) (active st))
    as [stop|a] eqn:Hact; [|discriminate].
  subst stop. eapply resolve_active_shape; eassumption.
Qed.

Lemma walk_return_shape (l : list json) (index : nat) (st : walk_state)
  (r : VerificationResult) :
  walk flags evaluated_at index st l = Return r ->
  exists v msg n, r = result3 v [msg] n.
Proof.
  revert index st. induction l as [|evt l IH]; intros index st.
  - discriminate.
  - rewrite walk_cons.
    destruct (check_event flags evaluated_at index st evt) eqn:Hevt;
      intros Hr.
    + eapply IH; eassumption.
    + inversion Hr; subst. eapply check_event_shape; eassumption.
    + discriminate.
Qed.

(** The count reported from inside the loop lies between the index the
    loop was entered at and the index after the last event. *)
Lemma walk_return_count (l : list json) (index : nat) (st : walk_state)
  (r : VerificationResult) :
  walk flags evaluated_at index st l = Return r ->
  index <= checked_events r <= index + List.length l.
Proof.
  revert index st. induction l as [|evt l IH]; intros index st.
  - discriminate.
  - rewrite walk_cons.
    destruct (check_event flags evaluated_at index st evt) eqn:Hevt;
      intros Hr.
    + apply IH in Hr. simpl. lia.
    + inversion Hr; subst. apply check_event_returns in Hevt.
      destruct Hevt as [_ Hc]. rewrite Hc. simpl.
      destruct (lacks_identity evt); lia.
    + discriminate.
Qed.

End ResultShape.

(** How a call of [verify_chain] that returns has run. *)
Lemma verify_chain_cases `{IsoParser} (domain_doc chain_doc : json)
  (evaluated_at : Z) (r : VerificationResult) :
  verify_chain domain_doc chain_doc evaluated_at = Ok r ->
  r = result2 VERDICT_INVALID_CHAIN ["events array missing or empty"]
  \/ exists e items ordered policy,
       py_get chain_doc "events" JNull = Ok (JArr (e :: items))
       /\ canonical_order (e :: items) = Ok ordered
       /\ py_get domain_doc "policy" JNull = Ok policy
       /\ (walk (policy_of (dict_or_empty policy)) evaluated_at 0
             initial_state ordered = Return r
           \/ exists st,
               walk (policy_of (dict_or_empty policy)) evaluated_at 0
                 initial_state ordered = Next st
               /\ r = mk_result
                        (match diagnostics st with
                         | [] => VERDICT_VERIFIED
                         | _ :: _ => VERDICT_UNVERIFIABLE
                         end)
                        (diagnostics st) (List.length ordered) (active st)).
Proof.
  unfold verify_chain. intros Hr.
  destruct (py_get chain_doc "events" JNull) as [events|] eqn:Hev;
    [|discriminate].
  cbn [bind] in Hr.
  destruct events as [| | | | |items|];
    try (inversion Hr; now left).
  destruct items as [|e items]; [inversion Hr; now left|].
  destruct (canonical_order (e :: items)) as [ordered|] eqn:Hord;
    [|discriminate].
  cbn [bind] in Hr.
  destruct (py_get domain_doc "policy" JNull) as [policy|] eqn:Hpol;
    [|discriminate].
  cbn [bind] in Hr. right. exists e, items, ordered, policy.
  split; [reflexivity|]. split; [exact Hord|]. split; [reflexivity|].
  destruct (walk (policy_of (dict_or_empty policy)) evaluated_at 0
              initial_state ordered) as [st|r'|x] eqn:Hw; simpl in Hr.
  - right. exists st. split; [reflexivity|].
    destruct (diagnostics st) eqn:Hd; inversion Hr; subst; now rewrite ?Hd.
  - left. now inversion Hr.
  - discriminate.
Qed.

(** X1.  Whatever [verify_chain] returns carries one of five verdicts;
    [UNDECLARED] is never among them. *)
Theorem verify_chain_verdict_domain `{IsoParser} (domain_doc chain_doc : json)
  (evaluated_at : Z) (r : VerificationResult) :
  verify_chain domain_doc chain_doc evaluated_at = Ok r ->
  verdict r = VERDICT_VERIFIED \/ verdict r = VERDICT_UNVERIFIABLE
  \/ verdict r = VERDICT_INVALID_INPUT \/ verdict r = VERDICT_INVALID_CHAIN
  \/ verdict r = VERDICT_POLICY_VIOLATION.
Proof.
  intros Hr. apply verify_chain_cases in Hr.
  destruct Hr as [->|[e [items [ordered [policy [_ [_ [_ Hw]]]]]]]].
  - simpl. tauto.
  - destruct Hw as [Hw|[st [_ ->]]].
    + apply walk_return_verdict in Hw. tauto.
    + simpl. destruct (diagnostics st); tauto.
Qed.

Lemma verify_chain_verdict_domain_witness :
  verdict (result3 VERDICT_INVALID_CHAIN ["event_id or event_hash missing"] 1)
  = VERDICT_VERIFIED
  \/ verdict (result3 VERDICT_INVALID_CHAIN
                ["event_id or event_hash missing"] 1) = VERDICT_UNVERIFIABLE
  \/ verdict (result3 VERDICT_INVALID_CHAIN
                ["event_id or event_hash missing"] 1) = VERDICT_INVALID_INPUT
  \/ verdict (result3 VERDICT_INVALID_CHAIN
                ["event_id or event_hash missing"] 1) = VERDICT_INVALID_CHAIN
  \/ verdict (result3 VERDICT_INVALID_CHAIN
                ["event_id or event_hash missing"] 1)
     = VERDICT_POLICY_VIOLATION.
Proof.
  apply (@verify_chain_verdict_domain strict_parser no_policy
           (chain_of [anonymous_second; link_first]) june_2024).
  vm_compute. reflexivity.
Defined.

(** X2.  A result of [verify_chain] is [VERIFIED] exactly when it carries
    no diagnostic. *)
Theorem verify_chain_verified_iff_clean `{IsoParser}
  (domain_doc chain_doc : json) (evaluated_at : Z) (r : VerificationResult) :
  verify_chain domain_doc chain_doc evaluated_at = Ok r ->
  (verdict r = VERDICT_VERIFIED <-> errors r = []).
Proof.
  intros Hr. apply verify_chain_cases in Hr.
  destruct Hr as [->|[e [items [ordered [policy [_ [_ [_ Hw]]]]]]]].
  - simpl. split; discriminate.
  - destruct Hw as [Hw|[st [_ ->]]].
    + pose proof (walk_return_verdict _ _ _ _ _ _ Hw) as Hv.
      apply walk_return_shape in Hw. destruct Hw as [v [msg [n ->]]].
      simpl in *. split; [|discriminate].
      intros E. rewrite E in Hv. destruct Hv as [Hv|[Hv|Hv]]; discriminate Hv.
    + simpl. destruct (diagnostics st); split; try reflexivity; discriminate.
Qed.

Lemma verify_chain_verified_iff_clean_witness :
  verdict (mk_result VERDICT_VERIFIED [] 2 (Some "b")) = VERDICT_VERIFIED
  <-> errors (mk_result VERDICT_VERIFIED [] 2 (Some "b")) = [].
Proof.
  apply (@verify_chain_verified_iff_clean strict_parser no_policy
           (chain_of [stamped_second; stamped_first]) june_2024).
  vm_compute. reflexivity.
Defined.

(** X3.  A result of [verify_chain] other than [VERIFIED] and
    [UNVERIFIABLE] carries exactly one diagnostic and no active event,
    whatever the events before the failing one resolved. *)
Theorem failed_chain_has_no_active_event `{IsoParser}
  (domain_doc chain_doc : json) (evaluated_at : Z) (r : VerificationResult) :
  verify_chain domain_doc chain_doc evaluated_at = Ok r ->
  ~ accepted r ->
  active_event_id r = None /\ exists msg, errors r = [msg].
Proof.
  intros Hr Hna. apply verify_chain_cases in Hr.
  destruct Hr as [->|[e [items [ordered [policy [_ [_ [_ Hw]]]]]]]].
  - simpl. eauto.
  - destruct Hw as [Hw|[st [_ ->]]].
    + apply walk_return_shape in Hw. destruct Hw as [v [msg [n ->]]].
      simpl. eauto.
    + exfalso. apply Hna. unfold accepted. simpl.
      destruct (diagnostics st); auto.
Qed.

Lemma failed_chain_has_no_active_event_witness :
  active_event_id
    (result3 VERDICT_INVALID_INPUT ["invalid RFC3339 timestamp: garbage"] 2)
  = None
  /\ exists msg,
      errors (result3 VERDICT_INVALID_INPUT
                ["invalid RFC3339 timestamp: garbage"] 2) = [msg].
Proof.
  apply (@failed_chain_has_no_active_event strict_parser no_policy
           (chain_of [JObj garbled_second; stamped_first]) june_2024).
  - vm_compute. reflexivity.
  - unfold accepted. simpl. intros [E|E]; discriminate E.
Defined.

(** X4.  [checked_events] never exceeds the number of events of the chain,
    and equals it when the walk is completed. *)
Theorem checked_events_within_chain `{IsoParser} (domain_doc : json)
  (chain : dict) (events : list json) (evaluated_at : Z)
  (r : VerificationResult) :
  lookup chain "events" = Some (JArr events) ->
  verify_chain domain_doc (JObj chain) evaluated_at = Ok r ->
  checked_events r <= List.length events
  /\ (accepted r -> checked_events r = List.length events).
Proof.
  intros Hl Hr. apply verify_chain_cases in Hr.
  destruct Hr as [->|[e [items [ordered [policy [Hev [Hord [_ Hw]]]]]]]].
  - simpl. split; [lia|]. intros [E|E]; discriminate E.
  - simpl in Hev. unfold dict_get in Hev. rewrite Hl in Hev.
    inversion Hev; subst events. clear Hev.
    apply canonical_order_length in Hord.
    destruct Hw as [Hw|[st [_ ->]]].
    + pose proof (walk_return_verdict _ _ _ _ _ _ Hw) as Hv.
      apply walk_return_count in Hw. split; [lia|].
      intros [E|E]; rewrite E in Hv;
        destruct Hv as [Hv|[Hv|Hv]]; discriminate Hv.
    + cbn [checked_events]. split; [lia|]. intros _. exact Hord.
Qed.

Lemma checked_events_within_chain_witness :
  checked_events
    (result3 VERDICT_INVALID_CHAIN ["event_id or event_hash missing"] 1)
  <= List.length [anonymous_second; link_first]
  /\ (accepted
        (result3 VERDICT_INVALID_CHAIN ["event_id or event_hash missing"] 1)
      -> checked_events
           (result3 VERDICT_INVALID_CHAIN
              ["event_id or event_hash missing"] 1)
         = List.length [anonymous_second; link_first]).
Proof.
  apply (@checked_events_within_chain strict_parser no_policy
           [("events", JArr [anonymous_second; link_first])]
           [anonymous_second; link_first] june_2024).
  - reflexivity.
  - vm_compute. reflexivity.
Defined.

(** X5.  When the chain document has no [events] member, or one that is
    not a non-empty array, [verify_chain] returns [INVALID_CHAIN] with no
    event checked, without looking at the policy document. *)
Theorem missing_events_is_invalid_chain `{IsoParser} (domain_doc : json)
  (chain : dict) (evaluated_at : Z) :
  (forall e items, lookup chain "events" <> Some (JArr (e :: items))) ->
  verify_chain domain_doc (JObj chain) evaluated_at
  = Ok (mk_result VERDICT_INVALID_CHAIN ["events array missing or empty"]
          0 None).
Proof.
  intros Hno. unfold verify_chain. cbn [py_get bind]. unfold dict_get.
  destruct (lookup chain "events") as [v|] eqn:Hl; [|reflexivity].
  destruct v as [| | | | |items|]; try reflexivity.
  destruct items as [|e items]; [reflexivity|].
  now elim (Hno e items).
Qed.

Lemma missing_events_is_invalid_chain_witness :
  @verify_chain strict_parser (JInt 7)
    (JObj [("events", JStr "none"); ("artifact_url", JNull)]) june_2024
  = Ok (mk_result VERDICT_INVALID_CHAIN ["events array missing or empty"]
          0 None).
Proof.
  apply (@missing_events_is_invalid_chain strict_parser (JInt 7)
           [("events", JStr "none"); ("artifact_url", JNull)] june_2024).
  intros e items E. vm_compute in E. discriminate E.
Defined.

(** ** What an accepted chain guarantees *)

Lemma decorate_snd {A K : Type} (key : A -> result K) (l : list A) ks :
  decorate key l = Ok ks -> map snd ks = l.
Proof.
  revert ks. induction l as [|x l IH]; simpl; intros ks Hd.
  - now inversion Hd.
  - destruct (key x); [|discriminate]. simpl in Hd.
    destruct (decorate key l); [|discriminate]. simpl in Hd.
    inversion Hd; subst. simpl. f_equal. now apply IH.
Qed.

(** The canonical order holds the events of the array, each once. *)
Lemma canonical_order_perm (events ordered : list json) :
  canonical_order events = Ok ordered -> Permutation ordered events.
Proof.
  unfold canonical_order, sorted_by. intros Hs.
  destruct (decorate event_key events) as [ks|] eqn:Hd; [|discriminate].
  simpl in Hs. inversion Hs; subst.
  rewrite <- (decorate_snd _ _ _ Hd).
  apply Permutation_map, sort_keyed_perm.
Qed.

Section AcceptedFacts.
Context `{IsoParser}.
Variable flags : policy_flags.
Variable evaluated_at : Z.

(** What the body of the loop has established when it goes on. *)
Lemma check_event_passes (index : nat) (st st' : walk_state) (evt : json) :
  check_event flags evaluated_at index st evt = Next st' ->
  exists e,
    evt = JObj e
    /\ identified e = true
    /\ linked index st e = true
    /\ check_payload flags index e (event_id_of e) (event_hash_of e)
         (diagnostics st) = inr (diagnostics st')
    /\ prev_hash st' = Some (event_hash_of e).
Proof.
  unfold check_event, identified, linked. intros Hn.
  destruct evt as [| | | | | |e]; try discriminate.
  exists e. split; [reflexivity|].
  destruct (is_empty (event_id_of e) || is_empty (event_hash_of e))%bool;
    [discriminate|].
  destruct (check_link index (prev_hash st) (event_id_of e)
              (dict_get e "prev_event_hash" JNull)); [discriminate|].
  destruct (check_payload flags index e (event_id_of e) (event_hash_of e)
              (diagnostics st)) as [r|errs]; [discriminate|].
  destruct (resolve_active evaluated_at index e (event_id_of e) (active st))
    as [stop|a] eqn:Hact.
  - subst stop. apply resolve_active_returns in Hact.
    destruct Hact as [[x Hx]|[r [Hx _]]]; discriminate.
  - inversion Hn; subst; simpl. auto.
Qed.

Lemma linked_rule (index : nat) (st : walk_state) (e : dict) :
  linked index st e = true ->
  if Nat.eqb index 0
  then null_hash (dict_get e "prev_event_hash" JNull) = true
  else eq_opt_str (dict_get e "prev_event_hash" JNull) (prev_hash st) = true.
Proof.
  unfold linked, check_link.
  destruct (Nat.eqb index 0).
  - destruct (null_hash (dict_get e "prev_event_hash" JNull));
      [reflexivity|discriminate].
  - destruct (eq_opt_str (dict_get e "prev_event_hash" JNull) (prev_hash st));
      [reflexivity|discriminate].
Qed.

Lemma accepted_payload_hash (index : nat) (e : dict) (errs errs' : list string) :
  check_payload flags index e (event_id_of e) (event_hash_of e) errs
  = inr errs' ->
  full_payload e = true -> hash_consistent e = true.
Proof.
  unfold check_payload, hash_consistent. intros Hp Hfull. rewrite Hfull in Hp.
  destruct (String.eqb (compute_event_hash e) (event_hash_of e));
    [reflexivity|discriminate].
Qed.

Lemma walk_sound (l : list json) (index : nat) (st st' : walk_state) :
  walk flags evaluated_at index st l = Next st' ->
  chain_sound index (prev_hash st) l.
Proof.
  revert index st. induction l as [|evt l IH]; intros index st; [easy|].
  rewrite walk_cons.
  destruct (check_event flags evaluated_at index st evt) as [st1| |] eqn:Hevt;
    try discriminate.
  intros Hn. apply IH in Hn. apply check_event_passes in Hevt.
  destruct Hevt as [e [-> [Hid [Hlink [Hpay Hprev]]]]].
  simpl. exists e. repeat split; try assumption.
  - now apply linked_rule.
  - eapply accepted_payload_hash; eassumption.
  - now rewrite <- Hprev.
Qed.

(** After a walk that ends on the event [b], the hash carried on is the
    declared hash of [b]. *)
Lemma walk_last_hash (pre : list json) (b : dict) (index : nat)
  (st st' : walk_state) :
  walk flags evaluated_at index st (pre ++ [JObj b])%list = Next st' ->
  prev_hash st' = Some (event_hash_of b).
Proof.
  rewrite walk_app.
  destruct (walk flags evaluated_at index st pre) as [st1| |];
    try discriminate.
  rewrite walk_cons.
  destruct (check_event flags evaluated_at (index + List.length pre) st1
              (JObj b)) as [st2| |] eqn:Hevt; try discriminate.
  simpl. intros Hn. inversion Hn; subst.
  apply check_event_passes in Hevt.
  destruct Hevt as [e [E [_ [_ [_ Hprev]]]]]. now inversion E; subst.
Qed.

End AcceptedFacts.

(** X6.  A chain that [verify_chain] accepts ([VERIFIED] or
    [UNVERIFIABLE]) is sound in its canonical order: every event has an
    [event_id] and an [event_hash], the first has no [prev_event_hash],
    every later one carries the declared hash of the event before it, and
    every full-payload event declares the hash recomputed from it. *)
Theorem accepted_chain_is_sound `{IsoParser} (domain_doc : json)
  (chain : dict) (events ordered : list json) (evaluated_at : Z)
  (r : VerificationResult) :
  lookup chain "events" = Some (JArr events) ->
  canonical_order events = Ok ordered ->
  verify_chain domain_doc (JObj chain) evaluated_at = Ok r ->
  accepted r ->
  chain_sound 0 None ordered.
Proof.
  intros Hl Hord Hr Hacc. apply verify_chain_cases in Hr.
  destruct Hr as [->|[e [items [ordered' [policy [Hev [Hord' [_ Hw]]]]]]]].
  - destruct Hacc as [E|E]; discriminate E.
  - simpl in Hev. unfold dict_get in Hev. rewrite Hl in Hev.
    inversion Hev; subst events. rewrite Hord in Hord'.
    inversion Hord'; subst ordered'.
    destruct Hw as [Hw|[st [Hw _]]].
    + apply walk_return_verdict in Hw.
      destruct Hacc as [E|E]; rewrite E in Hw;
        destruct Hw as [Hw|[Hw|Hw]]; discriminate Hw.
    + apply walk_sound in Hw. exact Hw.
Qed.

Lemma accepted_chain_is_sound_witness :
  chain_sound 0 None [link_first; link_second].
Proof.
  apply (@accepted_chain_is_sound strict_parser no_policy
           [("events", JArr [link_second; link_first])]
           [link_second; link_first] [link_first; link_second] june_2024
           (mk_result VERDICT_VERIFIED [] 2 None)).
  - reflexivity.
  - vm_compute. reflexivity.
  - vm_compute. reflexivity.
  - left. reflexivity.
Defined.

(** X7.  An event whose [prev_event_hash] is not the declared hash of the
    event before it in canonical order makes the chain [INVALID_CHAIN], the
    event being counted. *)
Theorem broken_link_is_invalid `{IsoParser} (domain_doc chain : dict)
  (events pre post : list json) (before evt : dict) (st : walk_state)
  (evaluated_at : Z) :
  lookup chain "events" = Some (JArr events) ->
  canonical_order events = Ok (pre ++ JObj before :: JObj evt :: post)%list ->
  walk (flags_of domain_doc) evaluated_at 0 initial_state
    (pre ++ [JObj before])%list = Next st ->
  identified evt = true ->
  eq_str (dict_get evt "prev_event_hash" JNull) (event_hash_of before)
  = false ->
  verify_chain (JObj domain_doc) (JObj chain) evaluated_at
  = Ok (result3 VERDICT_INVALID_CHAIN
          ["prev_event_hash mismatch at " ++ event_id_of evt]
          (List.length pre + 2)).
Proof.
  intros Hl Hord Hpre Hid Hneq.
  pose proof (walk_last_hash _ _ _ _ _ _ _ Hpre) as Hprev.
  eapply verify_chain_returns_at with (pre := (pre ++ [JObj before])%list)
                                      (post := post); try eassumption.
  - rewrite <- app_assoc. exact Hord.
  - unfold check_event. unfold identified in Hid. apply negb_true_iff in Hid.
    rewrite Hid. unfold check_link. rewrite Hprev.
    rewrite length_app. simpl List.length.
    replace (Nat.eqb (List.length pre + 1) 0) with false
      by (symmetry; apply Nat.eqb_neq; lia).
    simpl eq_opt_str. rewrite Hneq. simpl negb. cbv iota.
    do 2 f_equal. lia.
Qed.

Lemma broken_link_is_invalid_witness :
  @verify_chain strict_parser no_policy
    (chain_of [JObj garbled_second; JObj other_genesis]) june_2024
  = Ok (result3 VERDICT_INVALID_CHAIN ["prev_event_hash mismatch at b"] 2).
Proof.
  apply (@broken_link_is_invalid strict_parser []
           [("events", JArr [JObj garbled_second; JObj other_genesis])]
           [JObj garbled_second; JObj other_genesis] [] []
           other_genesis garbled_second (mk_state (Some "h0") None [])
           june_2024);
    vm_compute; reflexivity.
Defined.

(** X8.  A full-payload event whose declared [event_hash] is not the hash
    recomputed from it makes the chain [INVALID_CHAIN], the event being
    counted. *)
Theorem tampered_payload_is_invalid `{IsoParser} (domain_doc chain : dict)
  (events pre post : list json) (evt : dict) (st : walk_state)
  (evaluated_at : Z) :
  lookup chain "events" = Some (JArr events) ->
  canonical_order events = Ok (pre ++ JObj evt :: post)%list ->
  walk (flags_of domain_doc) evaluated_at 0 initial_state pre = Next st ->
  identified evt = true ->
  linked (List.length pre) st evt = true ->
  full_payload evt = true ->
  hash_consistent evt = false ->
  verify_chain (JObj domain_doc) (JObj chain) evaluated_at
  = Ok (result3 VERDICT_INVALID_CHAIN
          ["event_hash mismatch at " ++ event_id_of evt]
          (List.length pre + 1)).
Proof.
  intros Hl Hord Hpre Hid Hlink Hfull Hhash.
  eapply verify_chain_returns_at; try eassumption.
  unfold check_event. unfold identified in Hid. apply negb_true_iff in Hid.
  rewrite Hid. unfold linked in Hlink.
  destruct (check_link (List.length pre) (prev_hash st) (event_id_of evt)
              (dict_get evt "prev_event_hash" JNull)); [discriminate|].
  unfold check_payload. unfold hash_consistent in Hhash.
  rewrite Hfull, Hhash. reflexivity.
Qed.

Lemma tampered_payload_is_invalid_witness :
  @verify_chain strict_parser no_policy
    (chain_of [JObj relabelled_attestation]) june_2024
  = Ok (result3 VERDICT_INVALID_CHAIN ["event_hash mismatch at att-1"] 1).
Proof.
  apply (@tampered_payload_is_invalid strict_parser []
           [("events", JArr [JObj relabelled_attestation])]
           [JObj relabelled_attestation] [] [] relabelled_attestation
           initial_state june_2024);
    vm_compute; reflexivity.
Defined.

(** X9.  A full-payload attestation event that passes the structural checks
    and the signature test, but has no [timestamp.value] while the policy
    requires a timestamp, makes the chain [POLICY_VIOLATION]. *)
Theorem missing_timestamp_violates_policy `{IsoParser}
  (domain_doc chain : dict) (events pre post : list json) (evt : dict)
  (st : walk_state) (evaluated_at : Z) :
  lookup chain "events" = Some (JArr events) ->
  canonical_order events = Ok (pre ++ JObj evt :: post)%list ->
  walk (flags_of domain_doc) evaluated_at 0 initial_state pre = Next st ->
  identified evt = true ->
  linked (List.length pre) st evt = true ->
  full_payload evt = true ->
  hash_consistent evt = true ->
  attestation_type evt = true ->
  (signature_required (flags_of domain_doc) = false
   \/ truthy (evidence evt "signature" "value") = true) ->
  timestamp_required (flags_of domain_doc) = true ->
  truthy (evidence evt "timestamp" "value") = false ->
  verify_chain (JObj domain_doc) (JObj chain) evaluated_at
  = Ok (result3 VERDICT_POLICY_VIOLATION
          ["timestamp missing for required event " ++ event_id_of evt]
          (List.length pre + 1)).
Proof.
  intros Hl Hord Hpre Hid Hlink Hfull Hhash Hatt Hsig Hreq Hts.
  eapply verify_chain_returns_at; try eassumption.
  unfold check_event. unfold identified in Hid. apply negb_true_iff in Hid.
  rewrite Hid. unfold linked in Hlink.
  destruct (check_link (List.length pre) (prev_hash st) (event_id_of evt)
              (dict_get evt "prev_event_hash" JNull)); [discriminate|].
  unfold check_payload. unfold hash_consistent in Hhash.
  rewrite Hfull, Hhash, Hatt, Hreq, Hts.
  destruct Hsig as [Hsig|Hsig]; rewrite Hsig; simpl;
    [|rewrite andb_false_r]; reflexivity.
Qed.

Lemma missing_timestamp_violates_policy_witness :
  @verify_chain strict_parser (JObj timestamp_policy)
    (chain_of [JObj unsigned_attestation]) june_2024
  = Ok (result3 VERDICT_POLICY_VIOLATION
          ["timestamp missing for required event att-1"] 1).
Proof.
  apply (@missing_timestamp_violates_policy strict_parser timestamp_policy
           [("events", JArr [JObj unsigned_attestation])]
           [JObj unsigned_attestation] [] [] unsigned_attestation
           initial_state june_2024);
    [vm_compute; reflexivity .. | left; vm_compute; reflexivity
     | vm_compute; reflexivity | vm_compute; reflexivity].
Defined.

(** X10.  A full-payload attestation event that passes the structural
    checks, the signature test and the timestamp test, but has no
    [transparency.entry_id] while the policy requires transparency
    anchoring, makes the chain [POLICY_VIOLATION]. *)
Theorem missing_transparency_violates_policy `{IsoParser}
  (domain_doc chain : dict) (events pre post : list json) (evt : dict)
  (st : walk_state) (evaluated_at : Z) :
  lookup chain "events" = Some (JArr events) ->
  canonical_order events = Ok (pre ++ JObj evt :: post)%list ->
  walk (flags_of domain_doc) evaluated_at 0 initial_state pre = Next st ->
  identified evt = true ->
  linked (List.length pre) st evt = true ->
  full_payload evt = true ->
  hash_consistent evt = true ->
  attestation_type evt = true ->
  (signature_required (flags_of domain_doc) = false
   \/ truthy (evidence evt "signature" "value") = true) ->
  (timestamp_required (flags_of domain_doc) = false
   \/ truthy (evidence evt "timestamp" "value") = true) ->
  transparency_required (flags_of domain_doc) = true ->
  truthy (evidence evt "transparency" "entry_id") = false ->
  verify_chain (JObj domain_doc) (JObj chain) evaluated_at
  = Ok (result3 VERDICT_POLICY_VIOLATION
          ["transparency proof missing for required event "
           ++ event_id_of evt] (List.length pre + 1)).
Proof.
  intros Hl Hord Hpre Hid Hlink Hfull Hhash Hatt Hsig Hts Hreq Htr.
  eapply verify_chain_returns_at; try eassumption.
  unfold check_event. unfold identified in Hid. apply negb_true_iff in Hid.
  rewrite Hid. unfold linked in Hlink.
  destruct (check_link (List.length pre) (prev_hash st) (event_id_of evt)
              (dict_get evt "prev_event_hash" JNull)); [discriminate|].
  unfold check_payload. unfold hash_consistent in Hhash.
  rewrite Hfull, Hhash, Hatt, Hreq, Htr.
  destruct Hsig as [Hsig|Hsig]; destruct Hts as [Hts|Hts];
    rewrite Hsig, Hts; simpl; rewrite ?andb_false_r; reflexivity.
Qed.

Lemma missing_transparency_violates_policy_witness :
  @verify_chain strict_parser (JObj transparency_policy)
    (chain_of [JObj unsigned_attestation]) june_2024
  = Ok (result3 VERDICT_POLICY_VIOLATION
          ["transparency proof missing for required event att-1"] 1).
Proof.
  apply (@missing_transparency_violates_policy strict_parser
           transparency_policy
           [("events", JArr [JObj unsigned_attestation])]
           [JObj unsigned_attestation] [] [] unsigned_attestation
           initial_state june_2024);
    [vm_compute; reflexivity .. | left; vm_compute; reflexivity
     | left; vm_compute; reflexivity
     | vm_compute; reflexivity | vm_compute; reflexivity].
Defined.

(** ** Policies and the final verdict *)

Section SignaturePolicy.
Context `{IsoParser}.
Variable flags : policy_flags.
Variable evaluated_at : Z.
Hypothesis required : signature_required flags = true.

(** Under a signature policy a full-payload attestation that is let
    through leaves a diagnostic; diagnostics are never dropped. *)
Lemma check_payload_diagnostics (index : nat) (e : dict)
  (errs errs' : list string) :
  check_payload flags index e (event_id_of e) (event_hash_of e) errs
  = inr errs' ->
  (errs <> [] \/ binding_attestation (JObj e) = true) -> errs' <> [].
Proof.
  unfold check_payload, binding_attestation. rewrite required. intros Hp Hor.
  destruct (full_payload e).
  - destruct (negb (String.eqb (compute_event_hash e) (event_hash_of e)));
      [discriminate|].
    destruct (attestation_type e).
    + simpl in Hp.
      destruct (truthy (evidence e "signature" "value")); simpl in Hp;
        [|discriminate].
      repeat match type of Hp with
             | context [if ?c then _ else _] => destruct c
             end; try discriminate.
      inversion Hp. intros E. now apply app_eq_nil in E.
    + inversion Hp; subst. destruct Hor as [Hne|Hb]; [exact Hne|].
      discriminate Hb.
  - inversion Hp; subst. destruct Hor as [Hne|Hb]; [exact Hne|].
    discriminate Hb.
Qed.

Lemma walk_diagnostics (l : list json) (index : nat) (st st' : walk_state) :
  walk flags evaluated_at index st l = Next st' ->
  (diagnostics st <> [] \/ existsb binding_attestation l = true) ->
  diagnostics st' <> [].
Proof.
  revert index st. induction l as [|evt l IH]; intros index st.
  - simpl. intros Hn [Hne|Hb]; [now inversion Hn; subst|discriminate].
  - rewrite walk_cons.
    destruct (check_event flags evaluated_at index st evt) as [st1| |]
      eqn:Hevt; try discriminate.
    intros Hn Hor. apply (IH _ _ Hn).
    apply check_event_passes in Hevt.
    destruct Hevt as [e [-> [_ [_ [Hpay _]]]]].
    simpl existsb in Hor. rewrite orb_true_iff in Hor.
    destruct (existsb binding_attestation l); [now right|]. left.
    apply (check_payload_diagnostics _ _ _ _ Hpay).
    destruct Hor as [Hne|[Hb|Hb]]; auto. discriminate.
Qed.

End SignaturePolicy.

Lemma existsb_perm {A : Type} (f : A -> bool) (l l' : list A) :
  Permutation l l' -> existsb f l = true -> existsb f l' = true.
Proof.
  intros Hp. rewrite !existsb_exists. intros [x [Hin Hf]].
  exists x. split; [|exact Hf]. eapply Permutation_in; eassumption.
Qed.

(** X11.  Under a policy that requires signatures, a chain holding a
    full-payload attestation event is never [VERIFIED]: signatures are not
    checked cryptographically, so the best verdict is [UNVERIFIABLE]. *)
Theorem signature_policy_never_verifies_attestation `{IsoParser}
  (domain_doc chain : dict) (events : list json) (evaluated_at : Z) :
  lookup chain "events" = Some (JArr events) ->
  signature_required (flags_of domain_doc) = true ->
  existsb binding_attestation events = true ->
  verdict_of (verify_chain (JObj domain_doc) (JObj chain) evaluated_at)
  <> Some VERDICT_VERIFIED.
Proof.
  intros Hl Hreq Hex.
  destruct (verify_chain (JObj domain_doc) (JObj chain) evaluated_at)
    as [r|x] eqn:Hr; [|discriminate].
  apply verify_chain_cases in Hr. simpl.
  destruct Hr as [->|[e [items [ordered [policy [Hev [Hord [Hpol Hw]]]]]]]].
  - discriminate.
  - simpl in Hev, Hpol. unfold dict_get in Hev. rewrite Hl in Hev.
    inversion Hev; subst events. inversion Hpol; subst policy.
    fold (flags_of domain_doc) in Hw.
    destruct Hw as [Hw|[st [Hw ->]]].
    + apply walk_return_verdict in Hw. intros E. inversion E as [E'].
      rewrite E' in Hw. destruct Hw as [Hw|[Hw|Hw]]; discriminate Hw.
    + apply (walk_diagnostics _ _ Hreq) in Hw.
      * simpl. destruct (diagnostics st); [contradiction|discriminate].
      * right. eapply existsb_perm; [|exact Hex].
        apply Permutation_sym, canonical_order_perm. exact Hord.
Qed.

Lemma signature_policy_never_verifies_attestation_witness :
  verdict_of (@verify_chain strict_parser signature_policy
                (chain_of [JObj signed_attestation]) june_2024)
  <> Some VERDICT_VERIFIED.
Proof.
  apply (@signature_policy_never_verifies_attestation strict_parser
           [("policy", JObj [("signature_required", JBool true)])]
           [("events", JArr [JObj signed_attestation])]
           [JObj signed_attestation] june_2024);
    vm_compute; reflexivity.
Defined.

Example signed_attestation_is_unverifiable :
  @verify_chain strict_parser signature_policy
    (chain_of [JObj signed_attestation]) june_2024
  = Ok (mk_result VERDICT_UNVERIFIABLE
          ["cryptographic signature verification not implemented for att-1"]
          1 (Some "att-1")).
Proof. vm_compute. reflexivity. Qed.

Section NoRequirements.
Context `{IsoParser}.
Variable flags : policy_flags.
Variable evaluated_at : Z.
Hypothesis no_signature : signature_required flags = false.
Hypothesis no_timestamp : timestamp_required flags = false.
Hypothesis no_transparency : transparency_required flags = false.

Lemma check_payload_unbound (index : nat) (e : dict)
  (event_id event_hash : string) (errs : list string) :
  match check_payload flags index e event_id event_hash errs with
  | inl r => verdict r = VERDICT_INVALID_CHAIN
  | inr errs' => errs' = errs
  end.
Proof.
  unfold check_payload.
  rewrite no_signature, no_timestamp, no_transparency. simpl.
  destruct (full_payload e); [|reflexivity].
  destruct (negb (String.eqb (compute_event_hash e) event_hash));
    [reflexivity|].
  destruct (attestation_type e); reflexivity.
Qed.

Lemma check_event_unbound (index : nat) (st : walk_state) (evt : json) :
  match check_event flags evaluated_at index st evt with
  | Return r =>
      verdict r = VERDICT_INVALID_CHAIN \/ verdict r = VERDICT_INVALID_INPUT
  | Next st' => diagnostics st' = diagnostics st
  | Throw _ => True
  end.
Proof.
  unfold check_event.
  destruct evt as [| | | | | |e]; try (simpl; now left).
  destruct (is_empty (event_id_of e) || is_empty (event_hash_of e))%bool;
    [simpl; now left|].
  destruct (check_link index (prev_hash st) (event_id_of e)
              (dict_get e "prev_event_hash" JNull)) as [r|] eqn:Hlink.
  { apply check_link_returns in Hlink. tauto. }
  pose proof (check_payload_unbound index e (event_id_of e) (event_hash_of e)
                (diagnostics st)) as Hpay.
  destruct (check_payload flags index e (event_id_of e) (event_hash_of e)
              (diagnostics st)) as [r|errs]; [now left|].
  destruct (resolve_active evaluated_at index e (event_id_of e) (active st))
    as [stop|a] eqn:Hact; [|exact Hpay].
  apply resolve_active_returns in Hact.
  destruct Hact as [[x ->]|[r [-> [Hv _]]]]; [exact I|now right].
Qed.

Lemma walk_unbound (l : list json) (index : nat) (st : walk_state) :
  match walk flags evaluated_at index st l with
  | Return r =>
      verdict r = VERDICT_INVALID_CHAIN \/ verdict r = VERDICT_INVALID_INPUT
  | Next st' => diagnostics st' = diagnostics st
  | Throw _ => True
  end.
Proof.
  revert index st. induction l as [|evt l IH]; intros index st;
    [reflexivity|].
  rewrite walk_cons. pose proof (check_event_unbound index st evt) as Hevt.
  destruct (check_event flags evaluated_at index st evt) as [st1|r|x];
    try exact Hevt.
  specialize (IH (S index) st1).
  destruct (walk flags evaluated_at (S index) st1 l); try exact IH.
  congruence.
Qed.

End NoRequirements.

(** X12.  Under a policy document that requires no signature, no timestamp
    and no transparency anchoring (or has no policy at all), [verify_chain]
    never answers [POLICY_VIOLATION] or [UNVERIFIABLE]. *)
Theorem no_requirements_no_policy_verdict `{IsoParser}
  (domain_doc : dict) (chain_doc : json) (evaluated_at : Z)
  (r : VerificationResult) :
  flags_of domain_doc = mk_flags false false false ->
  verify_chain (JObj domain_doc) chain_doc evaluated_at = Ok r ->
  verdict r = VERDICT_VERIFIED \/ verdict r = VERDICT_INVALID_CHAIN
  \/ verdict r = VERDICT_INVALID_INPUT.
Proof.
  intros Hflags Hr. apply verify_chain_cases in Hr.
  destruct Hr as [->|[e [items [ordered [policy [_ [_ [Hpol Hw]]]]]]]].
  - simpl. tauto.
  - simpl in Hpol. inversion Hpol; subst policy.
    fold (flags_of domain_doc) in Hw. rewrite Hflags in Hw.
    pose proof (walk_unbound (mk_flags false false false) evaluated_at
                  eq_refl eq_refl eq_refl ordered 0 initial_state) as Hu.
    destruct Hw as [Hw|[st [Hw ->]]]; rewrite Hw in Hu.
    + tauto.
    + simpl in Hu. rewrite Hu. simpl. tauto.
Qed.

Lemma no_requirements_no_policy_verdict_witness :
  verdict (mk_result VERDICT_VERIFIED [] 1 (Some "att-1")) = VERDICT_VERIFIED
  \/ verdict (mk_result VERDICT_VERIFIED [] 1 (Some "att-1"))
     = VERDICT_INVALID_CHAIN
  \/ verdict (mk_result VERDICT_VERIFIED [] 1 (Some "att-1"))
     = VERDICT_INVALID_INPUT.
Proof.
  apply (@no_requirements_no_policy_verdict strict_parser []
           (chain_of [JObj unsigned_attestation]) june_2024);
    vm_compute; reflexivity.
Defined.

(** X13.  The active event of a result is an event of the chain: one whose
    [effective_at] and [recorded_at] are both present and not later than
    the evaluation time. *)
Theorem active_event_is_in_chain `{IsoParser} (domain_doc : json)
  (chain : dict) (events : list json) (evaluated_at : Z)
  (r : VerificationResult) (id : string) :
  lookup chain "events" = Some (JArr events) ->
  verify_chain domain_doc (JObj chain) evaluated_at = Ok r ->
  active_event_id r = Some id ->
  exists e, In (JObj e) events /\ event_id_of e = id
            /\ qualifies evaluated_at (JObj e) = true.
Proof.
  intros Hl Hr Hid. apply verify_chain_cases in Hr.
  destruct Hr as [->|[e0 [items [ordered [policy [Hev [Hord [_ Hw]]]]]]]].
  - discriminate.
  - simpl in Hev. unfold dict_get in Hev. rewrite Hl in Hev.
    inversion Hev; subst events.
    destruct Hw as [Hw|[st [Hw ->]]].
    + apply walk_return_shape in Hw. destruct Hw as [v [msg [n ->]]].
      discriminate.
    + apply walk_active in Hw. simpl in Hid, Hw. rewrite Hid in Hw.
      unfold last_active in Hw.
      destruct (find (qualifies evaluated_at) (rev ordered)) as [evt|]
        eqn:Hfind; [|discriminate].
      apply find_some in Hfind. destruct Hfind as [Hin Hq].
      destruct evt as [| | | | | |e]; try discriminate.
      exists e. split; [|split].
      * eapply Permutation_in; [apply canonical_order_perm; exact Hord|].
        now apply in_rev.
      * now inversion Hw.
      * exact Hq.
Qed.

Lemma active_event_is_in_chain_witness :
  exists e, In (JObj e) [stamped_second; stamped_first]
            /\ event_id_of e = "b"
            /\ @qualifies strict_parser june_2024 (JObj e) = true.
Proof.
  apply (@active_event_is_in_chain strict_parser no_policy
           [("events", JArr [stamped_second; stamped_first])]
           [stamped_second; stamped_first] june_2024
           (mk_result VERDICT_VERIFIED [] 2 (Some "b")) "b");
    vm_compute; reflexivity.
Defined.

(** ** The discovery client *)

Section DiscoveryFacts.
Context `{IsoParser} `{Network}.
Variables (url canonical_url : string) (parsed : SplitResult).
Variables timeout evaluated_at : Z.
Hypothesis canonical : canonicalize_artifact_url url = Ok canonical_url.
Hypothesis split_again : urlsplit canonical_url = Ok parsed.

(** The call up to the answer of the policy fetch. *)
Lemma verify_remote_artifact_fetch :
  verify_remote_artifact url timeout evaluated_at =
    match fetch_json (well_known_of parsed) timeout with
    | HTTPError code _ =>
        if Z.eqb code 404
        then Ok (result2 VERDICT_UNDECLARED
                   ["missing " ++ well_known_of parsed])
        else Ok (result2 VERDICT_UNVERIFIABLE
                   ["domain policy fetch failed: HTTP " ++ str_of_Z code])
    | OtherError msg =>
        Ok (result2 VERDICT_UNVERIFIABLE
              ["domain policy fetch failed: " ++ msg])
    | Body (JObj doc) =>
        if uses_event_chain doc
        then verify_events_path (JObj doc)
               (dict_or_empty (dict_get doc "evidence_api" JNull))
               canonical_url timeout evaluated_at
        else verify_manifest_path doc canonical_url timeout
    | Body other =>
        Raise (AttributeError
                 ("'" ++ type_name other ++ "' object has no attribute 'get'"))
    end.
Proof.
  unfold verify_remote_artifact. rewrite canonical. unfold bind at 1.
  rewrite split_again. unfold bind at 1. fold (well_known_of parsed).
  destruct (fetch_json (well_known_of parsed) timeout) as [doc| |];
    try reflexivity.
  destruct doc as [| | | | | |doc]; try reflexivity.
  unfold py_get, bind, uses_event_chain.
  destruct (dict_get doc "evidence_api" JNull); rewrite ?andb_false_r;
    try reflexivity.
  rewrite andb_true_r. reflexivity.
Qed.

End DiscoveryFacts.

(** X14.  When the fetch of the policy document fails with HTTP 404, the
    artifact is [UNDECLARED], and the diagnostic names the well-known URL
    that is missing. *)
Theorem policy_404_is_undeclared `{IsoParser} `{Network}
  (url canonical_url : string) (parsed : SplitResult)
  (timeout evaluated_at : Z) (reason : string) :
  canonicalize_artifact_url url = Ok canonical_url ->
  urlsplit canonical_url = Ok parsed ->
  fetch_json (well_known_of parsed) timeout = HTTPError 404 reason ->
  verify_remote_artifact url timeout evaluated_at
  = Ok (mk_result VERDICT_UNDECLARED
          ["missing https://" ++ netloc parsed ++ "/.well-known/provenance"]
          0 None).
Proof.
  intros Hc Hs Hf.
  rewrite (verify_remote_artifact_fetch _ _ _ _ _ Hc Hs), Hf. reflexivity.
Qed.

Lemma policy_404_is_undeclared_witness :
  @verify_remote_artifact strict_parser (network_of [])
    "HTTPS://Example.com:443/article" 10 june_2024
  = Ok (mk_result VERDICT_UNDECLARED
          ["missing https://example.com/.well-known/provenance"] 0 None).
Proof.
  apply (@policy_404_is_undeclared strict_parser (network_of [])
           "HTTPS://Example.com:443/article" article_url example_split
           10%Z june_2024 "Not Found");
    vm_compute; reflexivity.
Defined.

(** X15.  Any other failure of the policy fetch (an HTTP status other than
    404, a transport error, a timeout, an undecodable body) is
    [UNVERIFIABLE], and the diagnostic keeps the status code or the text of
    the error. *)
Theorem policy_fetch_failure_is_unverifiable `{IsoParser} `{Network}
  (url canonical_url : string) (parsed : SplitResult)
  (timeout evaluated_at : Z) (outcome : fetched) :
  canonicalize_artifact_url url = Ok canonical_url ->
  urlsplit canonical_url = Ok parsed ->
  fetch_json (well_known_of parsed) timeout = outcome ->
  match outcome with
  | Body _ => False
  | HTTPError code _ => code <> 404%Z
  | OtherError _ => True
  end ->
  verify_remote_artifact url timeout evaluated_at
  = Ok (mk_result VERDICT_UNVERIFIABLE [policy_failure_text outcome] 0 None).
Proof.
  intros Hc Hs Hf Hfail.
  rewrite (verify_remote_artifact_fetch _ _ _ _ _ Hc Hs), Hf.
  destruct outcome as [doc|code reason|msg]; [contradiction| |reflexivity].
  apply Z.eqb_neq in Hfail. rewrite Hfail. reflexivity.
Qed.

Lemma policy_fetch_failure_is_unverifiable_witness :
  @verify_remote_artifact strict_parser
    (network_of [(policy_url, HTTPError 503 "Service Unavailable")])
    article_url 10 june_2024
  = Ok (mk_result VERDICT_UNVERIFIABLE
          ["domain policy fetch failed: HTTP 503"] 0 None).
Proof.
  apply (@policy_fetch_failure_is_unverifiable strict_parser
           (network_of [(policy_url, HTTPError 503 "Service Unavailable")])
           article_url article_url example_split 10%Z june_2024
           (HTTPError 503 "Service Unavailable"));
    [vm_compute; reflexivity .. | discriminate].
Defined.

Lemma verify_manifest_path_body `{Network} (doc manifest : dict)
  (canonical_url manifest_canonical : string) (timeout : Z) :
  fetch_json (canonical_url ++ manifest_suffix doc) timeout
  = Body (JObj manifest) ->
  canonicalize_artifact_url
    (py_str (dict_get manifest "artifact_url" (JStr "")))
  = Ok manifest_canonical ->
  verify_manifest_path doc canonical_url timeout =
    Ok (if negb (String.eqb manifest_canonical canonical_url)
        then result2 VERDICT_INVALID_INPUT ["manifest artifact_url mismatch"]
        else if negb (is_sha256_hex
                        (strip (py_str (dict_get manifest "content_sha256"
                                          (JStr "")))))
        then result2 VERDICT_INVALID_INPUT
               ["manifest content_sha256 is not valid hex sha256"]
        else if (signature_required (flags_of doc)
                 && negb (truthy (evidence manifest "signature" "value")))%bool
        then result2 VERDICT_POLICY_VIOLATION
               ["signature required but missing"]
        else if signature_required (flags_of doc)
        then result2 VERDICT_UNVERIFIABLE
               ["cryptographic signature verification is not "
                ++ "implemented for v1.0 projection manifests"]
        else result2 VERDICT_VERIFIED []).
Proof.
  intros Hfetch Hurl. unfold verify_manifest_path. rewrite Hfetch.
  unfold py_get, bind. rewrite Hurl.
  destruct (negb (String.eqb manifest_canonical canonical_url));
    [reflexivity|].
  destruct (negb (is_sha256_hex
                    (strip (py_str (dict_get manifest "content_sha256"
                                      (JStr "")))))); [reflexivity|].
  unfold flags_of, policy_of, evidence. cbn [signature_required].
  destruct (truthy (dict_get (dict_or_empty (dict_get doc "policy" JNull))
                      "signature_required" JNull));
    destruct (truthy (dict_get (dict_or_empty (dict_get manifest "signature"
                                                 JNull)) "value" JNull));
    reflexivity.
Qed.

(** X16.  On the legacy path, a manifest that is an object, whose
    [artifact_url] canonicalizes to the canonical URL of the artifact and
    whose [content_sha256] is 64 lowercase hex digits, is [VERIFIED] when
    the policy does not require a signature. *)
Theorem legacy_manifest_verifies_without_signature_policy
  `{IsoParser} `{Network} (url canonical_url : string) (parsed : SplitResult)
  (timeout evaluated_at : Z) (domain_doc manifest : dict) :
  canonicalize_artifact_url url = Ok canonical_url ->
  urlsplit canonical_url = Ok parsed ->
  fetch_json (well_known_of parsed) timeout = Body (JObj domain_doc) ->
  uses_event_chain domain_doc = false ->
  fetch_json (canonical_url ++ manifest_suffix domain_doc) timeout
  = Body (JObj manifest) ->
  canonicalize_artifact_url
    (py_str (dict_get manifest "artifact_url" (JStr ""))) = Ok canonical_url ->
  is_sha256_hex (strip (py_str (dict_get manifest "content_sha256" (JStr ""))))
  = true ->
  signature_required (flags_of domain_doc) = false ->
  verify_remote_artifact url timeout evaluated_at
  = Ok (mk_result VERDICT_VERIFIED [] 0 None).
Proof.
  intros Hc Hs Hpol Hlegacy Hfetch Hurl Hhash Hreq.
  rewrite (verify_remote_artifact_fetch _ _ _ _ _ Hc Hs), Hpol, Hlegacy.
  rewrite (verify_manifest_path_body _ _ _ _ _ Hfetch Hurl).
  now rewrite String.eqb_refl, Hhash, Hreq.
Qed.

Lemma legacy_manifest_verifies_without_signature_policy_witness :
  @verify_remote_artifact strict_parser
    (network_of [(policy_url, Body (JObj open_policy));
                 (manifest_url_of_article, Body (JObj plain_manifest))])
    article_url 10 june_2024
  = Ok (mk_result VERDICT_VERIFIED [] 0 None).
Proof.
  apply (@legacy_manifest_verifies_without_signature_policy strict_parser
           (network_of [(policy_url, Body (JObj open_policy));
                        (manifest_url_of_article, Body (JObj plain_manifest))])
           article_url article_url example_split 10%Z june_2024
           open_policy plain_manifest);
    vm_compute; reflexivity.
Defined.

(** X17.  On the legacy path, a manifest whose [artifact_url] canonicalizes
    to another URL than the artifact's is [INVALID_INPUT], whatever its
    hash, its signature and the policy. *)
Theorem manifest_for_another_url_is_invalid_input `{IsoParser} `{Network}
  (url canonical_url other_url : string) (parsed : SplitResult)
  (timeout evaluated_at : Z) (domain_doc manifest : dict) :
  canonicalize_artifact_url url = Ok canonical_url ->
  urlsplit canonical_url = Ok parsed ->
  fetch_json (well_known_of parsed) timeout = Body (JObj domain_doc) ->
  uses_event_chain domain_doc = false ->
  fetch_json (canonical_url ++ manifest_suffix domain_doc) timeout
  = Body (JObj manifest) ->
  canonicalize_artifact_url
    (py_str (dict_get manifest "artifact_url" (JStr ""))) = Ok other_url ->
  other_url <> canonical_url ->
  verify_remote_artifact url timeout evaluated_at
  = Ok (mk_result VERDICT_INVALID_INPUT ["manifest artifact_url mismatch"]
          0 None).
Proof.
  intros Hc Hs Hpol Hlegacy Hfetch Hurl Hne.
  rewrite (verify_remote_artifact_fetch _ _ _ _ _ Hc Hs), Hpol, Hlegacy.
  rewrite (verify_manifest_path_body _ _ _ _ _ Hfetch Hurl).
  apply String.eqb_neq in Hne. now rewrite Hne.
Qed.

Lemma manifest_for_another_url_is_invalid_input_witness :
  @verify_remote_artifact strict_parser
    (network_of [("https://example.com/.well-known/provenance",
                  Body (JObj open_policy));
                 ("https://example.com/other.provenance.json",
                  Body (JObj plain_manifest))])
    "https://example.com/other" 10 june_2024
  = Ok (mk_result VERDICT_INVALID_INPUT ["manifest artifact_url mismatch"]
          0 None).
Proof.
  apply (@manifest_for_another_url_is_invalid_input strict_parser
           (network_of [("https://example.com/.well-known/provenance",
                         Body (JObj open_policy));
                        ("https://example.com/other.provenance.json",
                         Body (JObj plain_manifest))])
           "https://example.com/other" "https://example.com/other"
           article_url (mk_split "https" "example.com" "/other" "" "")
           10%Z june_2024 open_policy plain_manifest);
    [vm_compute; reflexivity .. | discriminate].
Defined.

(** X18.  On the legacy path, a manifest for the right URL whose
    [content_sha256], once stripped, is not 64 lowercase hex digits is
    [INVALID_INPUT], whatever its signature and the policy. *)
Theorem manifest_hash_format_is_checked `{IsoParser} `{Network}
  (url canonical_url : string) (parsed : SplitResult)
  (timeout evaluated_at : Z) (domain_doc manifest : dict) :
  canonicalize_artifact_url url = Ok canonical_url ->
  urlsplit canonical_url = Ok parsed ->
  fetch_json (well_known_of parsed) timeout = Body (JObj domain_doc) ->
  uses_event_chain domain_doc = false ->
  fetch_json (canonical_url ++ manifest_suffix domain_doc) timeout
  = Body (JObj manifest) ->
  canonicalize_artifact_url
    (py_str (dict_get manifest "artifact_url" (JStr ""))) = Ok canonical_url ->
  is_sha256_hex (strip (py_str (dict_get manifest "content_sha256" (JStr ""))))
  = false ->
  verify_remote_artifact url timeout evaluated_at
  = Ok (mk_result VERDICT_INVALID_INPUT
          ["manifest content_sha256 is not valid hex sha256"] 0 None).
Proof.
  intros Hc Hs Hpol Hlegacy Hfetch Hurl Hhash.
  rewrite (verify_remote_artifact_fetch _ _ _ _ _ Hc Hs), Hpol, Hlegacy.
  rewrite (verify_manifest_path_body _ _ _ _ _ Hfetch Hurl).
  now rewrite String.eqb_refl, Hhash.
Qed.

Lemma manifest_hash_format_is_checked_witness :
  @verify_remote_artifact strict_parser
    (network_of
       [(policy_url, Body (JObj legacy_policy));
        (manifest_url_of_article,
         Body (JObj [str_field "artifact_url" article_url;
                     str_field "content_sha256" "BA7816BF"]))])
    article_url 10 june_2024
  = Ok (mk_result VERDICT_INVALID_INPUT
          ["manifest content_sha256 is not valid hex sha256"] 0 None).
Proof.
  apply (@manifest_hash_format_is_checked strict_parser
           (network_of
              [(policy_url, Body (JObj legacy_policy));
               (manifest_url_of_article,
                Body (JObj [str_field "artifact_url" article_url;
                            str_field "content_sha256" "BA7816BF"]))])
           article_url article_url example_split 10%Z june_2024
           legacy_policy
           [str_field "artifact_url" article_url;
            str_field "content_sha256" "BA7816BF"]);
    vm_compute; reflexivity.
Defined.

(** X19.  For a 1.1 policy document whose evidence API gives a template
    with the [{artifact_url}] placeholder, the events are fetched from the
    template with the percent-encoded canonical URL in place of the
    placeholder, and the result is that of [verify_chain] on the fetched
    document; a bare array is read as the [events] of a chain document. *)
Theorem event_feed_is_verified_as_chain `{IsoParser} `{Network}
  (url canonical_url template : string) (parsed : SplitResult)
  (timeout evaluated_at : Z) (domain_doc : dict) (body : json) :
  canonicalize_artifact_url url = Ok canonical_url ->
  urlsplit canonical_url = Ok parsed ->
  fetch_json (well_known_of parsed) timeout = Body (JObj domain_doc) ->
  uses_event_chain domain_doc = true ->
  evidence domain_doc "evidence_api" "events_by_artifact" = JStr template ->
  contains template "{artifact_url}" = true ->
  fetch_json (replace "{artifact_url}" (quote canonical_url) template) timeout
  = Body body ->
  verify_remote_artifact url timeout evaluated_at
  = verify_chain (JObj domain_doc) (as_chain_doc body) evaluated_at.
Proof.
  intros Hc Hs Hpol Hfeed Htpl Hph Hfetch.
  rewrite (verify_remote_artifact_fetch _ _ _ _ _ Hc Hs), Hpol, Hfeed.
  unfold verify_events_path. unfold evidence in Htpl.
  rewrite Htpl, Hph. cbn [negb]. rewrite Hfetch. reflexivity.
Qed.

Lemma event_feed_is_verified_as_chain_witness :
  @verify_remote_artifact strict_parser
    (network_of [(policy_url, Body (JObj feed_policy));
                 (events_url_of_article, Body (JArr [link_second; link_first]))])
    article_url 10 june_2024
  = @verify_chain strict_parser (JObj feed_policy)
      (as_chain_doc (JArr [link_second; link_first])) june_2024.
Proof.
  apply (@event_feed_is_verified_as_chain strict_parser
           (network_of [(policy_url, Body (JObj feed_policy));
                        (events_url_of_article,
                         Body (JArr [link_second; link_first]))])
           article_url article_url
           "https://example.com/events?artifact={artifact_url}"
           example_split 10%Z june_2024 feed_policy
           (JArr [link_second; link_first]));
    vm_compute; reflexivity.
Defined.

Example event_feed_verifies :
  @verify_remote_artifact strict_parser
    (network_of [(policy_url, Body (JObj feed_policy));
                 (events_url_of_article, Body (JArr [link_second; link_first]))])
    article_url 10 june_2024
  = Ok (mk_result VERDICT_VERIFIED [] 2 None).
Proof. vm_compute. reflexivity. Qed.

(** ** The verdicts of the discovery client *)

Lemma verify_chain_settled `{IsoParser} (domain_doc chain_doc : json)
  (evaluated_at : Z) (r : VerificationResult) :
  verify_chain domain_doc chain_doc evaluated_at = Ok r -> settled r.
Proof.
  intros Hr. apply verify_chain_cases in Hr. unfold settled.
  destruct Hr as [->|[e [items [ordered [policy [_ [_ [_ Hw]]]]]]]].
  - right. simpl. split; [discriminate|tauto].
  - destruct Hw as [Hw|[st [_ ->]]].
    + pose proof (walk_return_verdict _ _ _ _ _ _ Hw) as Hv.
      apply walk_return_shape in Hw. destruct Hw as [v [msg [n ->]]].
      right. simpl in *. split; [discriminate|tauto].
    + simpl. destruct (diagnostics st).
      * left. split; reflexivity.
      * right. split; [discriminate|tauto].
Qed.

Lemma verify_manifest_path_settled `{Network} (domain_doc : dict)
  (canonical_url : string) (timeout : Z) (r : VerificationResult) :
  verify_manifest_path domain_doc canonical_url timeout = Ok r -> settled r.
Proof.
  unfold verify_manifest_path, settled. intros Hr.
  destruct (fetch_json (canonical_url ++ manifest_suffix domain_doc) timeout)
    as [manifest|code reason|msg];
    try (inversion Hr; right; simpl; split; [discriminate|tauto]).
  destruct (py_get manifest "artifact_url" (JStr "")) as [a|];
    [|discriminate].
  cbn [bind] in Hr.
  destruct (canonicalize_artifact_url (py_str a)) as [mc|]; [|discriminate].
  cbn [bind] in Hr.
  destruct (negb (String.eqb mc canonical_url));
    [inversion Hr; right; simpl; split; [discriminate|tauto]|].
  destruct (py_get manifest "content_sha256" (JStr "")) as [h|];
    [|discriminate].
  cbn [bind] in Hr.
  destruct (negb (is_sha256_hex (strip (py_str h))));
    [inversion Hr; right; simpl; split; [discriminate|tauto]|].
  destruct (py_get manifest "signature" JNull) as [sg|]; [|discriminate].
  cbn [bind] in Hr.
  destruct (truthy (dict_get (dict_or_empty (dict_get domain_doc "policy"
                                               JNull))
                      "signature_required" JNull));
    destruct (truthy (dict_get (dict_or_empty sg) "value" JNull));
    cbn [andb negb] in Hr; inversion Hr; simpl;
    first [ left; split; reflexivity
          | right; split; [discriminate|tauto] ].
Qed.

Lemma verify_events_path_settled `{IsoParser} `{Network} (domain_doc : json)
  (evidence_api : dict) (canonical_url : string) (timeout evaluated_at : Z)
  (r : VerificationResult) :
  verify_events_path domain_doc evidence_api canonical_url timeout evaluated_at
  = Ok r ->
  settled r.
Proof.
  unfold verify_events_path. intros Hr.
  destruct (dict_get evidence_api "events_by_artifact" JNull) as
    [| | | |template| |];
    try (inversion Hr; right; simpl; split; [discriminate|tauto]).
  destruct (negb (contains template "{artifact_url}"));
    [inversion Hr; right; simpl; split; [discriminate|tauto]|].
  destruct (fetch_json (replace "{artifact_url}" (quote canonical_url)
                          template) timeout) as [body|code reason|msg];
    try (inversion Hr; right; simpl; split; [discriminate|tauto]).
  eapply verify_chain_settled; eassumption.
Qed.

(** Every result of the discovery client is either the [UNDECLARED] of a
    policy document answered with HTTP 404, or settled. *)
Lemma verify_remote_artifact_cases `{IsoParser} `{Network} (url : string)
  (timeout evaluated_at : Z) (r : VerificationResult) :
  verify_remote_artifact url timeout evaluated_at = Ok r ->
  (exists canonical_url parsed reason,
      canonicalize_artifact_url url = Ok canonical_url
      /\ urlsplit canonical_url = Ok parsed
      /\ fetch_json (well_known_of parsed) timeout = HTTPError 404 reason
      /\ r = result2 VERDICT_UNDECLARED ["missing " ++ well_known_of parsed])
  \/ settled r.
Proof.
  intros Hr.
  destruct (canonicalize_artifact_url url) as [canonical_url|] eqn:Hc;
    [|unfold verify_remote_artifact in Hr; rewrite Hc in Hr; discriminate].
  destruct (urlsplit canonical_url) as [parsed|] eqn:Hs;
    [|unfold verify_remote_artifact in Hr; rewrite Hc in Hr; cbn [bind] in Hr;
      rewrite Hs in Hr; discriminate].
  rewrite (verify_remote_artifact_fetch _ _ _ _ _ Hc Hs) in Hr.
  destruct (fetch_json (well_known_of parsed) timeout)
    as [body|code reason|msg] eqn:Hfetch.
  - right. destruct body as [| | | | | |doc]; try discriminate.
    destruct (uses_event_chain doc).
    + eapply verify_events_path_settled; eassumption.
    + eapply verify_manifest_path_settled; eassumption.
  - destruct (Z.eqb_spec code 404) as [->|Hne].
    + left. exists canonical_url, parsed, reason.
      repeat split; try assumption. now inversion Hr.
    + right. inversion Hr. right. simpl. split; [discriminate|tauto].
  - right. inversion Hr. right. simpl. split; [discriminate|tauto].
Qed.

(** X20.  The discovery client answers [UNDECLARED] only when the fetch of
    the policy document of the artifact's host failed with HTTP 404: no
    manifest, event feed or chain can produce that verdict. *)
Theorem undeclared_only_on_policy_404 `{IsoParser} `{Network} (url : string)
  (timeout evaluated_at : Z) (r : VerificationResult) :
  verify_remote_artifact url timeout evaluated_at = Ok r ->
  verdict r = VERDICT_UNDECLARED ->
  exists canonical_url parsed reason,
    canonicalize_artifact_url url = Ok canonical_url
    /\ urlsplit canonical_url = Ok parsed
    /\ fetch_json (well_known_of parsed) timeout = HTTPError 404 reason.
Proof.
  intros Hr Hv. apply verify_remote_artifact_cases in Hr.
  destruct Hr as [[c [parsed [reason [Hc [Hs [Hf _]]]]]]|Hsettled].
  - now exists c, parsed, reason.
  - destruct Hsettled as [[E _]|[_ [E|[E|[E|E]]]]];
      rewrite E in Hv; discriminate Hv.
Qed.

Lemma undeclared_only_on_policy_404_witness :
  exists canonical_url parsed reason,
    canonicalize_artifact_url "HTTPS://Example.com:443/article"
    = Ok canonical_url
    /\ urlsplit canonical_url = Ok parsed
    /\ @fetch_json (network_of []) (well_known_of parsed) 10
       = HTTPError 404 reason.
Proof.
  apply (@undeclared_only_on_policy_404 strict_parser (network_of [])
           "HTTPS://Example.com:443/article" 10%Z june_2024
           (mk_result VERDICT_UNDECLARED
              ["missing https://example.com/.well-known/provenance"] 0 None));
    vm_compute; reflexivity.
Defined.

(** X21.  A result of the discovery client is [VERIFIED] exactly when it
    carries no diagnostic, on the legacy path as on the event feed. *)
Theorem remote_verified_iff_clean `{IsoParser} `{Network} (url : string)
  (timeout evaluated_at : Z) (r : VerificationResult) :
  verify_remote_artifact url timeout evaluated_at = Ok r ->
  (verdict r = VERDICT_VERIFIED <-> errors r = []).
Proof.
  intros Hr. apply verify_remote_artifact_cases in Hr.
  destruct Hr as [[c [parsed [reason [_ [_ [_ ->]]]]]]|Hsettled].
  - simpl. split; discriminate.
  - destruct Hsettled as [[Hv He]|[He Hv]].
    + now split.
    + split; [|intros E; now elim He].
      intros E. rewrite E in Hv.
      destruct Hv as [Hv|[Hv|[Hv|Hv]]]; discriminate Hv.
Qed.

Lemma remote_verified_iff_clean_witness :
  verdict (mk_result VERDICT_VERIFIED [] 0 None) = VERDICT_VERIFIED
  <-> errors (mk_result VERDICT_VERIFIED [] 0 None) = [].
Proof.
  apply (@remote_verified_iff_clean strict_parser
           (network_of [(policy_url, Body (JObj open_policy));
                        (manifest_url_of_article,
                         Body (JObj plain_manifest))])
           article_url 10%Z june_2024).
  vm_compute. reflexivity.
Defined.

(** ** The codec: percent escapes *)

Lemma is_hex_digit_upper (h : ascii) :
  is_hex_digit (upper_char h) = is_hex_digit h.
Proof.
  destruct h as [b0 b1 b2 b3 b4 b5 b6 b7].
  destruct b0, b1, b2, b3, b4, b5, b6, b7; reflexivity.
Qed.

Lemma upper_char_idem (h : ascii) : upper_char (upper_char h) = upper_char h.
Proof.
  destruct h as [b0 b1 b2 b3 b4 b5 b6 b7].
  destruct b0, b1, b2, b3, b4, b5, b6, b7; reflexivity.
Qed.

Lemma normalize_percent_hex_escape (a h1 h2 : ascii) (rest : string) :
  normalize_percent_hex (String a (String h1 (String h2 rest))) =
    if (Ascii.eqb a "%" && is_hex_digit h1 && is_hex_digit h2)%bool
    then String a (String (upper_char h1)
                     (String (upper_char h2) (normalize_percent_hex rest)))
    else String a (normalize_percent_hex (String h1 (String h2 rest))).
Proof. reflexivity. Qed.

(** The substitution keeps the first character of its argument. *)
Lemma normalize_percent_hex_first (a : ascii) (rest : string) :
  exists t, normalize_percent_hex (String a rest) = String a t.
Proof.
  destruct rest as [|h1 [|h2 rest]]; try (eexists; reflexivity).
  rewrite normalize_percent_hex_escape.
  destruct (Ascii.eqb a "%" && is_hex_digit h1 && is_hex_digit h2)%bool;
    eexists; reflexivity.
Qed.

(** It keeps the second character up to its case when that is a hex digit. *)
Lemma normalize_percent_hex_second (a b : ascii) (rest : string) :
  exists b' t,
    normalize_percent_hex (String a (String b rest)) = String a (String b' t)
    /\ is_hex_digit b' = is_hex_digit b.
Proof.
  destruct rest as [|c rest]; [exists b, ""; split; reflexivity|].
  rewrite normalize_percent_hex_escape.
  destruct (Ascii.eqb a "%" && is_hex_digit b && is_hex_digit c)%bool.
  - eexists _, _. split; [reflexivity|]. apply is_hex_digit_upper.
  - destruct (normalize_percent_hex_first b (String c rest)) as [t ->].
    exists b, t. split; reflexivity.
Qed.

Lemma normalize_percent_hex_idem_upto (n : nat) (p : string) :
  String.length p <= n ->
  normalize_percent_hex (normalize_percent_hex p) = normalize_percent_hex p.
Proof.
  revert p. induction n as [|n IH]; intros p Hlen.
  - destruct p; [reflexivity|simpl in Hlen; lia].
  - destruct p as [|a [|h1 [|h2 rest]]]; try reflexivity.
    rewrite normalize_percent_hex_escape.
    destruct (Ascii.eqb a "%" && is_hex_digit h1 && is_hex_digit h2)%bool
      eqn:Hesc.
    + rewrite normalize_percent_hex_escape, !is_hex_digit_upper, Hesc.
      rewrite !upper_char_idem, IH; [reflexivity|].
      simpl in Hlen. lia.
    + destruct (normalize_percent_hex_second h1 h2 rest) as [b' [t [E Hb]]].
      rewrite E, normalize_percent_hex_escape, Hb, Hesc, <- E.
      rewrite IH; [reflexivity|]. simpl in *. lia.
Qed.

(** X22.  Normalizing the percent escapes of a string twice gives what
    normalizing them once gives. *)
Theorem normalize_percent_hex_idempotent (p : string) :
  normalize_percent_hex (normalize_percent_hex p) = normalize_percent_hex p.
Proof. apply (normalize_percent_hex_idem_upto (String.length p)). lia. Qed.

(** ** The codec: digests *)

Lemma chars_app (s t : string) : chars (s ++ t) = (chars s ++ chars t)%list.
Proof. induction s as [|a s IH]; simpl; [reflexivity|]. now rewrite IH. Qed.

Lemma length_chars (s : string) : List.length (chars s) = String.length s.
Proof. induction s as [|a s IH]; simpl; [reflexivity|]. now rewrite IH. Qed.

(** Joining [k]-character strings of one alphabet without a separator. *)
Lemma concat_blocks (P : ascii -> bool) (k : nat) (l : list string) :
  Forall (fun s => String.length s = k /\ forallb P (chars s) = true) l ->
  String.length (String.concat "" l) = List.length l * k
  /\ forallb P (chars (String.concat "" l)) = true.
Proof.
  induction 1 as [|s l [Hlen Hall] Hl [IHlen IHall]]; [split; reflexivity|].
  destruct l as [|s' l].
  - simpl. split; [lia|assumption].
  - change (String.concat "" (s :: s' :: l))
      with (s ++ "" ++ String.concat "" (s' :: l)).
    change ("" ++ String.concat "" (s' :: l))
      with (String.concat "" (s' :: l)).
    rewrite <- length_chars, chars_app, length_app, !length_chars, forallb_app.
    rewrite IHlen, IHall, Hall, Hlen.
    split; [simpl; lia|reflexivity].
Qed.

Lemma hex_digit_lower (n : N) :
  (n < 16)%N -> is_lower_hex_digit (hex_digit false n) = true.
Proof.
  intros Hn. destruct n as [|p]; [reflexivity|].
  do 4 (destruct p as [p|p|]; try reflexivity); exfalso; lia.
Qed.

Lemma hex_byte_lower (n : N) :
  (n < 256)%N ->
  String.length (hex_byte false n) = 2
  /\ forallb is_lower_hex_digit (chars (hex_byte false n)) = true.
Proof.
  intros Hn. split; [reflexivity|]. unfold hex_byte. cbn [chars
    list_ascii_of_string forallb].
  rewrite !hex_digit_lower; [reflexivity| |].
  - apply N.mod_lt. discriminate.
  - apply N.Div0.div_lt_upper_bound. exact Hn.
Qed.

Lemma hex_word_lower (w : Z) :
  String.length (hex_word w) = 8
  /\ forallb is_lower_hex_digit (chars (hex_word w)) = true.
Proof.
  unfold hex_word.
  change 8 with (List.length (seq 0 4) * 2).
  rewrite <- (length_map
                (fun i => hex_byte false
                            (Z.to_N (Z.land (Z.shiftr w (8 * (3 - Z.of_nat i)))
                                       255))) (seq 0 4)).
  apply concat_blocks. apply Forall_map, Forall_forall. intros i _.
  apply hex_byte_lower.
  change 255%Z with (Z.ones 8). rewrite Z.land_ones by lia.
  pose proof (Z.mod_pos_bound (Z.shiftr w (8 * (3 - Z.of_nat i))) (2 ^ 8)).
  lia.
Qed.

Lemma sha256_block_length (h block : list Z) :
  List.length h = 8 -> List.length (sha256_block h block) = 8.
Proof.
  intros Hh. unfold sha256_block.
  rewrite length_map, length_combine, Hh. reflexivity.
Qed.

Lemma sha256_blocks_length (n : nat) (h words : list Z) :
  List.length h = 8 -> List.length (sha256_blocks n h words) = 8.
Proof.
  revert h words. induction n as [|n IH]; intros h words Hh; [exact Hh|].
  simpl. apply IH. now apply sha256_block_length.
Qed.

(** The digest of well-formed text is 64 lowercase hex digits. *)
Lemma sha256_hex_format (raw : string) : is_sha256_hex (sha256_hex raw) = true.
Proof.
  unfold is_sha256_hex, sha256_hex.
  destruct (concat_blocks is_lower_hex_digit 8
              (map hex_word (sha256 (map (fun a => Z.of_N (code a))
                                       (chars raw)))))
    as [Hlen Hall].
  { apply Forall_map, Forall_forall. intros w _. apply hex_word_lower. }
  rewrite Hlen, Hall, length_map. unfold sha256.
  rewrite sha256_blocks_length; reflexivity.
Qed.

(** ** Timestamps with the suffix [Z] *)

Lemma str_rev_snoc (s : string) (a : ascii) :
  str_rev (s ++ String a "") = String a (str_rev s).
Proof.
  unfold str_rev, of_chars. rewrite chars_app. cbn [chars list_ascii_of_string].
  rewrite rev_app_distr. reflexivity.
Qed.

Lemma drop_last_snoc (s : string) (a : ascii) :
  drop_last (s ++ String a "") = s.
Proof.
  unfold drop_last, of_chars. rewrite chars_app.
  cbn [chars list_ascii_of_string]. rewrite removelast_last.
  apply string_of_list_ascii_of_string.
Qed.

(** X24.  A timestamp written with the suffix [Z] is read as the same text
    with the offset [+00:00] in its place: both give the same instant, or
    the same exception with the same message. *)
Theorem zulu_suffix_is_utc_offset `{IsoParser} (s : string) :
  parse_utc_or_die (s ++ "Z") = parse_utc_or_die (s ++ "+00:00").
Proof.
  unfold parse_utc_or_die.
  assert (Hz : endswith (s ++ "Z") "Z" = true).
  { unfold endswith. rewrite str_rev_snoc. cbn.
    destruct (ascii_dec "Z" "Z") as [_|Hne]; [|now elim Hne].
    now destruct (str_rev s). }
  assert (Ho : endswith (s ++ "+00:00") "Z" = false).
  { unfold endswith.
    unfold str_rev. rewrite chars_app, rev_app_distr. cbn.
    destruct (ascii_dec "Z" "0") as [E|_]; [discriminate E|reflexivity]. }
  rewrite Hz, Ho, drop_last_snoc. reflexivity.
Qed.

(** ** The canonical order *)

Section SortedInput.
Context {A K : Type}.
Variable ltb : K -> K -> bool.
Variable key : A -> result K.

(** A list in order is left as it is. *)
Lemma sort_keyed_fixed (l : list (K * A)) :
  Sorted (key_not_after ltb) l -> sort_keyed ltb l = l.
Proof.
  induction 1 as [|x l Hl IH Hhd]; [reflexivity|].
  simpl. fold (sort_keyed ltb l). rewrite IH.
  destruct Hhd as [|y l Hxy]; [reflexivity|].
  simpl. unfold key_not_after in Hxy. now rewrite Hxy.
Qed.

Lemma decorate_keys (l : list A) (ks : list (K * A)) :
  decorate key l = Ok ks -> Forall (fun p => key (snd p) = Ok (fst p)) ks.
Proof.
  revert ks. induction l as [|x l IH]; simpl; intros ks Hd.
  - inversion Hd. constructor.
  - destruct (key x) as [k|] eqn:Hk; [|discriminate]. simpl in Hd.
    destruct (decorate key l) as [ks'|]; [|discriminate]. simpl in Hd.
    inversion Hd; subst. constructor; [exact Hk|now apply IH].
Qed.

Lemma decorate_keyed (ks : list (K * A)) :
  Forall (fun p => key (snd p) = Ok (fst p)) ks ->
  decorate key (map snd ks) = Ok ks.
Proof.
  induction 1 as [|[k x] ks Hk Hks IH]; [reflexivity|].
  simpl in *. rewrite Hk, IH. reflexivity.
Qed.

End SortedInput.

Lemma strongly_sorted_map {A B : Type} (R : A -> A -> Prop)
  (R' : B -> B -> Prop) (P : A -> Prop) (f : A -> B) (l : list A) :
  (forall x y, P x -> P y -> R x y -> R' (f x) (f y)) ->
  Forall P l -> StronglySorted R l -> StronglySorted R' (map f l).
Proof.
  intros Hf HP Hs. induction Hs as [|x l Hs IH Hall]; [constructor|].
  inversion HP as [|? ? Hx Hl]; subst. simpl.
  constructor; [now apply IH|].
  apply Forall_map. rewrite Forall_forall in *. intros y Hy.
  apply Hf; auto.
Qed.

Lemma canonical_order_keyed (events ordered : list json) :
  canonical_order events = Ok ordered ->
  exists ks,
    ordered = map snd ks
    /\ Sorted (key_not_after pair_ltb) ks
    /\ Forall (fun p => event_key (snd p) = Ok (fst p)) ks.
Proof.
  unfold canonical_order, sorted_by. intros Hs.
  destruct (decorate event_key events) as [ks|] eqn:Hd; [|discriminate].
  simpl in Hs. inversion Hs; subst.
  exists (sort_keyed pair_ltb ks). split; [reflexivity|].
  split; [apply (sort_keyed_sorted pair_ltb pair_ltb_irrefl pair_ltb_trans)|].
  apply decorate_keys in Hd. rewrite Forall_forall in *. intros p Hp.
  apply Hd. eapply Permutation_in; [apply sort_keyed_perm|exact Hp].
Qed.

(** X25.  The order in which [verify_chain] walks the events holds each
    event of the array exactly once, and no event comes before one whose
    key ([recorded_at], then [event_id], compared as text) is smaller. *)
Theorem canonical_order_is_sorted_permutation (events ordered : list json) :
  canonical_order events = Ok ordered ->
  Permutation events ordered /\ StronglySorted in_key_order ordered.
Proof.
  intros Hs. split.
  - apply Permutation_sym. now apply canonical_order_perm.
  - apply canonical_order_keyed in Hs.
    destruct Hs as [ks [-> [Hsorted Hkeys]]].
    apply (strongly_sorted_map (key_not_after pair_ltb) in_key_order
             (fun p => event_key (snd p) = Ok (fst p))); [|exact Hkeys|].
    + intros x y Hx Hy Hxy ka kb Ha Hb.
      rewrite Hx in Ha. rewrite Hy in Hb.
      inversion Ha; inversion Hb; subst. exact Hxy.
    + apply Sorted_StronglySorted; [|exact Hsorted].
      exact (not_after_key_trans pair_ltb pair_ltb_trans pair_ltb_total).
Qed.

Lemma canonical_order_is_sorted_permutation_witness :
  Permutation [link_second; undated; link_first]
    [link_first; link_second; undated]
  /\ StronglySorted in_key_order [link_first; link_second; undated].
Proof.
  apply (canonical_order_is_sorted_permutation
           [link_second; undated; link_first]
           [link_first; link_second; undated]).
  vm_compute. reflexivity.
Defined.

(** X26.  Ordering the canonical order again leaves it as it is: a feed
    served in canonical order is walked in the order it is served. *)
Theorem canonical_order_idempotent (events ordered : list json) :
  canonical_order events = Ok ordered ->
  canonical_order ordered = Ok ordered.
Proof.
  intros Hs. apply canonical_order_keyed in Hs.
  destruct Hs as [ks [-> [Hsorted Hkeys]]].
  unfold canonical_order, sorted_by.
  rewrite (decorate_keyed _ _ Hkeys). simpl.
  now rewrite (sort_keyed_fixed _ _ Hsorted).
Qed.

Lemma canonical_order_idempotent_witness :
  canonical_order [twin_second; link_first; twin_first]
  = Ok [twin_second; link_first; twin_first].
Proof.
  apply (canonical_order_idempotent [twin_second; link_first; twin_first]).
  vm_compute. reflexivity.
Defined.

(** ** The codec: URLs *)

Lemma chars_of_chars (l : list ascii) : chars (of_chars l) = l.
Proof. apply list_ascii_of_string_of_list_ascii. Qed.

Lemma partition_absent (c : ascii) (s : string) :
  has_char c s = false -> partition c s = (s, false, "").
Proof.
  unfold has_char. induction s as [|a s IH]; simpl; [reflexivity|].
  intros Hc. apply orb_false_iff in Hc. destruct Hc as [Ha Hs].
  rewrite Ascii.eqb_sym, Ha, (IH Hs). reflexivity.
Qed.

Lemma drop_c0_or_space_absent (c : ascii) (l : list ascii) :
  existsb (Ascii.eqb c) l = false ->
  existsb (Ascii.eqb c) (drop_c0_or_space l) = false.
Proof.
  induction l as [|a l IH]; simpl; [reflexivity|].
  intros Hc. destruct (N.leb (code a) 32); [|exact Hc].
  apply orb_false_iff in Hc. now apply IH.
Qed.

Lemma filter_absent (c : ascii) (f : ascii -> bool) (l : list ascii) :
  existsb (Ascii.eqb c) l = false ->
  existsb (Ascii.eqb c) (filter f l) = false.
Proof.
  induction l as [|a l IH]; simpl; [reflexivity|].
  intros Hc. apply orb_false_iff in Hc. destruct Hc as [Ha Hl].
  destruct (f a); simpl; [rewrite Ha|]; now apply IH.
Qed.

(** Without a colon no scheme is found. *)
Lemma urlsplit_without_colon (url : string) :
  has_char ":" url = false ->
  match urlsplit url with
  | Ok parsed => scheme parsed = ""
  | Raise e => e = ValueError "Invalid IPv6 URL"
  end.
Proof.
  intros Hc. unfold urlsplit. cbv zeta.
  assert (Hu : has_char ":"
                 (remove_chars ["009"; "013"; "010"]%char
                    (of_chars (drop_c0_or_space (chars url)))) = false).
  { unfold has_char, remove_chars. rewrite !chars_of_chars.
    apply filter_absent, drop_c0_or_space_absent. exact Hc. }
  rewrite (partition_absent _ _ Hu). cbn [andb].
  destruct (String.prefix "//" _);
    [destruct (splitnetloc _) as [n rest]|];
    destruct (xorb _ _); try reflexivity;
    destruct (partition "#" _) as [[? ?] ?];
    destruct (partition "?" _) as [[? ?] ?]; reflexivity.
Qed.

(** X27.  A URL without a colon has no scheme: it cannot be canonicalized,
    and the discovery client raises the [ValueError] of the canonicalizer
    before any verdict is formed. *)
Theorem url_without_colon_is_rejected `{IsoParser} `{Network} (url : string)
  (timeout evaluated_at : Z) :
  has_char ":" url = false ->
  exists msg,
    canonicalize_artifact_url url = Raise (ValueError msg)
    /\ verify_remote_artifact url timeout evaluated_at
       = Raise (ValueError msg).
Proof.
  intros Hc. apply urlsplit_without_colon in Hc.
  unfold verify_remote_artifact, canonicalize_artifact_url.
  destruct (urlsplit url) as [parsed|e].
  - exists "URL must include scheme and host". cbn [bind].
    rewrite Hc. split; reflexivity.
  - subst e. exists "Invalid IPv6 URL". split; reflexivity.
Qed.

Lemma url_without_colon_is_rejected_witness :
  exists msg,
    canonicalize_artifact_url "//example.com/article" = Raise (ValueError msg)
    /\ @verify_remote_artifact strict_parser example_network
         "//example.com/article" 10 june_2024
       = Raise (ValueError msg).
Proof.
  apply (@url_without_colon_is_rejected strict_parser example_network
           "//example.com/article" 10%Z june_2024).
  vm_compute. reflexivity.
Defined.

(** *** Characters that never enter a canonical URL *)

Section CleanStrings.
Variable P : ascii -> bool.

Lemma all_app (s t : string) :
  forallb P (chars (s ++ t))
  = (forallb P (chars s) && forallb P (chars t))%bool.
Proof. now rewrite chars_app, forallb_app. Qed.

Lemma all_cons (a : ascii) (s : string) :
  forallb P (chars (String a s)) = (P a && forallb P (chars s))%bool.
Proof. reflexivity. Qed.

Lemma all_rev (l : list ascii) : forallb P (rev l) = forallb P l.
Proof.
  induction l as [|a l IH]; [reflexivity|].
  simpl. rewrite forallb_app, IH. simpl. rewrite andb_true_r. apply andb_comm.
Qed.

Lemma all_str_rev (s : string) :
  forallb P (chars (str_rev s)) = forallb P (chars s).
Proof. unfold str_rev. rewrite chars_of_chars. apply all_rev. Qed.

Lemma partition_all (c : ascii) (s h t : string) (found : bool) :
  partition c s = (h, found, t) ->
  forallb P (chars s) = true ->
  forallb P (chars h) = true /\ forallb P (chars t) = true.
Proof.
  revert h t found. induction s as [|a s IH]; simpl; intros h t found Hp Hs.
  - inversion Hp. split; reflexivity.
  - apply andb_true_iff in Hs. destruct Hs as [Ha Hs].
    destruct (Ascii.eqb a c).
    + inversion Hp; subst. split; [reflexivity|exact Hs].
    + destruct (partition c s) as [[h' found'] t'].
      inversion Hp; subst. destruct (IH _ _ _ eq_refl Hs) as [Hh Ht].
      split; [simpl; now rewrite Ha|exact Ht].
Qed.

Lemma rpartition_all (c : ascii) (s h t : string) (found : bool) :
  rpartition c s = (h, found, t) ->
  forallb P (chars s) = true ->
  forallb P (chars h) = true /\ forallb P (chars t) = true.
Proof.
  unfold rpartition. intros Hp Hs.
  destruct (partition c (str_rev s)) as [[h' found'] t'] eqn:E.
  apply partition_all in E; [|now rewrite all_str_rev].
  destruct E as [Hh Ht].
  destruct found'; inversion Hp; subst.
  - now rewrite !all_str_rev.
  - split; [reflexivity|exact Hs].
Qed.

Lemma split_all (c : ascii) (s : string) :
  forallb P (chars s) = true ->
  Forall (fun x => forallb P (chars x) = true) (split c s).
Proof.
  induction s as [|a s IH]; simpl; intros Hs.
  - repeat constructor.
  - apply andb_true_iff in Hs. destruct Hs as [Ha Hs]. specialize (IH Hs).
    destruct (Ascii.eqb a c).
    + constructor; [reflexivity|exact IH].
    + destruct (split c s) as [|x rest].
      * repeat constructor. simpl. now rewrite Ha.
      * inversion IH; subst. constructor; [|assumption].
        simpl. now rewrite Ha.
Qed.

Lemma join_all (sep : string) (l : list string) :
  forallb P (chars sep) = true ->
  Forall (fun x => forallb P (chars x) = true) l ->
  forallb P (chars (join sep l)) = true.
Proof.
  intros Hsep. induction 1 as [|x l Hx Hl IH]; [reflexivity|].
  destruct l as [|y l]; [exact Hx|].
  change (join sep (x :: y :: l)) with (x ++ sep ++ join sep (y :: l)).
  now rewrite !all_app, Hx, Hsep, IH.
Qed.

Lemma normpath_comps_all (n : nat) (comps new_comps : list string) :
  Forall (fun x => forallb P (chars x) = true) comps ->
  Forall (fun x => forallb P (chars x) = true) new_comps ->
  Forall (fun x => forallb P (chars x) = true)
    (normpath_comps n comps new_comps).
Proof.
  intros Hc. revert new_comps.
  induction Hc as [|comp rest Hcomp Hrest IH]; intros new_comps Hn; simpl.
  - now apply Forall_rev.
  - destruct (String.eqb comp "" || String.eqb comp ".")%bool;
      [now apply IH|].
    destruct (_ || _ || _)%bool; apply IH.
    + now constructor.
    + destruct new_comps; [constructor|]. now inversion Hn.
Qed.

Lemma normpath_all (s : string) :
  P "/" = true -> P "." = true ->
  forallb P (chars s) = true -> forallb P (chars (normpath s)) = true.
Proof.
  intros Hslash Hdot Hs. unfold normpath.
  destruct (is_empty s); [simpl; now rewrite Hdot|].
  destruct (is_empty _); [simpl; now rewrite Hdot|].
  rewrite all_app, chars_of_chars. apply andb_true_iff. split.
  - apply forallb_forall. intros a Ha. apply repeat_spec in Ha. now subst.
  - apply join_all; [simpl; now rewrite Hslash|].
    apply normpath_comps_all; [now apply split_all|constructor].
Qed.

Lemma lower_all (s : string) :
  (forall a, P a = true -> P (lower_char a) = true) ->
  forallb P (chars s) = true -> forallb P (chars (lower s)) = true.
Proof.
  intros Hlow Hs. unfold lower. rewrite chars_of_chars.
  rewrite forallb_forall in *. intros a Ha.
  apply in_map_iff in Ha. destruct Ha as [b [<- Hb]]. auto.
Qed.

Lemma normalize_percent_hex_all_upto (n : nat) (s : string) :
  (forall a, P a = true -> P (upper_char a) = true) ->
  String.length s <= n ->
  forallb P (chars s) = true ->
  forallb P (chars (normalize_percent_hex s)) = true.
Proof.
  intros Hup. revert s. induction n as [|n IH]; intros s Hlen Hs.
  - destruct s; [reflexivity|simpl in Hlen; lia].
  - destruct s as [|a [|h1 [|h2 rest]]]; try exact Hs.
    rewrite normalize_percent_hex_escape.
    simpl in Hs. apply andb_true_iff in Hs. destruct Hs as [Ha Hs].
    destruct (Ascii.eqb a "%" && is_hex_digit h1 && is_hex_digit h2)%bool.
    + apply andb_true_iff in Hs. destruct Hs as [H1 Hs].
      apply andb_true_iff in Hs. destruct Hs as [H2 Hs].
      rewrite !all_cons, Ha, (Hup _ H1), (Hup _ H2). cbn [andb].
      apply IH; [simpl in Hlen; lia|exact Hs].
    + rewrite all_cons, Ha. cbn [andb].
      apply IH; [simpl in *; lia|exact Hs].
Qed.

Lemma normalize_percent_hex_all (s : string) :
  (forall a, P a = true -> P (upper_char a) = true) ->
  forallb P (chars s) = true ->
  forallb P (chars (normalize_percent_hex s)) = true.
Proof.
  intros Hup. apply (normalize_percent_hex_all_upto (String.length s));
    [exact Hup|lia].
Qed.

End CleanStrings.

(** *** The fragment delimiter *)

Lemma has_char_hash (s : string) :
  forallb not_hash (chars s) = true -> has_char "#" s = false.
Proof.
  unfold has_char.
  induction (chars s) as [|a l IH]; cbn [existsb forallb]; [reflexivity|].
  intros Hs. apply andb_true_iff in Hs. destruct Hs as [Ha Hl].
  unfold not_hash in Ha. apply negb_true_iff in Ha.
  now rewrite Ascii.eqb_sym, Ha, IH.
Qed.

Lemma partition_hash (s h t : string) (found : bool) :
  partition "#" s = (h, found, t) -> forallb not_hash (chars h) = true.
Proof.
  revert h t found. induction s as [|a s IH]; simpl; intros h t found Hp.
  - now inversion Hp.
  - destruct (Ascii.eqb a "#") eqn:Ha.
    + now inversion Hp.
    + destruct (partition "#" s) as [[h' found'] t'].
      inversion Hp; subst. simpl. unfold not_hash at 1. rewrite Ha.
      now apply (IH _ _ _ eq_refl).
Qed.

Lemma splitnetloc_hash (s n rest : string) :
  splitnetloc s = (n, rest) -> forallb not_hash (chars n) = true.
Proof.
  revert n rest. induction s as [|a s IH]; simpl; intros n rest Hp.
  - now inversion Hp.
  - destruct (Ascii.eqb a "/" || Ascii.eqb a "?" || Ascii.eqb a "#")%bool
      eqn:Ha.
    + now inversion Hp.
    + destruct (splitnetloc s) as [n' rest'].
      inversion Hp; subst. apply orb_false_iff in Ha. destruct Ha as [_ Ha].
      simpl. unfold not_hash at 1. rewrite Ha. now apply (IH _ _ eq_refl).
Qed.

Lemma lower_char_hash (a : ascii) :
  not_hash a = true -> not_hash (lower_char a) = true.
Proof.
  destruct a as [b0 b1 b2 b3 b4 b5 b6 b7].
  destruct b0, b1, b2, b3, b4, b5, b6, b7; intros Ha;
    first [reflexivity | discriminate Ha].
Qed.

Lemma upper_char_hash (a : ascii) :
  not_hash a = true -> not_hash (upper_char a) = true.
Proof.
  destruct a as [b0 b1 b2 b3 b4 b5 b6 b7].
  destruct b0, b1, b2, b3, b4, b5, b6, b7; intros Ha;
    first [reflexivity | discriminate Ha].
Qed.

Lemma scheme_char_hash (a : ascii) : scheme_char a = true -> not_hash a = true.
Proof.
  destruct a as [b0 b1 b2 b3 b4 b5 b6 b7].
  destruct b0, b1, b2, b3, b4, b5, b6, b7; intros Ha;
    first [reflexivity | discriminate Ha].
Qed.

Lemma digits_hash (d : Decimal.uint) :
  forallb not_hash (chars (NilEmpty.string_of_uint d)) = true.
Proof. induction d; simpl; auto. Qed.

Lemma str_of_Z_hash (n : Z) : forallb not_hash (chars (str_of_Z n)) = true.
Proof.
  assert (Huint : forall d,
             forallb not_hash (chars (NilZero.string_of_uint d)) = true).
  { intros d. unfold NilZero.string_of_uint.
    destruct d; try reflexivity;
      match goal with
      | |- context [NilEmpty.string_of_uint ?x] => exact (digits_hash x)
      end. }
  unfold str_of_Z, NilZero.string_of_int.
  destruct (Z.to_int n) as [d|d]; [apply Huint|].
  rewrite all_cons, Huint. reflexivity.
Qed.

(** No component that [urlsplit] returns, the fragment apart, holds the
    fragment delimiter. *)
Lemma urlsplit_hash (url : string) (parsed : SplitResult) :
  urlsplit url = Ok parsed ->
  forallb not_hash (chars (scheme parsed)) = true
  /\ forallb not_hash (chars (netloc parsed)) = true
  /\ forallb not_hash (chars (path parsed)) = true
  /\ forallb not_hash (chars (query parsed)) = true.
Proof.
  unfold urlsplit. cbv zeta.
  destruct (partition ":" _) as [[head found] tail].
  assert (Hscheme :
    forall rest,
      forallb not_hash
        (chars (fst (if (found
                         && match head with
                            | EmptyString => false
                            | String a _ => is_alpha a
                            end
                         && forallb scheme_char (chars head))%bool
                     then (lower head, tail) else (EmptyString, rest))))
      = true).
  { intros rest. destruct (_ && _ && _)%bool eqn:Hcond; [|reflexivity].
    apply andb_true_iff in Hcond. destruct Hcond as [_ Hall].
    apply lower_all; [exact lower_char_hash|].
    rewrite forallb_forall in *. intros a Ha. apply scheme_char_hash; auto. }
  specialize (Hscheme (remove_chars ["009"; "013"; "010"]%char
                         (of_chars (drop_c0_or_space (chars url))))).
  destruct (if (_ && _ && _)%bool then _ else _) as [sch u2].
  cbn [fst] in Hscheme.
  assert (Hnetloc :
    forallb not_hash
      (chars (fst (if String.prefix "//" u2
                   then splitnetloc
                          (String.substring 2 (String.length u2 - 2) u2)
                   else (EmptyString, u2)))) = true).
  { destruct (String.prefix "//" u2); [|reflexivity].
    destruct (splitnetloc _) as [n rest] eqn:En.
    exact (splitnetloc_hash _ _ _ En). }
  destruct (if String.prefix "//" u2 then _ else _) as [n u3].
  cbn [fst] in Hnetloc.
  destruct (xorb _ _); [discriminate|].
  destruct (partition "#" u3) as [[u4 f1] frag] eqn:E4.
  destruct (partition "?" u4) as [[u5 f2] q] eqn:E5.
  intros Hp. inversion Hp; subst. cbn [scheme netloc path query].
  apply partition_hash in E4.
  destruct (partition_all not_hash _ _ _ _ _ E5 E4) as [H5 Hq].
  auto.
Qed.

Lemma userinfo_hash (p : SplitResult) :
  forallb not_hash (chars (netloc p)) = true ->
  forallb not_hash
    (chars match userinfo_of p with
           | (Some username, Some password) =>
               username ++ ":" ++ password ++ "@"
           | (Some username, None) => username ++ "@"
           | (None, _) => ""
           end) = true.
Proof.
  intros Hn. unfold userinfo_of.
  destruct (rpartition "@" (netloc p)) as [[userinfo have_info] rest] eqn:E1.
  destruct (rpartition_all not_hash _ _ _ _ _ E1 Hn) as [Hu _].
  destruct have_info; [|reflexivity].
  destruct (partition ":" userinfo) as [[username have_password] password]
    eqn:E2.
  destruct (partition_all not_hash _ _ _ _ _ E2 Hu) as [Hname Hpw].
  destruct have_password; rewrite !all_app, Hname, ?Hpw; reflexivity.
Qed.

Lemma hostname_hash (p : SplitResult) :
  forallb not_hash (chars (netloc p)) = true ->
  forallb not_hash
    (chars match hostname_of p with
           | Some h => h
           | None => ""
           end) = true.
Proof.
  intros Hn. unfold hostname_of, hostinfo_of.
  destruct (rpartition "@" (netloc p)) as [[userinfo have_info] hostinfo]
    eqn:E1.
  destruct (rpartition_all not_hash _ _ _ _ _ E1 Hn) as [_ Hh].
  destruct (partition "[" hostinfo) as [[before have_open_br] bracketed]
    eqn:E2.
  destruct (partition_all not_hash _ _ _ _ _ E2 Hh) as [_ Hb].
  assert (Hhost :
    forallb not_hash
      (chars (fst (if have_open_br
                   then let '(hostname, _, port) := partition "]" bracketed in
                        let '(_, _, port) := partition ":" port in
                        (hostname, port)
                   else let '(hostname, _, port) := partition ":" hostinfo in
                        (hostname, port)))) = true).
  { destruct have_open_br.
    - destruct (partition "]" bracketed) as [[hostname f] port] eqn:E3.
      destruct (partition ":" port) as [[x y] port'].
      now destruct (partition_all not_hash _ _ _ _ _ E3 Hb).
    - destruct (partition ":" hostinfo) as [[hostname f] port] eqn:E3.
      now destruct (partition_all not_hash _ _ _ _ _ E3 Hh). }
  destruct (if have_open_br then _ else _) as [hostname port].
  cbn [fst] in *.
  destruct (is_empty hostname); [reflexivity|].
  destruct (partition "%" hostname) as [[name percent] zone] eqn:E4.
  destruct (partition_all not_hash _ _ _ _ _ E4 Hhost) as [Hname Hzone].
  rewrite !all_app, Hzone, (lower_all _ _ lower_char_hash Hname).
  now destruct percent.
Qed.

Lemma urlunsplit_hash (p : SplitResult) :
  forallb not_hash (chars (scheme p)) = true ->
  forallb not_hash (chars (netloc p)) = true ->
  forallb not_hash (chars (path p)) = true ->
  forallb not_hash (chars (query p)) = true ->
  fragment p = "" ->
  forallb not_hash (chars (urlunsplit p)) = true.
Proof.
  intros Hs Hn Hp Hq Hf. unfold urlunsplit. rewrite Hf. cbn [is_empty].
  repeat match goal with
         | |- context [if ?b then _ else _] => destruct b
         end;
    rewrite ?all_app, ?Hs, ?Hn, ?Hp, ?Hq; reflexivity.
Qed.

(** X28.  A canonical URL never holds a fragment: whatever URL is
    canonicalized, the result has no [#] in it. *)
Theorem canonical_url_has_no_fragment (url canonical_url : string) :
  canonicalize_artifact_url url = Ok canonical_url ->
  has_char "#" canonical_url = false.
Proof.
  unfold canonicalize_artifact_url. intros Hc.
  destruct (urlsplit url) as [parsed|] eqn:Hsplit; [|discriminate].
  cbn [bind] in Hc. cbv zeta in Hc.
  destruct (urlsplit_hash _ _ Hsplit) as [Hs [Hn [Hp Hq]]].
  destruct (is_empty (scheme parsed) || is_empty (netloc parsed))%bool;
    [discriminate|].
  destruct (is_empty (lower _)); [discriminate|].
  destruct (port_of parsed) as [port|]; [|discriminate].
  cbn [bind] in Hc. inversion Hc as [Hurl]. clear Hc Hurl.
  apply has_char_hash, urlunsplit_hash; cbn [scheme netloc path query fragment].
  - now apply lower_all; [exact lower_char_hash|].
  - rewrite !all_app.
    apply andb_true_iff. split; [exact (userinfo_hash _ Hn)|].
    apply andb_true_iff. split;
      [exact (lower_all _ _ lower_char_hash (hostname_hash _ Hn))|].
    destruct (match port with Some _ => _ | None => false end);
      [|reflexivity].
    now rewrite all_cons, str_of_Z_hash.
  - apply normalize_percent_hex_all; [exact upper_char_hash|].
    assert (Hnorm : forallb not_hash
                      (chars (normpath (if is_empty (path parsed) then "/"
                                        else path parsed))) = true).
    { apply normpath_all; try reflexivity.
      now destruct (is_empty (path parsed)). }
    repeat match goal with
           | |- context [if ?b then _ else _] => destruct b
           end;
      rewrite ?all_app, ?all_cons, ?Hnorm; reflexivity.
  - now apply normalize_percent_hex_all; [exact upper_char_hash|].
  - reflexivity.
Qed.

Lemma canonical_url_has_no_fragment_witness :
  has_char "#" "https://user@example.com:8443/a/c%2F?q=%3A" = false.
Proof.
  apply (canonical_url_has_no_fragment
           "HTTPS://user@Example.COM:8443/a/./b/../c%2f?q=%3a#part").
  vm_compute. reflexivity.
Defined.
